(** * Provider gateway scripts: failure classification and circuit breaker

    A shallow embedding of the command scripts of the plugin

      - [commands/openai-cli-improved.cjs]   (Codex, with circuit breaker)
      - the zai-cli script of [unnamed/part_005]    (Z.ai over HTTPS, with
        circuit breaker)
      - the gemini-cli script of [unnamed/part_005] and
        [commands/qwen-cli.cjs]              (no breaker)
      - the gemini-accounts script of [unnamed/part_005] (account list:
        masking, removal, rotation, selection)

    Conventions of the model.

    - Instants are integer milliseconds ([Z]), as [Date.now()] returns them.
    - Text is [string]: the UTF-8 bytes of a JavaScript string.
      [includes] and [startsWith] compare bytes, which finds the same
      substrings as comparing characters; [trim] removes the white space
      and line terminators of ECMAScript in their UTF-8 encoding;
      [toLowerCase] lowers the letters A to Z, which is what the tests
      against the scripts' lower-case ASCII cues depend on.  Lengths and
      positions count bytes, as JavaScript counts them on ASCII text.
    - The breaker state file is represented by what [JSON.parse] makes of
      its text: either text that does not parse, or the encoding of a state
      object [{ failures, lastSuccess }] with numeric timestamps.  Valid
      JSON of any other shape, which no script writes and on which the
      breaker functions throw a [TypeError], is outside the model.
    - The current index of the account list and the index of a payload
      are numbers that need not be integers ([Accounts.Num]).
    - Each breaker operation reads the clock once: the [Date.now()] inside
      [loadState] and the one of the operation itself are the same instant.
    - Exceptions are explicit: a computation yields [Ok v] or [Throw e],
      and [try_catch] is the source's [try { } catch (err) { }]. *)

From Stdlib Require Import ZArith List String Ascii Bool Lia.
Import ListNotations.
Local Open Scope string_scope.
Local Open Scope Z_scope.

(* ================================================================== *)
(** ** JavaScript string builtins used by the scripts *)
(* ================================================================== *)

Module JS.

Definition is_upper (c : ascii) : bool :=
  let n := nat_of_ascii c in (Nat.leb 65 n && Nat.leb n 90)%bool.

Definition lower_char (c : ascii) : ascii :=
  if is_upper c then ascii_of_nat (nat_of_ascii c + 32) else c.

(** [s.toLowerCase()] *)
Fixpoint toLowerCase (s : string) : string :=
  match s with
  | EmptyString => EmptyString
  | String c r => String (lower_char c) (toLowerCase r)
  end.

(** [s.startsWith(p)] *)
Fixpoint startsWith (s p : string) {struct p} : bool :=
  match p, s with
  | EmptyString, _ => true
  | String _ _, EmptyString => false
  | String a p', String b s' => (Ascii.eqb a b && startsWith s' p')%bool
  end.

(** [s.includes(sub)] *)
Fixpoint includes (s sub : string) : bool :=
  (startsWith s sub ||
   match s with
   | EmptyString => false
   | String _ r => includes r sub
   end)%bool.

(** The white space and line terminators that [trim] removes, in UTF-8:

      - one byte: TAB, LF, VT, FF, CR, SPACE;
      - two bytes: U+00A0 no-break space (C2 A0);
      - three bytes: U+1680 (E1 9A 80), U+2000 to U+200A (E2 80 80 to
        E2 80 8A), U+2028 and U+2029 (E2 80 A8, E2 80 A9), U+202F
        (E2 80 AF), U+205F (E2 81 9F), U+3000 (E3 80 80) and U+FEFF
        (EF BB BF). *)
Definition ws1 (a : ascii) : bool :=
  let n := nat_of_ascii a in
  ((Nat.leb 9 n && Nat.leb n 13) || Nat.eqb n 32)%bool.

Definition ws2 (a b : ascii) : bool :=
  (Nat.eqb (nat_of_ascii a) 194 && Nat.eqb (nat_of_ascii b) 160)%bool.

Definition ws3 (a b c : ascii) : bool :=
  let x := nat_of_ascii a in
  let y := nat_of_ascii b in
  let z := nat_of_ascii c in
  ((Nat.eqb x 225 && Nat.eqb y 154 && Nat.eqb z 128) ||
   (Nat.eqb x 226 && Nat.eqb y 128 &&
      ((Nat.leb 128 z && Nat.leb z 138) ||
       Nat.eqb z 168 || Nat.eqb z 169 || Nat.eqb z 175)) ||
   (Nat.eqb x 226 && Nat.eqb y 129 && Nat.eqb z 159) ||
   (Nat.eqb x 227 && Nat.eqb y 128 && Nat.eqb z 128) ||
   (Nat.eqb x 239 && Nat.eqb y 187 && Nat.eqb z 191))%bool.

(** [w] is one of these byte sequences. *)
Definition ws_unit (w : string) : bool :=
  match w with
  | String a EmptyString => ws1 a
  | String a (String b EmptyString) => ws2 a b
  | String a (String b (String c EmptyString)) => ws3 a b c
  | _ => false
  end.

(** [s] consists of white space only. *)
Fixpoint all_ws (s : string) : bool :=
  match s with
  | EmptyString => true
  | String a r1 =>
      if ws1 a then all_ws r1
      else match r1 with
           | EmptyString => false
           | String b r2 =>
               if ws2 a b then all_ws r2
               else match r2 with
                    | EmptyString => false
                    | String c r3 => if ws3 a b c then all_ws r3 else false
                    end
           end
  end.

Fixpoint trimStart (s : string) : string :=
  match s with
  | EmptyString => EmptyString
  | String a r1 =>
      if ws1 a then trimStart r1
      else match r1 with
           | EmptyString => s
           | String b r2 =>
               if ws2 a b then trimStart r2
               else match r2 with
                    | EmptyString => s
                    | String c r3 => if ws3 a b c then trimStart r3 else s
                    end
           end
  end.

Fixpoint trimEnd (s : string) : string :=
  match s with
  | EmptyString => EmptyString
  | String c r => if all_ws s then EmptyString else String c (trimEnd r)
  end.

(** [s.trim()] *)
Definition trim (s : string) : string := trimEnd (trimStart s).

(** Truthiness of a string: only the empty string is falsy. *)
Definition truthy (s : string) : bool :=
  match s with EmptyString => false | _ => true end.

(** [Math.ceil(a / b)] for integers [a] and [b > 0]. *)
Definition ceil_div (a b : Z) : Z := - ((- a) / b).

(** [Math.min(...l)] on a non-empty list.  The scripts only call it on
    a list that has passed a length test, so the value chosen for the
    empty list (JavaScript's [Infinity]) is never consulted. *)
Definition Math_min (l : list Z) : Z :=
  match l with
  | [] => 0
  | x :: r => fold_left Z.min r x
  end.

(** Decimal rendering of an integer inside a template literal. *)
Fixpoint digits (fuel : nat) (n : Z) (acc : string) : string :=
  match fuel with
  | O => acc
  | S f =>
      let d := ascii_of_nat (48 + Z.to_nat (n mod 10)) in
      if n <? 10 then String d acc else digits f (n / 10) (String d acc)
  end.

Definition number_to_string (n : Z) : string :=
  if n <? 0 then String "-" (digits (S (Z.to_nat (Z.log2 (- n)))) (- n) "")
  else digits (S (Z.to_nat (Z.log2 n))) n "".

End JS.

(* ================================================================== *)
(** ** Exceptions and the process environment *)
(* ================================================================== *)

(** The breaker record written to the state file. *)
Record State := mkState { failures : list Z; lastSuccess : Z }.

(** Text of the state file, up to [JSON.parse]. *)
Inductive FileText :=
| Garbled (raw : string)      (* JSON.parse throws a SyntaxError *)
| Encoded (st : State).       (* the text JSON.stringify(st) *)

(** A contact with the external provider. *)
Inductive ProviderCall :=
| ExecFile (file : string) (args : list string)
| HttpsRequest (hostname path body : string).

(** What a script run can observe and change outside itself. *)
Record Sys := mkSys {
  content  : option FileText;   (* None: the state file does not exist *)
  readable : bool;              (* readFileSync succeeds *)
  writable : bool;              (* writeFileSync succeeds *)
  calls    : list ProviderCall  (* provider contacts made so far, oldest first *)
}.

Inductive Exn := FsError (code : string) | SyntaxError | TypeError.

Inductive Outcome (A : Type) :=
| Ok (a : A)
| Throw (e : Exn).
Arguments Ok {A} a.
Arguments Throw {A} e.

(** Computations over the environment that may throw; effects performed
    before a throw are kept. *)
Definition M (A : Type) : Type := Sys -> Outcome A * Sys.

Definition ret {A} (a : A) : M A := fun s => (Ok a, s).

Definition bind {A B} (m : M A) (k : A -> M B) : M B :=
  fun s => match m s with
           | (Ok a, s') => k a s'
           | (Throw e, s') => (Throw e, s')
           end.

Definition throw {A} (e : Exn) : M A := fun s => (Throw e, s).

(** [try { body } catch (err) { handler }] *)
Definition try_catch {A} (body : M A) (handler : Exn -> M A) : M A :=
  fun s => match body s with
           | (Ok a, s') => (Ok a, s')
           | (Throw e, s') => handler e s'
           end.

Declare Scope js_scope.
Delimit Scope js_scope with js.
Notation "x <- m ;; k" := (bind m (fun x => k))
  (at level 61, m at next level, right associativity) : js_scope.
Notation "m ;; k" := (bind m (fun _ => k))
  (at level 61, right associativity) : js_scope.
Local Open Scope js_scope.

Module Fs.

(** [fs.existsSync(STATE_FILE)]: never throws. *)
Definition existsSync : M bool :=
  fun s => (Ok (match content s with Some _ => true | None => false end), s).

(** [fs.readFileSync(STATE_FILE, "utf8")] *)
Definition readFileSync : M FileText :=
  fun s => match content s with
           | None => (Throw (FsError "ENOENT"), s)
           | Some t => if readable s then (Ok t, s)
                       else (Throw (FsError "EACCES"), s)
           end.

(** [fs.writeFileSync(STATE_FILE, text, "utf8")] *)
Definition writeFileSync (t : FileText) : M unit :=
  fun s => if writable s
           then (Ok tt, mkSys (Some t) (readable s) (writable s) (calls s))
           else (Throw (FsError "EACCES"), s).

End Fs.

Module Json.

(** [JSON.parse(data)] *)
Definition parse (data : FileText) : M State :=
  match data with
  | Garbled _ => throw SyntaxError
  | Encoded st => ret st
  end.

(** [JSON.stringify(state)] *)
Definition stringify (st : State) : FileText := Encoded st.

End Json.

(* ================================================================== *)
(** ** Circuit breaker (openai-cli-improved.cjs and zai-cli, same text) *)
(* ================================================================== *)

Definition CIRCUIT_BREAKER_THRESHOLD : Z := 3.
Definition CIRCUIT_BREAKER_WINDOW : Z := 5 * 60 * 1000.
Definition CIRCUIT_BREAKER_COOLDOWN : Z := 10 * 60 * 1000.

(** Result of [isCircuitBreakerOpen]: [{ open: true, remainingMinutes }]
    or [{ open: false }]. *)
Inductive CircuitState :=
| Open (remainingMinutes : Z)
| Closed.

Definition is_open (c : CircuitState) : bool :=
  match c with Open _ => true | Closed => false end.

(** [loadState]; [now] is the value of [Date.now()]. *)
Definition loadState (now : Z) : M State :=
  try_catch
    (ex <- Fs.existsSync ;;
     if ex then
       data <- Fs.readFileSync ;;
       Json.parse data
     else ret (mkState [] now))
    (fun _ => ret (mkState [] now)).

Definition saveState (state : State) : M unit :=
  try_catch
    (Fs.writeFileSync (Json.stringify state))
    (fun _ => ret tt).

(** The window test of the filter in [isCircuitBreakerOpen]. *)
Definition in_window (now ts : Z) : bool := now - ts <? CIRCUIT_BREAKER_WINDOW.

Definition isCircuitBreakerOpen (now : Z) : M CircuitState :=
  state <- loadState now ;;
  let failures' := filter (in_window now) (failures state) in
  if CIRCUIT_BREAKER_THRESHOLD <=? Z.of_nat (List.length failures') then
    let oldestFailure := JS.Math_min failures' in
    let timeSinceOldest := now - oldestFailure in
    if timeSinceOldest <? CIRCUIT_BREAKER_COOLDOWN then
      let remainingCooldown :=
        JS.ceil_div (CIRCUIT_BREAKER_COOLDOWN - timeSinceOldest) 60000 in
      ret (Open remainingCooldown)
    else
      saveState (mkState [] (lastSuccess state)) ;;
      ret Closed
  else ret Closed.

Definition recordFailure (now : Z) : M unit :=
  state <- loadState now ;;
  saveState (mkState (failures state ++ [now])%list (lastSuccess state)).

Definition recordSuccess (now : Z) : M unit :=
  state <- loadState now ;;
  saveState (mkState [] now).

(* ================================================================== *)
(** ** Results shared by the provider scripts *)
(* ================================================================== *)

(** The [type] strings of a failed result. *)
Inductive ErrorType :=
| circuit_breaker | limit | auth | server_error | timeout | missing | error.

(** The spec's error kinds, for reading the theorems. *)
Inductive ErrorKind :=
| Auth | RateLimit | Missing | ServerError | Timeout | CircuitOpen | Unknown.

Definition kind_of (t : ErrorType) : ErrorKind :=
  match t with
  | circuit_breaker => CircuitOpen
  | limit => RateLimit
  | auth => Auth
  | server_error => ServerError
  | timeout => Timeout
  | missing => Missing
  | error => Unknown
  end.

(** The object a [run...] promise resolves with: [{ ok: true, output }] or
    [{ ok: false, type, retryable?, message }]. *)
Inductive RunResult :=
| ok_true (output : string)
| ok_false (type : ErrorType) (retryable : option bool) (message : string).

(** The [error] argument of an [execFile] callback. *)
Inductive ErrCode :=
| ENOENT | ETIMEDOUT | ExitStatus (n : Z) | OtherCode (name : string).

Record ExecError := mkExecError { code : ErrCode; killed : bool }.

(** What the child process hands to the callback. *)
Record ChildResult := mkChild {
  child_error : option ExecError;
  stdout : string;
  stderr : string
}.

Definition nl : string := String (ascii_of_nat 10) "".

(** [execFile(file, args, options, callback)]: the spawn is recorded. *)
Definition execFile (file : string) (args : list string) : M unit :=
  fun s => (Ok tt, mkSys (content s) (readable s) (writable s)
                         (calls s ++ [ExecFile file args])%list).

(** An optional payload field used as a condition: present and non-empty. *)
Definition given (v : option string) : bool :=
  match v with Some s => JS.truthy s | None => false end.

Definition push_opt (flag : string) (v : option string) : list string :=
  match v with
  | Some s => if JS.truthy s then [flag; s] else []
  | None => []
  end.

(* ================================================================== *)
(** ** commands/openai-cli-improved.cjs *)
(* ================================================================== *)

Module Codex.

Definition isRateLimitError (stderr : string) : bool :=
  let msg := JS.toLowerCase stderr in
  (JS.includes msg "rate limit" ||
   JS.includes msg "quota" ||
   JS.includes msg "billing hard limit" ||
   JS.includes msg "insufficient_quota" ||
   JS.includes msg "too many requests")%bool.

Definition isAuthError (stderr : string) : bool :=
  let msg := JS.toLowerCase stderr in
  (JS.includes msg "not logged in" ||
   (JS.includes msg "please run" && JS.includes msg "codex login") ||
   JS.includes msg "authentication" ||
   JS.includes msg "unauthorized" ||
   JS.includes msg "invalid credentials")%bool.

Definition isServerError (stderr : string) : bool :=
  let msg := JS.toLowerCase stderr in
  (JS.includes msg "500" ||
   JS.includes msg "502" ||
   JS.includes msg "503" ||
   JS.includes msg "504" ||
   JS.includes msg "internal server error" ||
   JS.includes msg "service unavailable" ||
   JS.includes msg "gateway timeout")%bool.

Definition is_ETIMEDOUT (c : ErrCode) : bool :=
  match c with ETIMEDOUT => true | _ => false end.

Definition is_ENOENT (c : ErrCode) : bool :=
  match c with ENOENT => true | _ => false end.

(** The callback passed to [execFile] in [runCodex]; [done] is the value
    of [Date.now()] when it runs.  The listener [child.on("error")] added
    after it resolves with [missing] on ENOENT as well; it runs after the
    callback, whose resolution the promise keeps, and it has no other
    effect, so it is not part of the model. *)
Definition callback (done : Z) (r : ChildResult) : M RunResult :=
  match child_error r with
  | Some err =>
      let stderrText := stderr r in
      if isRateLimitError stderrText then
        recordFailure done ;;
        ret (ok_false limit (Some false)
          "Codex/OpenAI rate limit reached. DO NOT RETRY automatically. Wait before manual retry.")
      else if isAuthError stderrText then
        ret (ok_false auth (Some false)
          "Codex CLI authentication missing or invalid. Run `codex login` in your shell.")
      else if isServerError stderrText then
        recordFailure done ;;
        ret (ok_false server_error (Some false)
          "OpenAI API server error detected. DO NOT RETRY - likely service outage. Circuit breaker will activate after multiple failures.")
      else if (is_ETIMEDOUT (code err) || killed err)%bool then
        recordFailure done ;;
        ret (ok_false timeout (Some false)
          "Request timed out after 5 minutes. DO NOT RETRY automatically.")
      else if is_ENOENT (code err) then
        ret (ok_false missing (Some false)
          "The `codex` CLI is not available on PATH. Install with: npm install -g @openai/codex")
      else
        recordFailure done ;;
        ret (ok_false error (Some false)
          ("Codex CLI error. DO NOT RETRY. Stderr:" ++ nl ++ JS.trim stderrText)%string)
  | None =>
      recordSuccess done ;;
      ret (ok_true (JS.trim (stdout r)))
  end.

Definition build_args (prompt : string) (model sandbox approvalPolicy : option string)
  : list string :=
  (push_opt "--sandbox" sandbox ++
   push_opt "--ask-for-approval" approvalPolicy ++
   push_opt "-m" model ++
   ["exec"; prompt])%list.

Definition open_message (remainingMinutes : Z) : string :=
  ("Circuit breaker is open due to repeated failures. Please wait " ++
   JS.number_to_string remainingMinutes ++
   " minutes before retrying. This prevents overwhelming the API during outages.")%string.

(** [runCodex].  [now] is [Date.now()] at the breaker check, [done] at
    the callback; [child] is the behaviour of the spawned [codex]. *)
Definition runCodex (now done : Z) (child : list string -> ChildResult)
           (prompt : string) (model sandbox approvalPolicy : option string)
  : M RunResult :=
  circuitState <- isCircuitBreakerOpen now ;;
  match circuitState with
  | Open remainingMinutes =>
      ret (ok_false circuit_breaker None (open_message remainingMinutes))
  | Closed =>
      let args := build_args prompt model sandbox approvalPolicy in
      execFile "codex" args ;;
      callback done (child args)
  end.

End Codex.

(* ================================================================== *)
(** ** Standard input and the JSON response of a script *)
(* ================================================================== *)

(** A payload field as the scripts test it. *)
Inductive JSVal :=
| JUndefined
| JStr (s : string)
| JOther (truthy : bool) (text : string).
  (* a number, boolean, array, object or null; [text] is the value as a
     child process receives it on its command line *)

Definition js_truthy (v : JSVal) : bool :=
  match v with
  | JUndefined => false
  | JStr s => JS.truthy s
  | JOther b _ => b
  end.

Record Payload := mkPayload {
  prompt : JSVal;
  model : option string;
  sandbox : option string;
  approval_policy : option string;
  approval_mode : option string;
  yolo : bool                    (* [yolo === true] *)
}.

(** Standard input, up to [JSON.parse].  [Object] stands for any JSON
    value other than [null]: the fields it lacks read as [undefined].
    The optional fields of a payload are absent or strings. *)
Inductive Stdin :=
| Empty                          (* no bytes at all *)
| Malformed (raw : string)       (* non-empty text on which JSON.parse throws *)
| JsonNull                       (* the text [null] *)
| Object (p : Payload).

(** The JSON object written to standard output. *)
Inductive Response :=
| resp_success (provider : string) (output : string)
| resp_failure (provider : string) (error_type : ErrorType)
               (retryable : option bool) (message : string).

(** How a script run ends: its exit code and what it printed to stdout. *)
Record Exit := mkExit { exit_code : Z; printed : option Response }.

(** [result.retryable || false] *)
Definition or_false (b : option bool) : bool :=
  match b with Some true => true | _ => false end.

Module CodexMain.
Import Codex.

Definition MAX_INPUT_SIZE : Z := 10 * 1024 * 1024.

(** [main]; [totalSize] is the number of bytes on standard input. *)
Definition body (now done : Z) (child : list string -> ChildResult)
           (totalSize : Z) (input : Stdin) : M Exit :=
  if MAX_INPUT_SIZE <? totalSize then ret (mkExit 1 None) else
  match input with
  | Malformed _ => ret (mkExit 1 None)
  | JsonNull => throw TypeError        (* [payload.prompt] on null *)
  | Empty | Object _ =>
      let payload :=
        match input with
        | Object p => p
        | _ => mkPayload JUndefined None None None None false   (* "{}" *)
        end in
      match prompt payload with
      | JStr p =>
          if JS.truthy p then
            result <- runCodex now done child p (model payload)
                               (sandbox payload) (approval_policy payload) ;;
            match result with
            | ok_false t r m =>
                ret (mkExit 1 (Some (resp_failure "codex" t (Some (or_false r)) m)))
            | ok_true out =>
                ret (mkExit 0 (Some (resp_success "codex" out)))
            end
          else ret (mkExit 1 None)
      | _ => ret (mkExit 1 None)
      end
  end.

(** [main().catch((err) => { ...; process.exit(1); })] *)
Definition main (now done : Z) (child : list string -> ChildResult)
           (totalSize : Z) (input : Stdin) : M Exit :=
  try_catch (body now done child totalSize input) (fun _ => ret (mkExit 1 None)).

End CodexMain.

(* ================================================================== *)
(** ** commands/qwen-cli.cjs *)
(* ================================================================== *)

Module Qwen.

Definition isRateLimitError (stderr : string) : bool :=
  let msg := JS.toLowerCase stderr in
  (JS.includes msg "rate limit" ||
   JS.includes msg "quota" ||
   JS.includes msg "billing" ||
   JS.includes msg "insufficient_quota" ||
   JS.includes msg "too many requests")%bool.

Definition isAuthError (stderr : string) : bool :=
  let msg := JS.toLowerCase stderr in
  (JS.includes msg "not logged in" ||
   JS.includes msg "api key" ||
   JS.includes msg "authentication" ||
   JS.includes msg "unauthorized" ||
   JS.includes msg "invalid key" ||
   JS.includes msg "dashscope")%bool.

Definition limit_message : string :=
  "Qwen account usage limit or quota reached. You have daily free limits - please wait until reset or use a different model.".

Definition auth_message : string :=
  ("Qwen CLI authentication missing or invalid. Please configure your DashScope API key:" ++ nl ++
   "  export OPENAI_API_KEY='your_dashscope_key'" ++ nl ++
   "  export OPENAI_BASE_URL='https://dashscope-intl.aliyuncs.com/compatible-mode/v1'")%string.

Definition missing_message : string :=
  ("The `qwen` CLI is not available on PATH. Install with:" ++ nl ++
   "  npm install -g @qwen-code/qwen-code")%string.

Definition callback (r : ChildResult) : M RunResult :=
  match child_error r with
  | Some err =>
      let stderrText := stderr r in
      if isRateLimitError stderrText then ret (ok_false limit None limit_message)
      else if isAuthError stderrText then ret (ok_false auth None auth_message)
      else if Codex.is_ENOENT (code err) then ret (ok_false missing None missing_message)
      else ret (ok_false error None
             ("Qwen CLI returned an error. Stderr:" ++ nl ++ JS.trim stderrText)%string)
  | None => ret (ok_true (JS.trim (stdout r)))
  end.

Definition approval_args (approvalMode : option string) (yolo : bool) : list string :=
  if given approvalMode then push_opt "--approval-mode" approvalMode
  else if yolo then ["--approval-mode"; "yolo"] else [].

Definition runQwen (child : list string -> ChildResult)
           (prompt : string) (model : option string) (yolo : bool)
           (approvalMode : option string) : M RunResult :=
  let args := (push_opt "--model" model ++ approval_args approvalMode yolo ++ [prompt])%list in
  execFile "qwen" args ;;
  callback (child args).

Definition arg_text (v : JSVal) : string :=
  match v with
  | JUndefined => "undefined"
  | JStr s => s
  | JOther _ t => t
  end.

Definition dq : string := String (ascii_of_nat 34) "".

Definition invalid_json_message : string :=
  ("Invalid JSON input. Expected: {" ++ dq ++ "prompt" ++ dq ++ ": " ++ dq ++ "..." ++ dq ++
   ", " ++ dq ++ "model" ++ dq ++ ": " ++ dq ++ "..." ++ dq ++ "}")%string.

(** [main]; the call [main()] has no rejection handler, so a [Throw]
    here is an unhandled rejection. *)
Definition main (child : list string -> ChildResult) (input : Stdin) : M Exit :=
  match input with
  | Empty | Malformed _ =>
      ret (mkExit 0 (Some (resp_failure "qwen" error None invalid_json_message)))
  | JsonNull => throw TypeError          (* destructuring null *)
  | Object params =>
      if negb (js_truthy (prompt params)) then
        ret (mkExit 0 (Some (resp_failure "qwen" error None
               "Missing required 'prompt' field in JSON input.")))
      else
        result <- runQwen child (arg_text (prompt params)) (model params)
                          (yolo params) (approval_mode params) ;;
        match result with
        | ok_true out => ret (mkExit 0 (Some (resp_success "qwen" out)))
        | ok_false t _ m => ret (mkExit 0 (Some (resp_failure "qwen" t None m)))
        end
  end.

End Qwen.

(* ================================================================== *)
(** ** gemini-cli (second script of unnamed/part_005) *)
(* ================================================================== *)

Module Gemini.

Definition isRateLimitError (stderr : string) : bool :=
  let msg := JS.toLowerCase stderr in
  (JS.includes msg "rate limit" ||
   JS.includes msg "quota" ||
   JS.includes msg "billing hard limit" ||
   JS.includes msg "insufficient_quota")%bool.

Definition isAuthError (stderr : string) : bool :=
  let msg := JS.toLowerCase stderr in
  (JS.includes msg "not logged in" ||
   (JS.includes msg "please run" && JS.includes msg "gemini login") ||
   JS.includes msg "authentication" ||
   JS.includes msg "unauthorized")%bool.

Definition callback (r : ChildResult) : M RunResult :=
  match child_error r with
  | Some err =>
      let stderrText := stderr r in
      if isRateLimitError stderrText then
        ret (ok_false limit None
          "Gemini account usage limit or quota appears to be reached. Please wait or adjust your account limits before retrying.")
      else if isAuthError stderrText then
        ret (ok_false auth None
          "Gemini CLI authentication appears to be missing or invalid. Please ensure your Gemini CLI is logged in/configured and then retry.")
      else if Codex.is_ENOENT (code err) then
        ret (ok_false missing None
          "The `gemini` CLI is not available on PATH. Please install the official Gemini CLI and retry.")
      else
        ret (ok_false error None
          ("Gemini CLI returned an error. Stderr:" ++ nl ++ JS.trim stderrText)%string)
  | None => ret (ok_true (JS.trim (stdout r)))
  end.

Definition runGemini (child : list string -> ChildResult)
           (prompt : string) (model : option string) (yolo : bool)
           (approvalMode : option string) : M RunResult :=
  let args := (push_opt "--model" model ++
               Qwen.approval_args approvalMode yolo ++ [prompt])%list in
  execFile "gemini" args ;;
  callback (child args).

End Gemini.

(* ================================================================== *)
(** ** zai-cli (third script of unnamed/part_005) *)
(* ================================================================== *)

Module Zai.

Definition ZAI_BASE_URL : string := "api.z.ai".
Definition ZAI_API_PATH : string := "/api/anthropic/v1/messages".
Definition DEFAULT_MODEL : string := "claude-3-5-sonnet-20241022".

Record Block := mkBlock { block_type : string; block_text : string }.

(** Response body, up to [JSON.parse]: text that does not parse (or
    whose [content] cannot be filtered), or an object with an optional
    [content] array. *)
Inductive Body :=
| NotJson (data : string) (err_message : string)
| Json (data : string) (content : option (list Block)).

(** The event a request ends with; one handler runs per request. *)
Inductive HttpOutcome :=
| Responded (statusCode : Z) (body : Body)   (* res "end" *)
| RequestError (message : string)            (* req "error" *)
| RequestTimeout.                            (* req "timeout" *)

Definition body_data (b : Body) : string :=
  match b with NotJson d _ => d | Json d _ => d end.

(** [response.content?.filter(...).map(...).join("\n") || data] *)
Definition extract (data : string) (content : option (list Block)) : string :=
  match content with
  | None => data
  | Some blocks =>
      let texts := map block_text
                     (filter (fun b => String.eqb (block_type b) "text") blocks) in
      let joined := String.concat nl texts in
      if JS.truthy joined then joined else data
  end.

Definition request (model prompt : string) : M unit :=
  fun s => (Ok tt, mkSys (content s) (readable s) (writable s)
                         (calls s ++ [HttpsRequest ZAI_BASE_URL ZAI_API_PATH
                                        (model ++ nl ++ prompt)%string])%list).

(** [model || DEFAULT_MODEL] *)
Definition or_default (model : option string) : string :=
  match model with
  | Some m => if JS.truthy m then m else DEFAULT_MODEL
  | None => DEFAULT_MODEL
  end.

Definition open_message (remainingMinutes : Z) : string :=
  ("Circuit breaker is open due to repeated failures. Please wait " ++
   JS.number_to_string remainingMinutes ++ " minutes before retrying.")%string.

Definition no_key_message : string :=
  ("Z.ai API key not found. Please configure it:" ++ nl ++
   "  1. Get key from: https://z.ai/manage-apikey/apikey-list" ++ nl ++
   "  2. Save to ~/.zai_api_key: echo 'your_key' > ~/.zai_api_key" ++ nl ++
   "  3. Or set: export ZAI_API_KEY=your_key")%string.

(** The handlers of the request; [done] is [Date.now()] when one runs. *)
Definition on_outcome (done : Z) (o : HttpOutcome) : M RunResult :=
  match o with
  | Responded statusCode body =>
      if ((statusCode =? 200) || (statusCode =? 201))%bool then
        match body with
        | Json data content =>
            recordSuccess done ;;
            ret (ok_true (extract data content))
        | NotJson _ err_message =>
            ret (ok_false error None
                   ("Failed to parse Z.ai response: " ++ err_message)%string)
        end
      else if statusCode =? 401 then
        ret (ok_false auth None "Z.ai authentication failed. Check your API key.")
      else if statusCode =? 429 then
        recordFailure done ;;
        ret (ok_false limit None "Z.ai rate limit reached. Please wait before retrying.")
      else if 500 <=? statusCode then
        recordFailure done ;;
        ret (ok_false server_error None
          ("Z.ai server error: HTTP " ++ JS.number_to_string statusCode ++
           ". Service may be temporarily unavailable.")%string)
      else
        recordFailure done ;;
        ret (ok_false error None
          ("Z.ai API error: HTTP " ++ JS.number_to_string statusCode ++
           ". Response: " ++ String.substring 0 500 (body_data body))%string)
  | RequestError message =>
      recordFailure done ;;
      ret (ok_false error None ("Z.ai connection error: " ++ message)%string)
  | RequestTimeout =>
      recordFailure done ;;
      ret (ok_false timeout None "Z.ai API request timed out after 2 minutes.")
  end.

Definition makeRequest (now done : Z) (http : HttpOutcome)
           (prompt : string) (model apiKey : option string) : M RunResult :=
  circuitState <- isCircuitBreakerOpen now ;;
  match circuitState with
  | Open remainingMinutes =>
      ret (ok_false circuit_breaker None (open_message remainingMinutes))
  | Closed =>
      if negb (given apiKey) then ret (ok_false auth None no_key_message)
      else
        request (or_default model) prompt ;;
        on_outcome done http
  end.

Definition is_retryable (t : ErrorType) : bool :=
  match t with timeout | server_error => true | _ => false end.

(** [main]; [apiKey] is the value of [getApiKey()].  The success
    response also carries [model] and [glm_model], left out here. *)
Definition body (now done : Z) (http : HttpOutcome) (apiKey : option string)
           (totalSize : Z) (input : Stdin) : M Exit :=
  if CodexMain.MAX_INPUT_SIZE <? totalSize then ret (mkExit 1 None) else
  match input with
  | Malformed _ => ret (mkExit 1 None)
  | JsonNull => throw TypeError
  | Empty | Object _ =>
      let payload :=
        match input with
        | Object p => p
        | _ => mkPayload JUndefined None None None None false
        end in
      match prompt payload with
      | JStr p =>
          if JS.truthy p then
            result <- makeRequest now done http p (model payload) apiKey ;;
            match result with
            | ok_false t _ m =>
                ret (mkExit 1 (Some (resp_failure "zai" t (Some (is_retryable t)) m)))
            | ok_true out =>
                ret (mkExit 0 (Some (resp_success "zai" out)))
            end
          else ret (mkExit 1 None)
      | _ => ret (mkExit 1 None)
      end
  end.

Definition main (now done : Z) (http : HttpOutcome) (apiKey : option string)
           (totalSize : Z) (input : Stdin) : M Exit :=
  try_catch (body now done http apiKey totalSize input)
            (fun _ => ret (mkExit 1 None)).

End Zai.

(* ================================================================== *)
(** ** Vocabulary of the statements *)
(* ================================================================== *)

(** The state object [loadState] hands back on a given system. *)
Definition loaded (now : Z) (s : Sys) : State :=
  match content s with
  | Some (Encoded st) => if readable s then st else mkState [] now
  | _ => mkState [] now
  end.

(** The system after a [saveState]. *)
Definition saved (st : State) (s : Sys) : Sys :=
  if writable s
  then mkSys (Some (Encoded st)) (readable s) (writable s) (calls s)
  else s.

(** The failures that survive the window filter. *)
Definition recent (now : Z) (st : State) : list Z :=
  filter (in_window now) (failures st).

(** [o] is the oldest timestamp of [l]. *)
Definition is_oldest (o : Z) (l : list Z) : Prop :=
  In o l /\ Forall (fun t => o <= t) l.

(** [m] is [x / 60000] rounded up to a whole number (of minutes). *)
Definition rounded_up_minutes (x m : Z) : Prop :=
  60000 * (m - 1) < x <= 60000 * m.

(** What [isCircuitBreakerOpen] answers on a stored state. *)
Definition circuit_view (now : Z) (st : State) : CircuitState :=
  if CIRCUIT_BREAKER_THRESHOLD <=? Z.of_nat (List.length (recent now st))
  then Open (JS.ceil_div
               (CIRCUIT_BREAKER_COOLDOWN - (now - JS.Math_min (recent now st))) 60000)
  else Closed.

(** A system whose state file holds [st] and can be read. *)
Definition holds (s : Sys) (st : State) : Prop :=
  content s = Some (Encoded st) /\ readable s = true.

(** Breaker operations, for statements over sequences of calls. *)
Inductive Op :=
| OpIsOpen (now : Z)
| OpRecordFailure (now : Z)
| OpRecordSuccess (now : Z).

Definition run_op (o : Op) (s : Sys) : Sys :=
  match o with
  | OpIsOpen now => snd (isCircuitBreakerOpen now s)
  | OpRecordFailure now => snd (recordFailure now s)
  | OpRecordSuccess now => snd (recordSuccess now s)
  end.

Definition run_ops (ops : list Op) (s : Sys) : Sys :=
  fold_left (fun acc o => run_op o acc) ops s.

(** Ordered rule tables: the first rule that fires gives the type, and
    [error] is the fall-through. *)
Definition Rule : Type := ErrorType * (ExecError -> string -> bool).

Fixpoint first_match (rules : list Rule) (err : ExecError) (text : string)
  : ErrorType :=
  match rules with
  | [] => error
  | (t, fires) :: rest =>
      if fires err text then t else first_match rest err text
  end.

Definition timed_out (err : ExecError) : bool :=
  (Codex.is_ETIMEDOUT (code err) || killed err)%bool.

(** The order in which [runCodex]'s callback tests a failure. *)
Definition source_order : list Rule :=
  [ (limit,        fun _ t => Codex.isRateLimitError t);
    (auth,         fun _ t => Codex.isAuthError t);
    (server_error, fun _ t => Codex.isServerError t);
    (timeout,      fun e _ => timed_out e);
    (missing,      fun e _ => Codex.is_ENOENT (code e)) ].

(** The order of the classifier as the specification words it: start
    failure, authentication cues, rate/quota cues, server cues, deadline. *)
Definition spec_order : list Rule :=
  [ (missing,      fun e _ => Codex.is_ENOENT (code e));
    (auth,         fun _ t => Codex.isAuthError t);
    (limit,        fun _ t => Codex.isRateLimitError t);
    (server_error, fun _ t => Codex.isServerError t);
    (timeout,      fun e _ => timed_out e) ].

(** Whether a failure of this type is counted by the breaker. *)
Definition counted (t : ErrorType) : bool :=
  match t with
  | limit | server_error | timeout | error => true
  | auth | missing | circuit_breaker => false
  end.

Definition rate_limit_cues : list string :=
  [ "rate limit"; "quota"; "billing hard limit"; "insufficient_quota";
    "too many requests" ].

(** [s] contains [cue] written in some mixture of upper and lower case. *)
Definition has_cue (s cue : string) : Prop :=
  exists pre v post, s = (pre ++ v ++ post)%string /\ JS.toLowerCase v = cue.

(** The code points of ECMAScript's WhiteSpace and LineTerminator
    productions: TAB, LF, VT, FF, CR, SPACE, NO-BREAK SPACE, the other
    space separators of Unicode (U+1680, U+2000 to U+200A, U+202F,
    U+205F, U+3000), LINE and PARAGRAPH SEPARATOR (U+2028, U+2029) and
    the byte order mark U+FEFF. *)
Definition white_space_code_points : list Z :=
  [ 9; 10; 11; 12; 13; 32; 160; 5760;
    8192; 8193; 8194; 8195; 8196; 8197; 8198; 8199; 8200; 8201; 8202;
    8232; 8233; 8239; 8287; 12288; 65279 ].

Definition byte (n : Z) : ascii := ascii_of_nat (Z.to_nat n).

(** UTF-8 of a code point below 65536. *)
Definition utf8 (cp : Z) : string :=
  if cp <? 128 then String (byte cp) EmptyString
  else if cp <? 2048 then
    String (byte (192 + cp / 64)) (String (byte (128 + cp mod 64)) EmptyString)
  else
    String (byte (224 + cp / 4096))
      (String (byte (128 + (cp / 64) mod 64))
         (String (byte (128 + cp mod 64)) EmptyString)).

(** [w] is the UTF-8 encoding of one white space character or line
    terminator of ECMAScript. *)
Definition ws_char (w : string) : bool :=
  existsb (fun cp => String.eqb w (utf8 cp)) white_space_code_points.

(** [s] is a sequence of white space characters. *)
Definition ws_sequence (s : string) : Prop :=
  exists l : list string,
    Forall (fun w => ws_char w = true) l /\
    s = fold_right String.append EmptyString l.

Definition starts_with_ws (s : string) : Prop :=
  exists w r, ws_char w = true /\ s = (w ++ r)%string.

Definition ends_with_ws (s : string) : Prop :=
  exists p w, ws_char w = true /\ s = (p ++ w)%string.

(** [out] is [text] without its leading and trailing white space, the
    characters in between being the same and in the same order. *)
Definition trimmed_of (text out : string) : Prop :=
  exists l r, text = (l ++ out ++ r)%string /\
              ws_sequence l /\ ws_sequence r /\
              ~ starts_with_ws out /\ ~ ends_with_ws out.

(** The number written by a string of decimal digits, read from the left
    with [acc] the value of the digits already read; [None] when a
    character is not a digit. *)
Fixpoint read_decimal (acc : Z) (s : string) : option Z :=
  match s with
  | EmptyString => Some acc
  | String c r =>
      let n := nat_of_ascii c in
      if (Nat.leb 48 n && Nat.leb n 57)%bool
      then read_decimal (10 * acc + Z.of_nat (n - 48)) r
      else None
  end.

Definition decimal_value (s : string) : option Z :=
  match s with
  | EmptyString => None
  | _ => read_decimal 0 s
  end.

(** *** Concrete systems and inputs used in examples *)

Definition t0 : Z := 1700000000000.

(** Three failures one minute apart, as the specification's scenario. *)
Definition sys_three_failures : Sys :=
  mkSys (Some (Encoded (mkState [t0; t0 + 60000; t0 + 120000] t0))) true true [].

(** Three failures stamped five minutes after the instant [t0]. *)
Definition sys_future_failures : Sys :=
  mkSys (Some (Encoded (mkState [t0 + 300000; t0 + 300000; t0 + 300000] t0)))
        true true [].

(** Three fresh failures in a state file that cannot be written. *)
Definition sys_read_only : Sys :=
  mkSys (Some (Encoded (mkState [t0; t0; t0] t0))) true false [].

Definition sys_no_file : Sys := mkSys None true true [].

Definition sys_garbled : Sys := mkSys (Some (Garbled "{oops")) true true [].

Definition exit_1 : ExecError := mkExecError (ExitStatus 1) false.

Definition child_fails (text : string) : list string -> ChildResult :=
  fun _ => mkChild (Some exit_1) "" text.

Definition child_prints (text : string) : list string -> ChildResult :=
  fun _ => mkChild None text "".

Definition payload_of (p : string) : Payload :=
  mkPayload (JStr p) None None None None false.

(* ================================================================== *)
(** ** gemini-cli: the script's main *)
(* ================================================================== *)

Module GeminiMain.

Definition body (child : list string -> ChildResult) (input : Stdin) : M Exit :=
  match input with
  | Malformed _ => ret (mkExit 1 None)
  | JsonNull => throw TypeError        (* [payload.prompt] on null *)
  | Empty | Object _ =>
      let payload :=
        match input with
        | Object p => p
        | _ => mkPayload JUndefined None None None None false   (* "{}" *)
        end in
      match prompt payload with
      | JStr p =>
          if JS.truthy p then
            result <- Gemini.runGemini child p (model payload) (yolo payload)
                                       (approval_mode payload) ;;
            match result with
            | ok_false t _ m =>
                ret (mkExit 1 (Some (resp_failure "gemini" t None m)))
            | ok_true out =>
                ret (mkExit 0 (Some (resp_success "gemini" out)))
            end
          else ret (mkExit 1 None)
      | _ => ret (mkExit 1 None)
      end
  end.

(** [main().catch((err) => { ...; process.exit(1); })] *)
Definition main (child : list string -> ChildResult) (input : Stdin) : M Exit :=
  try_catch (body child input) (fun _ => ret (mkExit 1 None)).

End GeminiMain.

(* ================================================================== *)
(** ** zai-cli: where the API key comes from *)
(* ================================================================== *)

Module ZaiKey.

(** A file read inside [try { if (fs.existsSync(p)) ... readFileSync(p) }]. *)
Inductive KeyFile :=
| no_key_file                  (* existsSync is false *)
| key_file_throws              (* readFileSync throws *)
| key_file_text (text : string).

(** [~/.claude/settings.json], up to [JSON.parse] and the two fields read
    from it: [settings.env?.ANTHROPIC_BASE_URL] and
    [settings.env?.ANTHROPIC_AUTH_TOKEN]. *)
Inductive SettingsFile :=
| no_settings
| settings_throw               (* unreadable, or not JSON *)
| settings (base_url token : option string).

Record KeyEnv := mkKeyEnv {
  zai_api_key_file : KeyFile;              (* ~/.zai_api_key *)
  ZAI_API_KEY : option string;             (* process.env.ZAI_API_KEY *)
  ANTHROPIC_AUTH_TOKEN : option string;    (* process.env.ANTHROPIC_AUTH_TOKEN *)
  claude_settings : SettingsFile
}.

(** [v || ""] *)
Definition or_empty (v : option string) : string :=
  match v with Some s => s | None => "" end.

Definition from_key_file (f : KeyFile) : option string :=
  match f with
  | key_file_text text =>
      let key := JS.trim text in
      if JS.truthy key then Some key else None
  | _ => None
  end.

Definition from_settings (f : SettingsFile) : option string :=
  match f with
  | settings base_url token =>
      let baseUrl := or_empty base_url in
      if (JS.includes baseUrl "z.ai" && given token)%bool then token else None
  | _ => None
  end.

(** [getApiKey]: the four sources in their order of priority. *)
Definition getApiKey (e : KeyEnv) : option string :=
  match from_key_file (zai_api_key_file e) with
  | Some key => Some key
  | None =>
      if given (ZAI_API_KEY e) then ZAI_API_KEY e
      else
        let envToken := ANTHROPIC_AUTH_TOKEN e in
        if (given envToken && negb (JS.startsWith (or_empty envToken) "sk-ant-"))%bool
        then envToken
        else from_settings (claude_settings e)
  end.

End ZaiKey.

(* ================================================================== *)
(** ** gemini-accounts (first script of unnamed/part_005) *)
(* ================================================================== *)

(** The account list of [~/.claude/gemini_accounts.json] and the commands
    that change it.  [addAccount] and the [strategy] command sort the list
    with [Array.prototype.sort] and are not part of the model; a command
    is modelled up to the write of [saveConfig], which is taken to succeed. *)
Module Accounts.

Record Account := mkAccount {
  name : string;
  api_key : string;
  type : string;
  priority : Z;
  active : bool;
  added : string
}.

(** A number of the configuration file or of the payload, as the
    commands observe it.  An integer is given as it is.  Of a number [x]
    that is not an integer the commands observe three things: how it
    compares with integers, which [below], the integer just below [x],
    decides; that it is no position of an array; and what [x + 1]
    evaluates to, which in floating point is an integer [k] when the
    fraction is lost in rounding ([Some k]) and is again no integer
    otherwise ([None]). *)
Inductive Num :=
| whole (z : Z)
| fraction (below : Z) (plus_one : option Z).

Definition floor (x : Num) : Z :=
  match x with whole z => z | fraction b _ => b end.

(** [x < m] and [x >= m] for an integer [m]. *)
Definition num_lt (x : Num) (m : Z) : bool := floor x <? m.
Definition num_ge (x : Num) (m : Z) : bool := m <=? floor x.

(** [(x + 1) % n] when it is an integer. *)
Definition succ_rem (x : Num) (n : Z) : option Z :=
  match x with
  | whole z => Some (Z.rem (z + 1) n)
  | fraction _ (Some k) => Some (Z.rem k n)
  | fraction _ None => None
  end.

(** [c !== x] for an integer [c]. *)
Definition differs (c : Z) (x : Num) : bool :=
  match x with whole z => negb (c =? z) | fraction _ _ => true end.

Record Config := mkConfig {
  accounts : list Account;
  current_index : Num;
  strategy : string
}.

Definition DEFAULT_CONFIG : Config := mkConfig [] (whole 0) "free_first".

(** [s.substring(0, n)] *)
Fixpoint take (n : nat) (s : string) : string :=
  match n, s with
  | S k, String c r => String c (take k r)
  | _, _ => EmptyString
  end.

(** [s.substring(n)] *)
Fixpoint drop (n : nat) (s : string) : string :=
  match n, s with
  | S k, String _ r => drop k r
  | _, _ => s
  end.

Definition maskApiKey (key : string) : string :=
  if (negb (JS.truthy key) || Nat.ltb (String.length key) 12)%bool then "***"
  else (take 6 key ++ "..." ++ drop (String.length key - 4) key)%string.

(** [accounts[i]] for an integer [i]: [undefined] outside the array. *)
Definition at_index (l : list Account) (i : Z) : option Account :=
  if i <? 0 then None else nth_error l (Z.to_nat i).

(** [accounts[x]] for a number [x]. *)
Definition at_number (l : list Account) (x : Num) : option Account :=
  match x with whole z => at_index l z | fraction _ _ => None end.

(** [accounts.findIndex(a => a.name === name)]; [None] is [-1]. *)
Fixpoint findIndex (nm : string) (l : list Account) : option nat :=
  match l with
  | [] => None
  | a :: r => if String.eqb (name a) nm then Some O
              else option_map S (findIndex nm r)
  end.

(** [accounts.splice(index, 1)] *)
Fixpoint splice1 (index : nat) (l : list Account) : list Account :=
  match index, l with
  | _, [] => []
  | O, _ :: r => r
  | S i, a :: r => a :: splice1 i r
  end.

(** What a command answers. *)
Inductive Reply :=
| removed (total_accounts : nat)
| not_found
| no_accounts
| rotated (index : Z) (account : Account)
| no_active_accounts
| current_set (account_name : string)
| invalid_index
| toggled (now_active : bool)
| missing_name                  (* [!payload.name] *)
| missing_param                 (* neither a name nor an index *)
| threw                         (* a TypeError: a field of [undefined] *)
| out_of_fuel.                  (* the model's loop bound was too small *)

(** A command's answer, the configuration object when it ends, and
    whether [saveConfig] was called on it.  A command that throws after
    [saveConfig] has written the file all the same. *)
Record Step := mkStep { reply : Reply; config_after : Config; saved : bool }.

Definition removeAccount (config : Config) (nm : string) : Step :=
  match findIndex nm (accounts config) with
  | None => mkStep not_found config false
  | Some index =>
      let accounts' := splice1 index (accounts config) in
      let n' := Z.of_nat (List.length accounts') in
      let current' :=
        if num_ge (current_index config) n' then whole (Z.max 0 (n' - 1))
        else current_index config in
      mkStep (removed (List.length accounts'))
             (mkConfig accounts' current' (strategy config)) true
  end.

(** The [do { } while ( )] of [rotateToNext]: [current] and [attempts]
    are the loop's variables, [fuel] bounds the number of rounds.  When
    the new index is no position of the array, [account] is [undefined]
    and reading [account.active] throws: the process ends without a
    write, and the index returned with [threw] is of no consequence. *)
Fixpoint rotate_loop (fuel : nat) (accs : list Account) (startIndex : Num)
         (current : Num) (attempts : Z) : Reply * Num :=
  match fuel with
  | O => (out_of_fuel, current)
  | S f =>
      let n := Z.of_nat (List.length accs) in
      let attempts' := attempts + 1 in
      match succ_rem current n with
      | None => (threw, current)
      | Some c =>
          match at_index accs c with
          | None => (threw, whole c)
          | Some account =>
              if active account then (rotated c account, whole c)
              else if (differs c startIndex && (attempts' <? n))%bool
                   then rotate_loop f accs startIndex (whole c) attempts'
                   else (no_active_accounts, whole c)
          end
      end
  end.

Definition rotateToNext (config : Config) : Step :=
  match accounts config with
  | [] => mkStep no_accounts config false
  | _ =>
      let startIndex := current_index config in
      let '(r, current) :=
        rotate_loop (List.length (accounts config)) (accounts config)
                    startIndex (current_index config) 0 in
      mkStep r (mkConfig (accounts config) current (strategy config))
             (match r with rotated _ _ => true | _ => false end)
  end.

(** [case "set"] of [main] with [payload.name]. *)
Definition set_by_name (config : Config) (nm : string) : Step :=
  match findIndex nm (accounts config) with
  | None => mkStep not_found config false
  | Some idx =>
      mkStep (current_set nm)
             (mkConfig (accounts config) (whole (Z.of_nat idx)) (strategy config)) true
  end.

(** [case "set"] of [main] with a number as [payload.index].  The index
    is saved before the message reads [accounts[payload.index].name],
    which throws when the index is not an integer. *)
Definition set_by_index (config : Config) (index : Num) : Step :=
  if (num_lt index 0 || num_ge index (Z.of_nat (List.length (accounts config))))%bool
  then mkStep invalid_index config false
  else
    match at_number (accounts config) index with
    | Some a =>
        mkStep (current_set (name a))
               (mkConfig (accounts config) index (strategy config)) true
    | None => mkStep threw (mkConfig (accounts config) index (strategy config)) true
    end.

(** [acc.active = !acc.active] on the first account of that name. *)
Fixpoint flip_first (nm : string) (l : list Account) : option (bool * list Account) :=
  match l with
  | [] => None
  | a :: r =>
      if String.eqb (name a) nm
      then Some (negb (active a),
                 mkAccount (name a) (api_key a) (type a) (priority a)
                           (negb (active a)) (added a) :: r)
      else match flip_first nm r with
           | Some (b, r') => Some (b, a :: r')
           | None => None
           end
  end.

(** [case "toggle"] of [main]. *)
Definition toggle (config : Config) (nm : string) : Step :=
  match flip_first nm (accounts config) with
  | None => mkStep not_found config false
  | Some (b, accounts') =>
      mkStep (toggled b)
             (mkConfig accounts' (current_index config) (strategy config)) true
  end.

(** The commands of the model, as [main] dispatches them on
    [payload.action]; [nm] is [payload.name] (empty when absent) and
    [index] is [payload.index] when it is a number. *)
Inductive Action :=
| a_remove (nm : string)
| a_rotate
| a_set (nm : string) (index : option Num)
| a_toggle (nm : string).

Definition run_action (a : Action) (config : Config) : Step :=
  match a with
  | a_remove nm =>
      if JS.truthy nm then removeAccount config nm
      else mkStep missing_name config false
  | a_rotate => rotateToNext config
  | a_set nm index =>
      if JS.truthy nm then set_by_name config nm
      else match index with
           | Some i => set_by_index config i
           | None => mkStep missing_param config false
           end
  | a_toggle nm =>
      if JS.truthy nm then toggle config nm
      else mkStep missing_name config false
  end.

(** The configuration file after a command run on the file [before]:
    each command is a process of its own that loads the file first. *)
Definition file_after (st : Step) (before : Config) : Config :=
  if saved st then config_after st else before.

Definition run_actions (l : list Action) (config : Config) : Config :=
  fold_left (fun c a => file_after (run_action a c) c) l config.

(** [current_index] is an integer that points into the list, or is 0
    on an empty list. *)
Definition valid_index (config : Config) : Prop :=
  exists z, current_index config = whole z /\
            0 <= z <= Z.max 0 (Z.of_nat (List.length (accounts config)) - 1).

(** The command does not hand a number that is not an integer to
    [case "set"] as the index. *)
Definition integer_index (a : Action) : bool :=
  match a with
  | a_set nm (Some (fraction _ _)) => JS.truthy nm
  | _ => true
  end.

Definition inactive (a : Account) : Prop := active a = false.

End Accounts.

(* ================================================================== *)
(** ** Further vocabulary *)
(* ================================================================== *)

(** The failure list a script finds in the state file. *)
Definition stored (s : Sys) : list Z := failures (loaded 0 s).

Definition is_record_success (o : Op) : bool :=
  match o with OpRecordSuccess _ => true | _ => false end.

Definition is_record_failure (o : Op) : bool :=
  match o with OpRecordFailure _ => true | _ => false end.

Definition count_failures (ops : list Op) : nat :=
  List.length (filter is_record_failure ops).

(** [l] starts with [p]. *)
Definition list_prefix (p l : list Z) : Prop := exists tail, l = (p ++ tail)%list.

Definition auth_cues : list string :=
  [ "not logged in"; "authentication"; "unauthorized"; "invalid credentials" ].

Definition server_cues : list string :=
  [ "500"; "502"; "503"; "504"; "internal server error";
    "service unavailable"; "gateway timeout" ].

(** The input of a script is a payload with a non-empty string prompt. *)
Definition valid_prompt (input : Stdin) : bool :=
  match input with
  | Object p => match prompt p with JStr t => JS.truthy t | _ => false end
  | _ => false
  end.

Definition printed_success (e : Exit) : Prop :=
  exists provider out, printed e = Some (resp_success provider out).

(** *** Further concrete inputs *)

Definition sys_two_failures : Sys :=
  mkSys (Some (Encoded (mkState [t0; t0 + 1000] t0))) true true [].

Definition key_env_file_only : ZaiKey.KeyEnv :=
  ZaiKey.mkKeyEnv (ZaiKey.key_file_text (" zk-123 " ++ nl)) None
                  (Some "sk-ant-abc") ZaiKey.no_settings.

Definition acct (nm : string) (is_active : bool) : Accounts.Account :=
  Accounts.mkAccount nm "AIzaSy-0123456789" "free" 1 is_active "2025-01-01".

Definition three_accounts : Accounts.Config :=
  Accounts.mkConfig [acct "a" true; acct "b" false; acct "c" true]
                    (Accounts.whole 0) "free_first".

(** One half, as a number: between 0 and 1, and not an integer after 1
    is added. *)
Definition one_half : Accounts.Num := Accounts.fraction 0 None.

(* ================================================================== *)
(** ** The state file: loading and saving *)
(* ================================================================== *)

Section StateFile.

Variables (now : Z) (s : Sys).

Lemma loadState_eq : loadState now s = (Ok (loaded now s), s).
Proof.
  unfold loadState, try_catch, bind, loaded, Fs.existsSync, Fs.readFileSync.
  destruct (content s) as [[raw | st] | ] eqn:E; cbn; rewrite ?E;
    destruct (readable s); reflexivity.
Qed.

Lemma saveState_eq (st : State) : saveState st s = (Ok tt, saved st s).
Proof.
  unfold saveState, try_catch, saved, Fs.writeFileSync.
  destruct (writable s); reflexivity.
Qed.

Lemma loaded_holds (st : State) : holds s st -> loaded now s = st.
Proof.
  intros [Hc Hr]. unfold loaded. now rewrite Hc, Hr.
Qed.

Lemma recordFailure_eq :
  recordFailure now s =
  (Ok tt, saved (mkState (failures (loaded now s) ++ [now])
                         (lastSuccess (loaded now s))) s).
Proof.
  unfold recordFailure, bind. rewrite loadState_eq. apply saveState_eq.
Qed.

Lemma recordSuccess_eq :
  recordSuccess now s = (Ok tt, saved (mkState [] now) s).
Proof.
  unfold recordSuccess, bind. rewrite loadState_eq. apply saveState_eq.
Qed.

End StateFile.

(* ================================================================== *)
(** ** Arithmetic of the breaker *)
(* ================================================================== *)

Lemma ceil_div_rounds_up (a b : Z) :
  0 < b -> b * (JS.ceil_div a b - 1) < a <= b * JS.ceil_div a b.
Proof.
  intros Hb. unfold JS.ceil_div.
  pose proof (Z.div_mod (- a) b ltac:(lia)) as Hdm.
  pose proof (Z.mod_pos_bound (- a) b Hb) as Hm.
  nia.
Qed.

Lemma fold_min_oldest (r : list Z) :
  forall x, is_oldest (fold_left Z.min r x) (x :: r).
Proof.
  induction r as [| y r IH]; intros x; simpl.
  - split; [now left | constructor; [lia | constructor]].
  - destruct (IH (Z.min x y)) as [Hin Hall].
    inversion Hall as [| ? ? Hhd Htl]; subst.
    split.
    + destruct Hin as [Heq | Hin].
      * rewrite <- Heq.
        destruct (Z.min_spec x y) as [[_ E] | [_ E]]; rewrite E;
          [left | right; left]; reflexivity.
      * right; right; exact Hin.
    + constructor; [lia |]. constructor; [lia | exact Htl].
Qed.

Lemma Math_min_oldest (l : list Z) : l <> [] -> is_oldest (JS.Math_min l) l.
Proof.
  destruct l as [| x r]; [congruence | intros _; apply fold_min_oldest].
Qed.

Lemma is_oldest_unique (l : list Z) (a b : Z) :
  is_oldest a l -> is_oldest b l -> a = b.
Proof.
  intros [Ha Fa] [Hb Fb].
  rewrite Forall_forall in Fa, Fb.
  specialize (Fa _ Hb). specialize (Fb _ Ha). simpl in *. lia.
Qed.

Lemma recent_in_window (now : Z) (st : State) (t : Z) :
  In t (recent now st) -> now - t < CIRCUIT_BREAKER_WINDOW.
Proof.
  unfold recent. rewrite filter_In. unfold in_window.
  intros [_ H]. now apply Z.ltb_lt.
Qed.

Lemma threshold_nonempty (l : list Z) :
  CIRCUIT_BREAKER_THRESHOLD <= Z.of_nat (List.length l) -> l <> [].
Proof.
  unfold CIRCUIT_BREAKER_THRESHOLD. destruct l; simpl; [lia | congruence].
Qed.

(** Whatever survived the five-minute window is younger than the
    ten-minute cooldown: the test [timeSinceOldest < COOLDOWN] cannot fail. *)
Lemma oldest_recent_within_cooldown (now : Z) (st : State) :
  CIRCUIT_BREAKER_THRESHOLD <= Z.of_nat (List.length (recent now st)) ->
  now - JS.Math_min (recent now st) < CIRCUIT_BREAKER_COOLDOWN.
Proof.
  intros Hlen.
  destruct (Math_min_oldest _ (threshold_nonempty _ Hlen)) as [Hin _].
  apply recent_in_window in Hin.
  unfold CIRCUIT_BREAKER_WINDOW, CIRCUIT_BREAKER_COOLDOWN in *. lia.
Qed.

(** [isCircuitBreakerOpen] never throws and never writes the state file:
    its reset branch is unreachable. *)
Lemma isCircuitBreakerOpen_eq (now : Z) (s : Sys) :
  isCircuitBreakerOpen now s = (Ok (circuit_view now (loaded now s)), s).
Proof.
  unfold isCircuitBreakerOpen, bind. rewrite loadState_eq.
  unfold circuit_view. fold (recent now (loaded now s)).
  destruct (Z.leb_spec CIRCUIT_BREAKER_THRESHOLD
              (Z.of_nat (List.length (recent now (loaded now s))))) as [Hlen | Hlen];
    [| reflexivity].
  pose proof (oldest_recent_within_cooldown now _ Hlen) as Hc.
  apply Z.ltb_lt in Hc. rewrite Hc. reflexivity.
Qed.

Lemma saved_writable (st : State) (s : Sys) : writable (saved st s) = writable s.
Proof. unfold saved. destruct (writable s) eqn:E; simpl; auto. Qed.

Lemma saved_calls (st : State) (s : Sys) : calls (saved st s) = calls s.
Proof. unfold saved. destruct (writable s); reflexivity. Qed.

Lemma run_op_writable (o : Op) (s : Sys) : writable (run_op o s) = writable s.
Proof.
  destruct o; simpl.
  - now rewrite isCircuitBreakerOpen_eq.
  - rewrite recordFailure_eq. apply saved_writable.
  - rewrite recordSuccess_eq. apply saved_writable.
Qed.

Lemma run_ops_writable (ops : list Op) :
  forall s, writable (run_ops ops s) = writable s.
Proof.
  unfold run_ops. induction ops as [| o ops IH]; intros s; simpl; [reflexivity |].
  rewrite IH. apply run_op_writable.
Qed.

(* ================================================================== *)
(** ** Circuit breaker: when it is open *)
(* ================================================================== *)

Lemma circuit_view_open_iff (now : Z) (st : State) :
  is_open (circuit_view now st) = true <->
  CIRCUIT_BREAKER_THRESHOLD <= Z.of_nat (List.length (recent now st)).
Proof.
  unfold circuit_view.
  destruct (Z.leb_spec CIRCUIT_BREAKER_THRESHOLD
              (Z.of_nat (List.length (recent now st)))); simpl;
    split; intros; try lia; try congruence; reflexivity.
Qed.

(** C1 (amended).  For every stored breaker state [st] and instant [now],
    [isCircuitBreakerOpen] answers open exactly when at least
    [CIRCUIT_BREAKER_THRESHOLD] (3) timestamps pass the window filter
    [now - ts < 5 min] and the oldest of them is less than the cooldown
    (10 min) before [now]; the minutes it then reports are
    [cooldown - (now - oldest)] rounded up to whole minutes, and they are
    at most the cooldown provided that oldest timestamp is not later than
    [now]. *)
Theorem isCircuitBreakerOpen_open_iff (now : Z) (s : Sys) (st : State) :
  holds s st ->
  exists c,
    isCircuitBreakerOpen now s = (Ok c, s) /\
    (is_open c = true <->
       CIRCUIT_BREAKER_THRESHOLD <= Z.of_nat (List.length (recent now st)) /\
       exists oldest, is_oldest oldest (recent now st) /\
                      now - oldest < CIRCUIT_BREAKER_COOLDOWN) /\
    (forall m, c = Open m ->
       exists oldest,
         is_oldest oldest (recent now st) /\
         rounded_up_minutes (CIRCUIT_BREAKER_COOLDOWN - (now - oldest)) m /\
         (oldest <= now -> 60000 * m <= CIRCUIT_BREAKER_COOLDOWN)).
Proof.
  intros Hst. exists (circuit_view now st).
  rewrite isCircuitBreakerOpen_eq, (loaded_holds now s st Hst).
  split; [reflexivity |]. split.
  - rewrite circuit_view_open_iff. split.
    + intros Hlen. split; [exact Hlen |].
      exists (JS.Math_min (recent now st)). split.
      * apply Math_min_oldest, threshold_nonempty, Hlen.
      * apply oldest_recent_within_cooldown, Hlen.
    + tauto.
  - intros m Hm.
    assert (Hlen : CIRCUIT_BREAKER_THRESHOLD <= Z.of_nat (List.length (recent now st))).
    { apply circuit_view_open_iff. rewrite Hm. reflexivity. }
    unfold circuit_view in Hm.
    apply Z.leb_le in Hlen. rewrite Hlen in Hm. apply Z.leb_le in Hlen.
    apply (f_equal (fun c => match c with Open k => k | Closed => 0 end)) in Hm.
    cbv beta iota in Hm.
    exists (JS.Math_min (recent now st)).
    split; [apply Math_min_oldest, threshold_nonempty, Hlen |].
    pose proof (ceil_div_rounds_up
                  (CIRCUIT_BREAKER_COOLDOWN - (now - JS.Math_min (recent now st)))
                  60000 eq_refl) as Hceil.
    rewrite Hm in Hceil.
    split; [exact Hceil |].
    unfold CIRCUIT_BREAKER_COOLDOWN in *. lia.
Qed.

(** The scenario at minute 2 as an instance of the statement. *)
Lemma isCircuitBreakerOpen_open_iff_witness :
  holds sys_three_failures (mkState [t0; t0 + 60000; t0 + 120000] t0) /\
  exists c,
    isCircuitBreakerOpen (t0 + 120000) sys_three_failures = (Ok c, sys_three_failures) /\
    (is_open c = true <->
       CIRCUIT_BREAKER_THRESHOLD <=
         Z.of_nat (List.length (recent (t0 + 120000)
                                  (mkState [t0; t0 + 60000; t0 + 120000] t0))) /\
       exists oldest,
         is_oldest oldest (recent (t0 + 120000)
                             (mkState [t0; t0 + 60000; t0 + 120000] t0)) /\
         t0 + 120000 - oldest < CIRCUIT_BREAKER_COOLDOWN) /\
    (forall m, c = Open m ->
       exists oldest,
         is_oldest oldest (recent (t0 + 120000)
                             (mkState [t0; t0 + 60000; t0 + 120000] t0)) /\
         rounded_up_minutes (CIRCUIT_BREAKER_COOLDOWN - (t0 + 120000 - oldest)) m /\
         (oldest <= t0 + 120000 -> 60000 * m <= CIRCUIT_BREAKER_COOLDOWN)).
Proof.
  split.
  - split; reflexivity.
  - apply (isCircuitBreakerOpen_open_iff (t0 + 120000) sys_three_failures).
    split; reflexivity.
Defined.

(** The specification's scenario: failures at minutes 0, 1 and 2; at
    minute 2 the breaker is open and announces 8 minutes. *)
Example scenario_open_at_minute_2 :
  isCircuitBreakerOpen (t0 + 120000) sys_three_failures
  = (Ok (Open 8), sys_three_failures).
Proof. reflexivity. Qed.

(** C1, as stated, fails: with timestamps later than the current instant
    (a clock set back between two runs) the breaker is open and reports
    15 minutes, more than the 10-minute cooldown. *)
Lemma remaining_exceeds_cooldown_for_future_failures :
  holds sys_future_failures
        (mkState [t0 + 300000; t0 + 300000; t0 + 300000] t0) /\
  isCircuitBreakerOpen t0 sys_future_failures
  = (Ok (Open 15), sys_future_failures) /\
  ~ (60000 * 15 <= CIRCUIT_BREAKER_COOLDOWN).
Proof.
  split; [split; reflexivity |]. split; [reflexivity |].
  unfold CIRCUIT_BREAKER_COOLDOWN. lia.
Qed.

(* ================================================================== *)
(** ** Circuit breaker: the reset after the cooldown *)
(* ================================================================== *)

(** No state satisfies the guard of the reset branch: three failures
    inside the window, the oldest of them at least a cooldown old. *)
Lemma reset_branch_unreachable (now : Z) (st : State) :
  ~ (CIRCUIT_BREAKER_THRESHOLD <= Z.of_nat (List.length (recent now st)) /\
     CIRCUIT_BREAKER_COOLDOWN <= now - JS.Math_min (recent now st)).
Proof.
  intros [Hlen Hold].
  pose proof (oldest_recent_within_cooldown now st Hlen). lia.
Qed.

(** [isCircuitBreakerOpen] leaves the stored failure list as it found it. *)
Lemma isCircuitBreakerOpen_keeps_file (now : Z) (s : Sys) :
  snd (isCircuitBreakerOpen now s) = s.
Proof. now rewrite isCircuitBreakerOpen_eq. Qed.

(** Failures at minutes 0, 1 and 2, and a check at minute 11: the three
    failures are older than the cooldown, but none of them is inside the
    window any more, so the guard above is not met;
    [isCircuitBreakerOpen] answers closed and the state file still holds
    the three failures. *)
Example isCircuitBreakerOpen_after_cooldown_keeps_failures :
  isCircuitBreakerOpen (t0 + 660000) sys_three_failures
  = (Ok Closed, sys_three_failures) /\
  content (snd (isCircuitBreakerOpen (t0 + 660000) sys_three_failures))
  = Some (Encoded (mkState [t0; t0 + 60000; t0 + 120000] t0)).
Proof. split; reflexivity. Qed.

(** The breaker announced 8 minutes at minute 2 and is closed again at
    minute 5, when the first failure leaves the window. *)
Example breaker_closes_after_window :
  isCircuitBreakerOpen (t0 + 120000) sys_three_failures
  = (Ok (Open 8), sys_three_failures) /\
  isCircuitBreakerOpen (t0 + 300000) sys_three_failures
  = (Ok Closed, sys_three_failures).
Proof. split; reflexivity. Qed.

(* ================================================================== *)
(** ** Circuit breaker: success clears the failures *)
(* ================================================================== *)

Lemma circuit_view_no_failures (now t : Z) : circuit_view now (mkState [] t) = Closed.
Proof. reflexivity. Qed.

(** C8 (amended).  After any sequence of breaker operations, when the
    state file can be written, [recordSuccess] stores an empty failure
    list and the instant of the call as last success, and a following
    [isCircuitBreakerOpen] answers closed.  When the file cannot be
    written, [recordSuccess] returns normally all the same and the
    system, with the stored failures, stays as it was. *)
Theorem recordSuccess_clears (ops : list Op) (s : Sys) (t t' : Z) :
  (writable s = true ->
   content (snd (recordSuccess t (run_ops ops s))) = Some (Encoded (mkState [] t)) /\
   fst (isCircuitBreakerOpen t' (snd (recordSuccess t (run_ops ops s)))) = Ok Closed) /\
  (writable s = false ->
   recordSuccess t (run_ops ops s) = (Ok tt, run_ops ops s)).
Proof.
  split; intros Hw.
  - rewrite recordSuccess_eq. simpl snd.
    assert (Hw' : writable (run_ops ops s) = true) by now rewrite run_ops_writable.
    unfold saved at 1. rewrite Hw'. split; [reflexivity |].
    rewrite isCircuitBreakerOpen_eq. simpl fst. f_equal.
    unfold loaded, saved. rewrite Hw'. simpl.
    destruct (readable (run_ops ops s)); apply circuit_view_no_failures.
  - rewrite recordSuccess_eq. f_equal.
    unfold saved. now rewrite run_ops_writable, Hw.
Qed.

(** Two recorded failures, then a success, on a system without a file. *)
Lemma recordSuccess_clears_witness :
  writable sys_no_file = true /\
  content (snd (recordSuccess (t0 + 2)
                  (run_ops [OpRecordFailure t0; OpRecordFailure (t0 + 1)] sys_no_file)))
  = Some (Encoded (mkState [] (t0 + 2))) /\
  fst (isCircuitBreakerOpen (t0 + 3)
         (snd (recordSuccess (t0 + 2)
                 (run_ops [OpRecordFailure t0; OpRecordFailure (t0 + 1)] sys_no_file))))
  = Ok Closed.
Proof.
  split; [reflexivity |].
  apply (proj1 (recordSuccess_clears [OpRecordFailure t0; OpRecordFailure (t0 + 1)]
                                     sys_no_file (t0 + 2) (t0 + 3))).
  reflexivity.
Defined.

(** C8, as stated, fails: when the state file cannot be written, the
    write error is swallowed, the three stored failures stay, and the
    breaker is still open right after [recordSuccess]. *)
Lemma recordSuccess_on_read_only_file_stays_open :
  holds sys_read_only (mkState [t0; t0; t0] t0) /\
  snd (recordSuccess t0 sys_read_only) = sys_read_only /\
  fst (isCircuitBreakerOpen t0 (snd (recordSuccess t0 sys_read_only)))
  = Ok (Open 10).
Proof. repeat split; reflexivity. Qed.

(* ================================================================== *)
(** ** The state file: failing open *)
(* ================================================================== *)

(** C10.  When the state file is absent, cannot be read, or holds text
    that is not JSON, [loadState] returns a fresh state with no failures
    and the breaker reads as closed; [loadState] and [saveState] return
    normally on every system, whatever the file system does. *)
Theorem loadState_fails_open (now : Z) (s : Sys) :
  (content s = None \/ readable s = false \/
   (exists raw, content s = Some (Garbled raw)) ->
   loadState now s = (Ok (mkState [] now), s) /\
   isCircuitBreakerOpen now s = (Ok Closed, s)) /\
  (exists st, loadState now s = (Ok st, s)) /\
  (forall st, exists s', saveState st s = (Ok tt, s')).
Proof.
  split; [| split].
  - intros H.
    assert (Hl : loaded now s = mkState [] now).
    { unfold loaded. destruct H as [H | [H | [raw H]]]; rewrite H; try reflexivity.
      destruct (content s) as [[? | ?] | ]; reflexivity. }
    rewrite isCircuitBreakerOpen_eq, loadState_eq, Hl. split; reflexivity.
  - eexists. apply loadState_eq.
  - intros st. eexists. apply saveState_eq.
Qed.

(** A state file that holds text which is not JSON. *)
Lemma loadState_fails_open_witness :
  (exists raw, content sys_garbled = Some (Garbled raw)) /\
  loadState t0 sys_garbled = (Ok (mkState [] t0), sys_garbled) /\
  isCircuitBreakerOpen t0 sys_garbled = (Ok Closed, sys_garbled).
Proof.
  split; [exists "{oops"; reflexivity |].
  apply (proj1 (loadState_fails_open t0 sys_garbled)).
  right; right. exists "{oops". reflexivity.
Defined.

(* ================================================================== *)
(** ** Strings: case folding, substrings and trimming *)
(* ================================================================== *)

Module StringFacts.
Import JS.

Lemma toLowerCase_app (a b : string) :
  toLowerCase (a ++ b) = (toLowerCase a ++ toLowerCase b)%string.
Proof.
  induction a as [| c a IH]; simpl; [reflexivity | now rewrite IH].
Qed.

Lemma startsWith_app (p r : string) : startsWith (p ++ r) p = true.
Proof.
  induction p as [| c p IH]; simpl; [reflexivity |].
  now rewrite Ascii.eqb_refl, IH.
Qed.

Lemma includes_startsWith (s p : string) :
  startsWith s p = true -> includes s p = true.
Proof.
  intros H. destruct s; cbn [includes]; rewrite H; reflexivity.
Qed.

Lemma includes_app (a p b : string) : includes (a ++ p ++ b) p = true.
Proof.
  induction a as [| c a IH].
  - change (includes (p ++ b) p = true).
    apply includes_startsWith. exact (startsWith_app p b).
  - change (includes (String c (a ++ p ++ b)) p = true).
    cbn [includes]. rewrite IH. apply orb_true_r.
Qed.

Lemma has_cue_includes (s cue : string) :
  has_cue s cue -> includes (toLowerCase s) cue = true.
Proof.
  intros (pre & v & post & -> & <-).
  rewrite !toLowerCase_app. apply includes_app.
Qed.

Lemma app_assoc (a b c : string) : ((a ++ b) ++ c = a ++ b ++ c)%string.
Proof. induction a as [| x a IH]; simpl; [reflexivity | now rewrite IH]. Qed.

Lemma length_app (a b : string) :
  String.length (a ++ b) = (String.length a + String.length b)%nat.
Proof. induction a as [| x a IH]; simpl; [reflexivity | now rewrite IH]. Qed.

Lemma ws2_lead (a b : ascii) : ws2 a b = true -> nat_of_ascii a = 194%nat.
Proof.
  unfold ws2. intros H. apply andb_prop in H as [H _].
  now apply Nat.eqb_eq in H.
Qed.

Lemma ws3_lead (a b c : ascii) :
  ws3 a b c = true -> (225 <= nat_of_ascii a)%nat.
Proof.
  unfold ws3. cbv zeta. intros H.
  repeat (apply orb_prop in H as [H | H]);
    repeat (apply andb_prop in H as [H _]);
    apply Nat.eqb_eq in H; lia.
Qed.

Lemma ws1_small (a : ascii) : ws1 a = true -> (nat_of_ascii a <= 32)%nat.
Proof.
  unfold ws1. cbv zeta. intros H. apply orb_prop in H as [H | H].
  - apply andb_prop in H as [_ H]. apply Nat.leb_le in H. lia.
  - apply Nat.eqb_eq in H. lia.
Qed.

Lemma ws2_not_ws1 (a b : ascii) : ws2 a b = true -> ws1 a = false.
Proof.
  intros H. apply ws2_lead in H. destruct (ws1 a) eqn:E; [| reflexivity].
  apply ws1_small in E. lia.
Qed.

Lemma ws3_not_ws1 (a b c : ascii) : ws3 a b c = true -> ws1 a = false.
Proof.
  intros H. apply ws3_lead in H. destruct (ws1 a) eqn:E; [| reflexivity].
  apply ws1_small in E. lia.
Qed.

Lemma ws3_not_ws2 (a b c d : ascii) : ws3 a b c = true -> ws2 a d = false.
Proof.
  intros H. apply ws3_lead in H. destruct (ws2 a d) eqn:E; [| reflexivity].
  apply ws2_lead in E. lia.
Qed.

Lemma ascii_of (a : ascii) (n : nat) : nat_of_ascii a = n -> a = ascii_of_nat n.
Proof. intros <-. symmetry. apply ascii_nat_embedding. Qed.

(** The byte tests of [trim] recognise exactly the UTF-8 encodings of
    the white space code points. *)
Lemma ws_char_unit (w : string) : ws_char w = true <-> ws_unit w = true.
Proof.
  split.
  - unfold ws_char. intros H. apply existsb_exists in H as (cp & Hin & H).
    apply String.eqb_eq in H. subst w.
    cbn [white_space_code_points In] in Hin.
    repeat (destruct Hin as [<- | Hin]; [reflexivity |]). contradiction.
  - destruct w as [| a [| b [| c [| d w]]]]; cbn [ws_unit]; try discriminate.
    + unfold ws1. cbv zeta. intros H.
      assert (Hn : In (nat_of_ascii a) [9; 10; 11; 12; 13; 32]%nat).
      { apply orb_prop in H as [H | H].
        - apply andb_prop in H as [H1 H2].
          apply Nat.leb_le in H1. apply Nat.leb_le in H2. cbn [In]. lia.
        - apply Nat.eqb_eq in H. cbn [In]. lia. }
      cbn [In] in Hn.
      repeat (destruct Hn as [Hn | Hn];
              [symmetry in Hn; apply ascii_of in Hn; subst a; reflexivity |]).
      contradiction.
    + unfold ws2. intros H. apply andb_prop in H as [Ha Hb].
      apply Nat.eqb_eq, ascii_of in Ha. apply Nat.eqb_eq, ascii_of in Hb.
      subst a b. reflexivity.
    + unfold ws3. cbv zeta. intros H.
      repeat (apply orb_prop in H as [H | H]);
        apply andb_prop in H as [H Hc]; apply andb_prop in H as [Ha Hb];
        apply Nat.eqb_eq, ascii_of in Ha; apply Nat.eqb_eq, ascii_of in Hb;
        subst a b.
      * apply Nat.eqb_eq, ascii_of in Hc. subst c. reflexivity.
      * assert (Hn : In (nat_of_ascii c)
                        [128; 129; 130; 131; 132; 133; 134; 135; 136; 137; 138;
                         168; 169; 175]%nat).
        { repeat (apply orb_prop in Hc as [Hc | Hc]).
          - apply andb_prop in Hc as [H1 H2].
            apply Nat.leb_le in H1. apply Nat.leb_le in H2. cbn [In]. lia.
          - apply Nat.eqb_eq in Hc. cbn [In]. lia.
          - apply Nat.eqb_eq in Hc. cbn [In]. lia.
          - apply Nat.eqb_eq in Hc. cbn [In]. lia. }
        cbn [In] in Hn.
        repeat (destruct Hn as [Hn | Hn];
                [symmetry in Hn; apply ascii_of in Hn; subst c; reflexivity |]).
        contradiction.
      * apply Nat.eqb_eq, ascii_of in Hc. subst c. reflexivity.
      * apply Nat.eqb_eq, ascii_of in Hc. subst c. reflexivity.
      * apply Nat.eqb_eq, ascii_of in Hc. subst c. reflexivity.
Qed.

(** One white space character at the head of a string is passed over. *)
Lemma ws_char_head (w r : string) :
  ws_char w = true ->
  all_ws (w ++ r) = all_ws r /\ trimStart (w ++ r) = trimStart r /\
  (0 < String.length w)%nat.
Proof.
  intros H. apply ws_char_unit in H. revert H.
  destruct w as [| a [| b [| c [| d w]]]]; cbn [ws_unit]; try discriminate;
    intros H; cbn [append all_ws trimStart String.length].
  - rewrite H. repeat split; lia.
  - rewrite (ws2_not_ws1 _ _ H), H. repeat split; lia.
  - rewrite (ws3_not_ws1 _ _ _ H), (ws3_not_ws2 _ _ _ b H), H.
    repeat split; lia.
Qed.

(** A string starts with a white space character, or [trimStart] leaves
    it alone. *)
Lemma trimStart_cases (s : string) :
  (exists w r, ws_char w = true /\ s = (w ++ r)%string) \/
  (trimStart s = s /\ (s <> EmptyString -> all_ws s = false)).
Proof.
  destruct s as [| a r1]; [right; split; [reflexivity | congruence] |].
  destruct (ws1 a) eqn:H1.
  { left. exists (String a EmptyString), r1.
    split; [now apply ws_char_unit | reflexivity]. }
  destruct r1 as [| b r2].
  { right. cbn [trimStart all_ws]. rewrite H1. split; reflexivity. }
  destruct (ws2 a b) eqn:H2.
  { left. exists (String a (String b EmptyString)), r2.
    split; [now apply ws_char_unit | reflexivity]. }
  destruct r2 as [| c r3].
  { right. cbn [trimStart all_ws]. rewrite H1, H2. split; reflexivity. }
  destruct (ws3 a b c) eqn:H3.
  { left. exists (String a (String b (String c EmptyString))), r3.
    split; [now apply ws_char_unit | reflexivity]. }
  right. cbn [trimStart all_ws]. rewrite H1, H2, H3. split; reflexivity.
Qed.

Lemma all_ws_starts (s : string) :
  all_ws s = true -> s = EmptyString \/ starts_with_ws s.
Proof.
  intros H. destruct (trimStart_cases s) as [(w & r & Hw & E) | [_ Hn]].
  - right. exists w, r. split; assumption.
  - destruct s as [| a s]; [left; reflexivity |].
    rewrite Hn in H; [discriminate | discriminate].
Qed.

Lemma starts_with_ws_not_fixed (s : string) :
  starts_with_ws s -> trimStart s = s -> False.
Proof.
  intros (w & r & Hw & ->) Hfix.
  destruct (ws_char_head w r Hw) as (_ & Ht & Hlen).
  assert (Hle : forall t, (String.length (trimStart t) <= String.length t)%nat).
  { clear. intros t. remember (String.length t) as n eqn:Hn.
    revert t Hn. induction n as [n IH] using lt_wf_ind. intros t Hn.
    destruct (trimStart_cases t) as [(w & r & Hw & ->) | [Hfix _]].
    - destruct (ws_char_head w r Hw) as (_ & Ht & Hlen). rewrite Ht.
      rewrite length_app in Hn.
      specialize (IH (String.length r) ltac:(lia) r eq_refl). lia.
    - rewrite Hfix. lia. }
  rewrite Ht in Hfix. specialize (Hle r). rewrite Hfix, length_app in Hle. lia.
Qed.

Lemma ws_sequence_nil : ws_sequence EmptyString.
Proof. exists []. split; [constructor | reflexivity]. Qed.

Lemma ws_sequence_cons (w r : string) :
  ws_char w = true -> ws_sequence r -> ws_sequence (w ++ r).
Proof.
  intros Hw (l & Hl & ->). exists (w :: l). split; [now constructor | reflexivity].
Qed.

Lemma ws_sequence_app (a b : string) :
  ws_sequence a -> ws_sequence b -> ws_sequence (a ++ b).
Proof.
  intros (l & Hl & ->) Hb. induction Hl as [| w l Hw _ IH]; [exact Hb |].
  cbn [fold_right]. rewrite app_assoc. now apply ws_sequence_cons.
Qed.

(** [all_ws] decides [ws_sequence]. *)
Lemma all_ws_spec (s : string) : all_ws s = true <-> ws_sequence s.
Proof.
  split.
  - remember (String.length s) as n eqn:Hn. revert s Hn.
    induction n as [n IH] using lt_wf_ind. intros s Hn H.
    destruct (all_ws_starts s H) as [-> | (w & r & Hw & ->)];
      [apply ws_sequence_nil |].
    destruct (ws_char_head w r Hw) as (Ha & _ & Hlen).
    rewrite Ha in H. rewrite length_app in Hn.
    apply ws_sequence_cons; [exact Hw |].
    apply (IH (String.length r)); [lia | reflexivity | exact H].
  - intros (l & Hl & ->). induction Hl as [| w l Hw _ IH]; [reflexivity |].
    cbn [fold_right]. destruct (ws_char_head w (fold_right append "" l) Hw) as (Ha & _).
    now rewrite Ha.
Qed.

Lemma trimStart_split (s : string) :
  exists l, s = (l ++ trimStart s)%string /\ ws_sequence l.
Proof.
  remember (String.length s) as n eqn:Hn. revert s Hn.
  induction n as [n IH] using lt_wf_ind. intros s Hn.
  destruct (trimStart_cases s) as [(w & r & Hw & ->) | [Hfix _]].
  - destruct (ws_char_head w r Hw) as (_ & Ht & Hlen).
    rewrite length_app in Hn.
    destruct (IH (String.length r) ltac:(lia) r eq_refl) as (l & Hr & Hl).
    exists (w ++ l)%string. split.
    + rewrite Ht, app_assoc, <- Hr. reflexivity.
    + now apply ws_sequence_cons.
  - exists EmptyString. split; [now rewrite Hfix | apply ws_sequence_nil].
Qed.

Lemma trimStart_idem (s : string) : trimStart (trimStart s) = trimStart s.
Proof.
  remember (String.length s) as n eqn:Hn. revert s Hn.
  induction n as [n IH] using lt_wf_ind. intros s Hn.
  destruct (trimStart_cases s) as [(w & r & Hw & ->) | [Hfix _]].
  - destruct (ws_char_head w r Hw) as (_ & Ht & Hlen).
    rewrite length_app in Hn. rewrite Ht.
    apply (IH (String.length r)); [lia | reflexivity].
  - now rewrite !Hfix.
Qed.

Lemma trimStart_head (s : string) : ~ starts_with_ws (trimStart s).
Proof.
  intros H. exact (starts_with_ws_not_fixed _ H (trimStart_idem s)).
Qed.

Lemma trimEnd_split (s : string) :
  exists r, s = (trimEnd s ++ r)%string /\ ws_sequence r.
Proof.
  induction s as [| c s (r & Hs & Hr)].
  - exists EmptyString. split; [reflexivity | apply ws_sequence_nil].
  - cbn [trimEnd]. destruct (all_ws (String c s)) eqn:Hall.
    + exists (String c s). split; [reflexivity | now apply all_ws_spec].
    + exists r. simpl. split; [now rewrite <- Hs | exact Hr].
Qed.

(** [trimEnd] cuts at the first place from which only white space follows. *)
Lemma trimEnd_bound (p x : string) :
  ws_sequence x -> (String.length (trimEnd (p ++ x)) <= String.length p)%nat.
Proof.
  intros Hx. induction p as [| c p IH].
  - apply all_ws_spec in Hx. cbn [append]. destruct x as [| a x]; [simpl; lia |].
    cbn [trimEnd]. rewrite Hx. simpl. lia.
  - cbn [append trimEnd]. destruct (all_ws (String c (p ++ x))); simpl; lia.
Qed.

Lemma trimEnd_last (s : string) : ~ ends_with_ws (trimEnd s).
Proof.
  intros (p & w & Hw & E).
  destruct (trimEnd_split s) as (r & Hs & Hr).
  assert (Hx : ws_sequence (w ++ r)) by now apply ws_sequence_cons.
  pose proof (trimEnd_bound p (w ++ r) Hx) as Hb.
  rewrite <- app_assoc, <- E, <- Hs, E, length_app in Hb.
  destruct (ws_char_head w EmptyString Hw) as (_ & _ & Hlen). lia.
Qed.

Lemma trimEnd_head (s : string) :
  ~ starts_with_ws s -> ~ starts_with_ws (trimEnd s).
Proof.
  intros Hs (w & r & Hw & E). apply Hs.
  destruct (trimEnd_split s) as (x & Hx & _).
  exists w, (r ++ x)%string. split; [exact Hw |].
  rewrite <- app_assoc, <- E. exact Hx.
Qed.

(** [trim] removes white space at both ends and nothing else. *)
Lemma trim_trimmed_of (s : string) : trimmed_of s (trim s).
Proof.
  destruct (trimStart_split s) as (l & Hs & Hl).
  destruct (trimEnd_split (trimStart s)) as (r & Ht & Hr).
  exists l, r. split; [| split; [exact Hl | split; [exact Hr | split]]].
  - unfold trim. now rewrite <- Ht.
  - apply trimEnd_head, trimStart_head.
  - apply trimEnd_last.
Qed.

Lemma app_nil_r (a : string) : (a ++ "")%string = a.
Proof. induction a as [| x a IH]; simpl; [reflexivity | now rewrite IH]. Qed.

(** Two ways of cutting one string: one cut is before the other. *)
Lemma app_eq_app (x r w s : string) :
  (x ++ r)%string = (w ++ s)%string ->
  (exists d, x = (w ++ d)%string /\ s = (d ++ r)%string) \/
  (exists c d, w = (x ++ String c d)%string /\ r = (String c d ++ s)%string).
Proof.
  revert w. induction x as [| a x IH]; intros w E.
  - destruct w as [| b w].
    + left. exists EmptyString. split; [reflexivity | symmetry; exact E].
    + right. exists b, w. split; [reflexivity | exact E].
  - destruct w as [| b w].
    + left. exists (String a x). split; [reflexivity | symmetry; exact E].
    + cbn [append] in E. injection E as <- E.
      destruct (IH w E) as [(d & -> & ->) | (c & d & -> & ->)].
      * left. exists d. split; reflexivity.
      * right. exists c, d. split; reflexivity.
Qed.

Lemma ws3_tail (a b c : ascii) :
  ws3 a b c = true ->
  (128 <= nat_of_ascii b <= 191)%nat /\ (128 <= nat_of_ascii c <= 191)%nat.
Proof.
  unfold ws3. cbv zeta. intros H.
  repeat (apply orb_prop in H as [H | H]);
    apply andb_prop in H as [H Hc]; apply andb_prop in H as [_ Hb];
    apply Nat.eqb_eq in Hb.
  - apply Nat.eqb_eq in Hc. lia.
  - repeat (apply orb_prop in Hc as [Hc | Hc]).
    + apply andb_prop in Hc as [H1 H2].
      apply Nat.leb_le in H1. apply Nat.leb_le in H2. lia.
    + apply Nat.eqb_eq in Hc. lia.
    + apply Nat.eqb_eq in Hc. lia.
    + apply Nat.eqb_eq in Hc. lia.
  - apply Nat.eqb_eq in Hc. lia.
  - apply Nat.eqb_eq in Hc. lia.
  - apply Nat.eqb_eq in Hc. lia.
Qed.

(** A white space character starts with a byte that starts a character
    in UTF-8. *)
Lemma ws_char_lead (w : string) :
  ws_char w = true ->
  exists a t, w = String a t /\
              ((nat_of_ascii a <= 32)%nat \/ (194 <= nat_of_ascii a)%nat).
Proof.
  intros H. apply ws_char_unit in H.
  destruct w as [| a [| b [| c [| d w]]]]; cbn [ws_unit] in H; try discriminate;
    eexists _, _; (split; [reflexivity |]).
  - left. now apply ws1_small.
  - right. apply ws2_lead in H. lia.
  - right. apply ws3_lead in H. lia.
Qed.

(** Its other bytes are continuation bytes. *)
Lemma ws_char_inner (w x : string) (c : ascii) (d : string) :
  ws_char w = true -> w = (x ++ String c d)%string -> x <> EmptyString ->
  (128 <= nat_of_ascii c <= 191)%nat.
Proof.
  intros H E Hx. apply ws_char_unit in H.
  destruct x as [| x0 [| x1 [| x2 x]]]; [congruence | | |]; subst w;
    cbn [append ws_unit] in H.
  - destruct d as [| d0 [| d1 d]]; try discriminate.
    + apply andb_prop in H as [_ H]. apply Nat.eqb_eq in H. lia.
    + now apply ws3_tail in H.
  - destruct d as [| d0 d]; [| discriminate]. now apply ws3_tail in H.
  - destruct x; discriminate.
Qed.

Lemma ws_sequence_lead (r : string) (c : ascii) (d : string) :
  ws_sequence r -> r = String c d ->
  (nat_of_ascii c <= 32)%nat \/ (194 <= nat_of_ascii c)%nat.
Proof.
  intros (l & Hl & ->). induction Hl as [| w l Hw _ IH]; [discriminate |].
  cbn [fold_right]. intros E.
  destruct (ws_char_lead w Hw) as (a & t & -> & Ha).
  cbn [append] in E. injection E as <- _. exact Ha.
Qed.

(** When white space follows [x] and the whole is white space, [x] ends
    with a white space character. *)
Lemma ws_sequence_cut (l : list string) :
  Forall (fun w => ws_char w = true) l ->
  forall x r, (x ++ r)%string = fold_right append EmptyString l ->
              ws_sequence r -> x <> EmptyString -> ends_with_ws x.
Proof.
  induction 1 as [| w l Hw Hl IH]; intros x r E Hr Hx.
  - cbn [fold_right] in E. destruct x; [congruence | discriminate].
  - cbn [fold_right] in E.
    destruct (app_eq_app _ _ _ _ E) as [(d & -> & Ed) | (c & d & Ew & Er)].
    + destruct d as [| d0 d].
      * exists EmptyString, w. split; [exact Hw |]. now rewrite app_nil_r.
      * destruct (IH (String d0 d) r (eq_sym Ed) Hr ltac:(discriminate))
          as (p & w' & Hw' & Ep).
        exists (w ++ p)%string, w'. split; [exact Hw' |].
        now rewrite app_assoc, <- Ep.
    + pose proof (ws_char_inner w x c d Hw Ew Hx) as Hin.
      cbn [append] in Er.
      destruct (ws_sequence_lead r c _ Hr Er); lia.
Qed.

Lemma trimStart_ws_sequence (l t : string) :
  ws_sequence l -> trimStart (l ++ t) = trimStart t.
Proof.
  intros (ws & Hws & ->). induction Hws as [| w ws Hw _ IH]; [reflexivity |].
  cbn [fold_right]. rewrite app_assoc.
  destruct (ws_char_head w (fold_right append "" ws ++ t) Hw) as (_ & -> & _).
  exact IH.
Qed.

Lemma trimStart_kept (out r : string) :
  ~ starts_with_ws out -> out <> EmptyString -> ws_sequence r ->
  trimStart (out ++ r) = (out ++ r)%string.
Proof.
  intros Hs Hne Hr.
  destruct (trimStart_cases (out ++ r)) as [(w & s & Hw & E) | [Hfix _]];
    [| exact Hfix].
  exfalso.
  destruct (app_eq_app _ _ _ _ E) as [(d & -> & _) | (c & d & Ew & Er)].
  - apply Hs. now exists w, d.
  - pose proof (ws_char_inner w out c d Hw Ew Hne) as Hin.
    cbn [append] in Er.
    destruct (ws_sequence_lead r c _ Hr Er); lia.
Qed.

Lemma trimEnd_kept (out r : string) :
  ~ ends_with_ws out -> ws_sequence r -> trimEnd (out ++ r) = out.
Proof.
  intros He Hr. induction out as [| c out IH].
  - cbn [append]. destruct r as [| a r]; [reflexivity |].
    cbn [trimEnd]. apply all_ws_spec in Hr. now rewrite Hr.
  - cbn [append trimEnd].
    destruct (all_ws (String c (out ++ r))) eqn:Hall.
    + exfalso. apply He. apply all_ws_spec in Hall.
      destruct Hall as (l & Hl & E).
      apply (ws_sequence_cut l Hl (String c out) r E Hr). discriminate.
    + f_equal. apply IH. intros (p & w & Hw & ->).
      apply He. exists (String c p), w. split; [exact Hw | reflexivity].
Qed.

(** [trimmed_of] determines the output: it is what [trim] returns. *)
Lemma trimmed_of_trim (text out : string) :
  trimmed_of text out <-> out = trim text.
Proof.
  split; [| intros ->; apply trim_trimmed_of].
  intros (l & r & -> & Hl & Hr & Hs & He). unfold trim.
  rewrite (trimStart_ws_sequence l _ Hl).
  destruct out as [| c out].
  - cbn [append]. rewrite <- (app_nil_r r), (trimStart_ws_sequence r _ Hr).
    reflexivity.
  - rewrite (trimStart_kept _ r Hs ltac:(discriminate) Hr).
    symmetry. now apply trimEnd_kept.
Qed.

End StringFacts.

Example trim_keeps_inner_spaces :
  JS.trim (" " ++ nl ++ "a  b" ++ nl ++ "c " ++ nl) = ("a  b" ++ nl ++ "c")%string.
Proof. reflexivity. Qed.

(** White space outside ASCII: a byte order mark and a no-break space in
    front, a line separator and a no-break space behind; the no-break
    space between the words stays. *)
Example trim_removes_unicode_white_space :
  JS.trim (utf8 65279 ++ utf8 160 ++ "hi" ++ utf8 160 ++ "there"
           ++ utf8 8232 ++ utf8 160)
  = ("hi" ++ utf8 160 ++ "there")%string.
Proof. reflexivity. Qed.

Example trim_of_a_no_break_space_is_empty : JS.trim (utf8 160) = EmptyString.
Proof. reflexivity. Qed.

Example includes_is_case_blind_after_lowering :
  Codex.isRateLimitError "HTTP 429: Too Many Requests" = true /\
  Codex.isRateLimitError "Insufficient_Quota" = true /\
  Codex.isRateLimitError "connection reset" = false.
Proof. repeat split; reflexivity. Qed.

(* ================================================================== *)
(** ** runCodex: classification of a failed invocation *)
(* ================================================================== *)

(** The callback on a failed invocation: the type is the first match in
    the source's order, the breaker is charged exactly for the counted
    types, and [retryable] is always [false]. *)
Lemma callback_failure (done : Z) (r : ChildResult) (err : ExecError) (s : Sys) :
  child_error r = Some err ->
  exists m,
    Codex.callback done r s
    = (Ok (ok_false (first_match source_order err (stderr r)) (Some false) m),
       if counted (first_match source_order err (stderr r))
       then snd (recordFailure done s) else s).
Proof.
  intros Herr. unfold Codex.callback. rewrite Herr.
  unfold source_order, first_match, timed_out, bind.
  destruct (Codex.isRateLimitError (stderr r));
    [rewrite recordFailure_eq; eexists; reflexivity |].
  destruct (Codex.isAuthError (stderr r)); [eexists; reflexivity |].
  destruct (Codex.isServerError (stderr r));
    [rewrite recordFailure_eq; eexists; reflexivity |].
  destruct (Codex.is_ETIMEDOUT (code err) || killed err)%bool;
    [rewrite recordFailure_eq; eexists; reflexivity |].
  destruct (Codex.is_ENOENT (code err)); [eexists; reflexivity |].
  rewrite recordFailure_eq; eexists; reflexivity.
Qed.

Lemma callback_success (done : Z) (r : ChildResult) (s : Sys) :
  child_error r = None ->
  Codex.callback done r s
  = (Ok (ok_true (JS.trim (stdout r))), snd (recordSuccess done s)).
Proof.
  intros Hok. unfold Codex.callback, bind. rewrite Hok.
  now rewrite recordSuccess_eq.
Qed.

(** C3 (amended).  The callback of [runCodex] classifies a failed
    invocation by ordered first match in the order of the source:
    rate/quota cue, authentication cue, server cue, timeout or kill,
    executable not found, and [error] otherwise.  Hence a text with a
    rate/quota cue is [limit] whatever else it contains, [auth] needs an
    authentication cue and no rate/quota cue, and [missing] needs a start
    failure with no cue in the text and no timeout. *)
Theorem callback_first_match (done : Z) (r : ChildResult) (err : ExecError) (s : Sys) :
  child_error r = Some err ->
  (exists rt m s',
     Codex.callback done r s
     = (Ok (ok_false (first_match source_order err (stderr r)) rt m), s')) /\
  (Codex.isRateLimitError (stderr r) = true ->
     first_match source_order err (stderr r) = limit) /\
  (first_match source_order err (stderr r) = auth <->
     Codex.isRateLimitError (stderr r) = false /\
     Codex.isAuthError (stderr r) = true) /\
  (first_match source_order err (stderr r) = missing <->
     Codex.isRateLimitError (stderr r) = false /\
     Codex.isAuthError (stderr r) = false /\
     Codex.isServerError (stderr r) = false /\
     timed_out err = false /\
     Codex.is_ENOENT (code err) = true).
Proof.
  intros Herr. split.
  - destruct (callback_failure done r err s Herr) as [m Hm].
    eexists _, m, _. exact Hm.
  - unfold source_order, first_match.
    destruct (Codex.isRateLimitError (stderr r)),
             (Codex.isAuthError (stderr r)),
             (Codex.isServerError (stderr r)),
             (timed_out err),
             (Codex.is_ENOENT (code err));
      repeat split; intros; try reflexivity; try discriminate;
      repeat match goal with H : _ /\ _ |- _ => destruct H end;
      try discriminate.
Qed.

(** A diagnostic with an authentication cue only. *)
Lemma callback_first_match_witness :
  child_error (child_fails "Error: please run codex login" []) = Some exit_1 /\
  exists rt m s',
    Codex.callback t0 (child_fails "Error: please run codex login" []) sys_no_file
    = (Ok (ok_false
             (first_match source_order exit_1
                (stderr (child_fails "Error: please run codex login" [])))
             rt m), s').
Proof.
  split; [reflexivity |].
  apply (proj1 (callback_first_match t0
                  (child_fails "Error: please run codex login" [])
                  exit_1 sys_no_file eq_refl)).
Defined.

(** C3, as stated, fails: a diagnostic with an authentication cue and a
    quota cue is classified [auth] by the order the specification gives,
    and [limit] by the callback. *)
Lemma auth_cue_with_quota_cue_is_limit :
  Codex.isAuthError "Unauthorized: quota exceeded" = true /\
  first_match spec_order exit_1 "Unauthorized: quota exceeded" = auth /\
  fst (Codex.callback t0 (child_fails "Unauthorized: quota exceeded" []) sys_no_file)
  = Ok (ok_false limit (Some false)
          "Codex/OpenAI rate limit reached. DO NOT RETRY automatically. Wait before manual retry.").
Proof. repeat split; reflexivity. Qed.

(** C4.  A failed invocation whose diagnostic contains one of the rate
    limit cues, written in any mixture of upper and lower case, is
    classified [limit], the type of the kind RateLimit. *)
Theorem rate_limit_cue_gives_limit
        (done : Z) (r : ChildResult) (err : ExecError) (cue : string) (s : Sys) :
  child_error r = Some err ->
  In cue rate_limit_cues ->
  has_cue (stderr r) cue ->
  Codex.isRateLimitError (stderr r) = true /\
  kind_of limit = RateLimit /\
  exists m s', Codex.callback done r s = (Ok (ok_false limit (Some false) m), s').
Proof.
  intros Herr Hin Hcue.
  assert (Hrl : Codex.isRateLimitError (stderr r) = true).
  { apply StringFacts.has_cue_includes in Hcue.
    unfold Codex.isRateLimitError. cbv zeta.
    unfold rate_limit_cues in Hin. simpl in Hin.
    destruct Hin as [<- | [<- | [<- | [<- | [<- | []]]]]]; rewrite Hcue;
      rewrite ?orb_true_r; reflexivity. }
  split; [exact Hrl |]. split; [reflexivity |].
  destruct (callback_failure done r err s Herr) as [m Hm].
  unfold source_order, first_match in Hm. rewrite Hrl in Hm.
  eexists m, _. exact Hm.
Qed.

(** A cue in mixed case, next to an authentication cue. *)
Lemma rate_limit_cue_gives_limit_witness :
  child_error (child_fails "ERROR: Rate Limit hit, login again" []) = Some exit_1 /\
  In "rate limit" rate_limit_cues /\
  has_cue (stderr (child_fails "ERROR: Rate Limit hit, login again" [])) "rate limit" /\
  exists m s',
    Codex.callback t0 (child_fails "ERROR: Rate Limit hit, login again" []) sys_no_file
    = (Ok (ok_false limit (Some false) m), s').
Proof.
  assert (Hcue : has_cue (stderr (child_fails "ERROR: Rate Limit hit, login again" []))
                         "rate limit").
  { exists "ERROR: ", "Rate Limit", " hit, login again". split; reflexivity. }
  split; [reflexivity |]. split; [simpl; tauto |]. split; [exact Hcue |].
  apply (rate_limit_cue_gives_limit t0
           (child_fails "ERROR: Rate Limit hit, login again" [])
           exit_1 "rate limit" sys_no_file eq_refl).
  - simpl; tauto.
  - exact Hcue.
Defined.

(* ================================================================== *)
(** ** The gateways: breaker check, failure path, success path *)
(* ================================================================== *)

Lemma open_view (now : Z) (s : Sys) (c : CircuitState) :
  fst (isCircuitBreakerOpen now s) = Ok c -> circuit_view now (loaded now s) = c.
Proof.
  rewrite isCircuitBreakerOpen_eq. simpl. congruence.
Qed.

Lemma runCodex_open (now done : Z) (child : list string -> ChildResult)
      (p : string) (model sandbox approvalPolicy : option string)
      (s : Sys) (m : Z) :
  fst (isCircuitBreakerOpen now s) = Ok (Open m) ->
  Codex.runCodex now done child p model sandbox approvalPolicy s
  = (Ok (ok_false circuit_breaker None (Codex.open_message m)), s).
Proof.
  intros H. apply open_view in H.
  unfold Codex.runCodex, bind. now rewrite isCircuitBreakerOpen_eq, H.
Qed.

Lemma runCodex_closed (now done : Z) (child : list string -> ChildResult)
      (p : string) (model sandbox approvalPolicy : option string) (s : Sys) :
  fst (isCircuitBreakerOpen now s) = Ok Closed ->
  Codex.runCodex now done child p model sandbox approvalPolicy s
  = Codex.callback done
      (child (Codex.build_args p model sandbox approvalPolicy))
      (snd (execFile "codex" (Codex.build_args p model sandbox approvalPolicy) s)).
Proof.
  intros H. apply open_view in H.
  unfold Codex.runCodex, bind. now rewrite isCircuitBreakerOpen_eq, H.
Qed.

Lemma makeRequest_open (now done : Z) (http : Zai.HttpOutcome)
      (p : string) (model apiKey : option string) (s : Sys) (m : Z) :
  fst (isCircuitBreakerOpen now s) = Ok (Open m) ->
  Zai.makeRequest now done http p model apiKey s
  = (Ok (ok_false circuit_breaker None (Zai.open_message m)), s).
Proof.
  intros H. apply open_view in H.
  unfold Zai.makeRequest, bind. now rewrite isCircuitBreakerOpen_eq, H.
Qed.

(** The minutes an open breaker announces are at least one. *)
Lemma open_minutes_positive (now : Z) (s : Sys) (m : Z) :
  fst (isCircuitBreakerOpen now s) = Ok (Open m) -> 1 <= m.
Proof.
  intros H. apply open_view in H. unfold circuit_view in H.
  destruct (Z.leb_spec CIRCUIT_BREAKER_THRESHOLD
              (Z.of_nat (List.length (recent now (loaded now s))))) as [Hlen | Hlen];
    [| discriminate].
  apply (f_equal (fun c => match c with Open k => k | Closed => 0 end)) in H.
  cbv beta iota in H.
  pose proof (oldest_recent_within_cooldown now (loaded now s) Hlen) as Hold.
  pose proof (ceil_div_rounds_up
                (CIRCUIT_BREAKER_COOLDOWN
                 - (now - JS.Math_min (recent now (loaded now s))))
                60000 eq_refl) as Hceil.
  rewrite H in Hceil. lia.
Qed.

Lemma read_decimal_digit (a d : Z) (r : string) :
  0 <= d < 10 ->
  read_decimal a (String (ascii_of_nat (48 + Z.to_nat d)) r) =
  read_decimal (10 * a + d) r.
Proof.
  intros Hd. cbn [read_decimal]. cbv zeta.
  rewrite nat_ascii_embedding by lia.
  replace (Nat.leb 48 (48 + Z.to_nat d)) with true
    by (symmetry; apply Nat.leb_le; lia).
  replace (Nat.leb (48 + Z.to_nat d) 57) with true
    by (symmetry; apply Nat.leb_le; lia).
  cbn [andb]. f_equal. lia.
Qed.

Lemma digits_not_empty (f : nat) (n : Z) (acc : string) :
  (0 < f)%nat -> JS.digits f n acc <> EmptyString.
Proof.
  revert n acc. induction f as [| f IH]; intros n acc Hf; [lia |].
  cbn [JS.digits]. cbv zeta. destruct (n <? 10) eqn:E; [discriminate |].
  destruct f as [| f']; [cbn [JS.digits]; discriminate |].
  apply IH. lia.
Qed.

(** The digits written for [n] read back as [n]. *)
Lemma digits_value (f : nat) :
  forall n acc a,
    0 <= n < 2 ^ Z.of_nat f ->
    exists k, 0 <= k /\
      read_decimal a (JS.digits f n acc) = read_decimal (a * 10 ^ k + n) acc.
Proof.
  induction f as [| f IH]; intros n acc a Hn.
  - exists 0. split; [lia |]. cbn [JS.digits]. f_equal.
    change (2 ^ Z.of_nat 0) with 1 in Hn. lia.
  - cbn [JS.digits]. cbv zeta.
    assert (Hd : 0 <= n mod 10 < 10) by (apply Z.mod_pos_bound; lia).
    destruct (n <? 10) eqn:E.
    + apply Z.ltb_lt in E. exists 1. split; [lia |].
      rewrite read_decimal_digit by exact Hd.
      rewrite Z.mod_small by lia. f_equal. lia.
    + apply Z.ltb_ge in E.
      assert (Hq : 0 <= n / 10 < 2 ^ Z.of_nat f).
      { split; [apply Z.div_pos; lia |].
        rewrite Nat2Z.inj_succ, Z.pow_succ_r in Hn by lia.
        apply Z.div_lt_upper_bound; lia. }
      destruct (IH (n / 10) (String (ascii_of_nat (48 + Z.to_nat (n mod 10))) acc) a Hq)
        as (k & Hk & Hr).
      exists (k + 1). split; [lia |]. rewrite Hr.
      rewrite read_decimal_digit by exact Hd. f_equal.
      rewrite Z.pow_add_r by lia. change (10 ^ 1) with 10.
      pose proof (Z.div_mod n 10 ltac:(lia)). lia.
Qed.

(** [number_to_string] writes a non-negative integer in decimal. *)
Lemma number_to_string_value (n : Z) :
  0 <= n -> decimal_value (JS.number_to_string n) = Some n.
Proof.
  intros Hn. unfold JS.number_to_string.
  replace (n <? 0) with false by (symmetry; apply Z.ltb_ge; exact Hn).
  set (f := S (Z.to_nat (Z.log2 n))).
  assert (Hb : 0 <= n < 2 ^ Z.of_nat f).
  { split; [exact Hn |]. unfold f.
    rewrite Nat2Z.inj_succ, Z2Nat.id by apply Z.log2_nonneg.
    destruct (Z.eq_dec n 0) as [-> | Hz]; [reflexivity |].
    apply Z.log2_spec. lia. }
  destruct (digits_value f n EmptyString 0 Hb) as (k & _ & Hr).
  unfold decimal_value.
  destruct (JS.digits f n "") eqn:Ed.
  - exfalso. revert Ed. apply digits_not_empty. unfold f. lia.
  - rewrite Hr. reflexivity.
Qed.

Lemma main_open_valid (now done : Z) (child : list string -> ChildResult)
      (http : Zai.HttpOutcome) (apiKey : option string)
      (totalSize : Z) (input : Stdin) (s : Sys) (m : Z) :
  fst (isCircuitBreakerOpen now s) = Ok (Open m) ->
  totalSize <= CodexMain.MAX_INPUT_SIZE -> valid_prompt input = true ->
  CodexMain.main now done child totalSize input s
  = (Ok (mkExit 1 (Some (resp_failure "codex" circuit_breaker (Some false)
                           (Codex.open_message m)))), s) /\
  Zai.main now done http apiKey totalSize input s
  = (Ok (mkExit 1 (Some (resp_failure "zai" circuit_breaker (Some false)
                           (Zai.open_message m)))), s).
Proof.
  intros Hopen Hsize Hv. apply Z.ltb_ge in Hsize.
  destruct input as [| raw | | pl]; try discriminate Hv.
  cbn [valid_prompt] in Hv.
  destruct (prompt pl) as [| p | b txt] eqn:Hp; try discriminate Hv.
  split.
  - unfold CodexMain.main, CodexMain.body, try_catch, bind.
    rewrite Hsize, Hp, Hv.
    now rewrite (runCodex_open now done child p _ _ _ s m Hopen).
  - unfold Zai.main, Zai.body, try_catch, bind.
    rewrite Hsize, Hp, Hv.
    now rewrite (makeRequest_open now done http p _ apiKey s m Hopen).
Qed.

Lemma main_rejects_invalid (now done : Z) (child : list string -> ChildResult)
      (http : Zai.HttpOutcome) (apiKey : option string)
      (totalSize : Z) (input : Stdin) (s : Sys) :
  CodexMain.MAX_INPUT_SIZE < totalSize \/ valid_prompt input = false ->
  CodexMain.main now done child totalSize input s = (Ok (mkExit 1 None), s) /\
  Zai.main now done http apiKey totalSize input s = (Ok (mkExit 1 None), s).
Proof.
  intros H.
  unfold CodexMain.main, CodexMain.body, Zai.main, Zai.body, try_catch, bind.
  destruct (Z.ltb_spec CodexMain.MAX_INPUT_SIZE totalSize) as [Hbig | Hsmall];
    [split; reflexivity |].
  destruct H as [H | Hv]; [lia |].
  destruct input as [| raw | | pl]; try (split; reflexivity).
  cbn [valid_prompt] in Hv.
  destruct (prompt pl) as [| p | b txt]; try (split; reflexivity).
  rewrite Hv. split; reflexivity.
Qed.

(** C6 (amended).  When the breaker is open at the start of [runCodex]
    or [makeRequest], the call resolves with a [circuit_breaker] failure
    and leaves the system exactly as it was: no provider call is added.
    The message carries the remaining cooldown: between the fixed words
    of the source stands a decimal numeral whose value is the number of
    minutes [m] the breaker reported, which is at least 1.  The scripts'
    [main] validates its input before the breaker is consulted: for an
    input within the size limit that has a non-empty string prompt it
    prints the [circuit_breaker] failure with [retryable: false] and
    exits with 1; for any other input it exits with 1 and prints no
    response, the open breaker notwithstanding, and the system is left
    as it was too. *)
Theorem open_breaker_short_circuits
        (now done : Z) (child : list string -> ChildResult) (http : Zai.HttpOutcome)
        (p : string) (model sandbox approvalPolicy apiKey : option string)
        (totalSize : Z) (input : Stdin) (s : Sys) (m : Z) :
  fst (isCircuitBreakerOpen now s) = Ok (Open m) ->
  Codex.runCodex now done child p model sandbox approvalPolicy s
  = (Ok (ok_false circuit_breaker None (Codex.open_message m)), s) /\
  Zai.makeRequest now done http p model apiKey s
  = (Ok (ok_false circuit_breaker None (Zai.open_message m)), s) /\
  1 <= m /\
  (exists numeral,
     decimal_value numeral = Some m /\
     Codex.open_message m =
       ("Circuit breaker is open due to repeated failures. Please wait " ++
        numeral ++
        " minutes before retrying. This prevents overwhelming the API during outages.")%string /\
     Zai.open_message m =
       ("Circuit breaker is open due to repeated failures. Please wait " ++
        numeral ++ " minutes before retrying.")%string) /\
  (totalSize <= CodexMain.MAX_INPUT_SIZE -> valid_prompt input = true ->
   CodexMain.main now done child totalSize input s
   = (Ok (mkExit 1 (Some (resp_failure "codex" circuit_breaker (Some false)
                            (Codex.open_message m)))), s) /\
   Zai.main now done http apiKey totalSize input s
   = (Ok (mkExit 1 (Some (resp_failure "zai" circuit_breaker (Some false)
                            (Zai.open_message m)))), s)) /\
  (CodexMain.MAX_INPUT_SIZE < totalSize \/ valid_prompt input = false ->
   CodexMain.main now done child totalSize input s = (Ok (mkExit 1 None), s) /\
   Zai.main now done http apiKey totalSize input s = (Ok (mkExit 1 None), s)).
Proof.
  intros Hopen.
  pose proof (open_minutes_positive now s m Hopen) as Hm.
  split; [now apply runCodex_open |].
  split; [now apply makeRequest_open |].
  split; [exact Hm |].
  split; [| split].
  - exists (JS.number_to_string m).
    split; [apply number_to_string_value; lia |].
    split; reflexivity.
  - now apply main_open_valid.
  - apply main_rejects_invalid.
Qed.

(** The open breaker of the scenario at minute 2, and a request for
    ["hi"]. *)
Lemma open_breaker_short_circuits_witness :
  fst (isCircuitBreakerOpen (t0 + 120000) sys_three_failures) = Ok (Open 8) /\
  Codex.runCodex (t0 + 120000) (t0 + 130000) (child_prints "hello") "hi" None None None
                 sys_three_failures
  = (Ok (ok_false circuit_breaker None (Codex.open_message 8)), sys_three_failures) /\
  Zai.makeRequest (t0 + 120000) (t0 + 130000) Zai.RequestTimeout "hi" None (Some "key")
                  sys_three_failures
  = (Ok (ok_false circuit_breaker None (Zai.open_message 8)), sys_three_failures).
Proof.
  split; [reflexivity |].
  pose proof (open_breaker_short_circuits
                (t0 + 120000) (t0 + 130000) (child_prints "hello") Zai.RequestTimeout
                "hi" None None None (Some "key") 16 (Object (payload_of "hi"))
                sys_three_failures 8 eq_refl) as H.
  split; [exact (proj1 H) | exact (proj1 (proj2 H))].
Defined.

(** C6, as stated, fails for the script as a whole: with the breaker
    open and a payload without a prompt, [main] exits with 1 and prints
    no [circuit_breaker] response; the input is rejected before the
    breaker is consulted. *)
Lemma open_breaker_invalid_prompt_is_rejected_first :
  fst (isCircuitBreakerOpen (t0 + 120000) sys_three_failures) = Ok (Open 8) /\
  CodexMain.main (t0 + 120000) (t0 + 130000) (child_prints "hello") 2
                 (Object (mkPayload JUndefined None None None None false))
                 sys_three_failures
  = (Ok (mkExit 1 None), sys_three_failures) /\
  Zai.main (t0 + 120000) (t0 + 130000) Zai.RequestTimeout (Some "key") 2
           (Object (mkPayload JUndefined None None None None false))
           sys_three_failures
  = (Ok (mkExit 1 None), sys_three_failures).
Proof. repeat split; reflexivity. Qed.

Example open_message_at_8 :
  Codex.open_message 8 =
  "Circuit breaker is open due to repeated failures. Please wait 8 minutes before retrying. This prevents overwhelming the API during outages.".
Proof. reflexivity. Qed.

(* ================================================================== *)
(** ** Failures and the breaker *)
(* ================================================================== *)

Lemma execFile_content (file : string) (args : list string) (s : Sys) :
  content (snd (execFile file args s)) = content s.
Proof. reflexivity. Qed.

(** X23.  In [runCodex] every failed invocation is charged to the breaker
    exactly when its type is [limit], [server_error], [timeout] or
    [error]; for [auth] and [missing] the state file is left as it was;
    [retryable] is [false] throughout. *)
Lemma runCodex_failure_policy
      (now done : Z) (child : list string -> ChildResult)
      (p : string) (model sandbox approvalPolicy : option string)
      (s : Sys) (err : ExecError) :
  fst (isCircuitBreakerOpen now s) = Ok Closed ->
  child_error (child (Codex.build_args p model sandbox approvalPolicy)) = Some err ->
  exists t m s',
    Codex.runCodex now done child p model sandbox approvalPolicy s
    = (Ok (ok_false t (Some false) m), s') /\
    (counted t = true ->
       s' = snd (recordFailure done
                   (snd (execFile "codex"
                           (Codex.build_args p model sandbox approvalPolicy) s)))) /\
    (counted t = false -> content s' = content s).
Proof.
  intros Hc Herr. rewrite (runCodex_closed _ _ _ _ _ _ _ _ Hc).
  destruct (callback_failure done _ err
              (snd (execFile "codex"
                      (Codex.build_args p model sandbox approvalPolicy) s)) Herr)
    as [m Hm].
  eexists _, m, _. split; [exact Hm |].
  destruct (counted _); split; intros; try discriminate; reflexivity.
Qed.

(** C5.  In [makeRequest] a reply with status 200 whose body does not
    parse is reported as [error] (kind Unknown, a counted kind) and the
    breaker is not charged: the state file is as before.  The sibling
    paths of the same type do charge it: after a connection error the
    file holds one failure. *)
Theorem zai_unparsable_reply_is_not_counted :
  fst (Zai.makeRequest t0 (t0 + 1000)
         (Zai.Responded 200 (Zai.NotJson "<html>" "Unexpected token <"))
         "hi" None (Some "key") sys_no_file)
  = Ok (ok_false error None "Failed to parse Z.ai response: Unexpected token <") /\
  kind_of error = Unknown /\
  content (snd (Zai.makeRequest t0 (t0 + 1000)
                  (Zai.Responded 200 (Zai.NotJson "<html>" "Unexpected token <"))
                  "hi" None (Some "key") sys_no_file))
  = content sys_no_file /\
  content (snd (Zai.makeRequest t0 (t0 + 1000) (Zai.RequestError "ECONNRESET")
                  "hi" None (Some "key") sys_no_file))
  = Some (Encoded (mkState [t0 + 1000] (t0 + 1000))).
Proof. repeat split; reflexivity. Qed.

(** X24.  Every other failing path of [makeRequest]'s handlers follows
    the policy: counted types charge the breaker, [auth] does not. *)
Lemma on_outcome_policy (done : Z) (o : Zai.HttpOutcome) (s : Sys)
      (t : ErrorType) (m : string) (s' : Sys) :
  Zai.on_outcome done o s = (Ok (ok_false t None m), s') ->
  (forall code data msg, o = Zai.Responded code (Zai.NotJson data msg) ->
                         code <> 200 /\ code <> 201) ->
  s' = if counted t then snd (recordFailure done s) else s.
Proof.
  intros H Hparse. unfold Zai.on_outcome, bind in H.
  destruct o as [code body | msg | ].
  - destruct ((code =? 200) || (code =? 201))%bool eqn:E200.
    + destruct body as [data msg | data blocks].
      * destruct (Hparse code data msg eq_refl) as [H1 H2].
        apply orb_true_iff in E200. destruct E200 as [E | E];
          apply Z.eqb_eq in E; contradiction.
      * rewrite recordSuccess_eq in H. discriminate.
    + destruct (code =? 401); [injection H as <- _ <-; reflexivity |].
      destruct (code =? 429);
        [rewrite recordFailure_eq in H; injection H as <- _ <-;
         now rewrite recordFailure_eq |].
      destruct (500 <=? code);
        rewrite recordFailure_eq in H; injection H as <- _ <-;
        now rewrite recordFailure_eq.
  - rewrite recordFailure_eq in H. injection H as <- _ <-.
    now rewrite recordFailure_eq.
  - rewrite recordFailure_eq in H. injection H as <- _ <-.
    now rewrite recordFailure_eq.
Qed.

(* ================================================================== *)
(** ** The success path *)
(* ================================================================== *)

(** C9 (amended).  On a successful invocation the output is the child's
    standard output without its leading and trailing white space (the
    white space characters and line terminators of ECMAScript, among
    them the no-break space and the byte order mark), all characters in
    between unchanged: the output is the one string that neither starts
    nor ends with a white space character and that stands in the text
    between two sequences of white space characters.  [runCodex] of
    openai-cli-improved then calls [recordSuccess]; [runGemini], which
    has no circuit breaker, only adds the spawn to the system. *)
Theorem success_output_is_trimmed_stdout
        (now done : Z) (child : list string -> ChildResult)
        (p : string) (model sandbox approvalPolicy approvalMode : option string)
        (yolo : bool) (s : Sys) :
  (fst (isCircuitBreakerOpen now s) = Ok Closed ->
   child_error (child (Codex.build_args p model sandbox approvalPolicy)) = None ->
   Codex.runCodex now done child p model sandbox approvalPolicy s
   = (Ok (ok_true (JS.trim
                     (stdout (child (Codex.build_args p model sandbox approvalPolicy))))),
      snd (recordSuccess done
             (snd (execFile "codex"
                     (Codex.build_args p model sandbox approvalPolicy) s))))) /\
  (forall args,
     args = (push_opt "--model" model ++ Qwen.approval_args approvalMode yolo ++ [p])%list ->
     child_error (child args) = None ->
     Gemini.runGemini child p model yolo approvalMode s
     = (Ok (ok_true (JS.trim (stdout (child args)))),
        snd (execFile "gemini" args s))) /\
  (forall text out, trimmed_of text out <-> out = JS.trim text).
Proof.
  split; [| split].
  - intros Hc Hok. rewrite (runCodex_closed _ _ _ _ _ _ _ _ Hc).
    now apply callback_success.
  - intros args -> Hok.
    unfold Gemini.runGemini, Gemini.callback, bind. simpl.
    now rewrite Hok.
  - apply StringFacts.trimmed_of_trim.
Qed.

(** A successful [codex] run on a system without a state file. *)
Lemma success_output_is_trimmed_stdout_witness :
  fst (isCircuitBreakerOpen t0 sys_no_file) = Ok Closed /\
  child_error (child_prints "  two  words " (Codex.build_args "hi" None None None)) = None /\
  Codex.runCodex t0 (t0 + 5) (child_prints "  two  words ") "hi" None None None sys_no_file
  = (Ok (ok_true (JS.trim
                    (stdout (child_prints "  two  words "
                               (Codex.build_args "hi" None None None))))),
     snd (recordSuccess (t0 + 5)
            (snd (execFile "codex" (Codex.build_args "hi" None None None) sys_no_file)))).
Proof.
  split; [reflexivity |]. split; [reflexivity |].
  apply (proj1 (success_output_is_trimmed_stdout t0 (t0 + 5)
                  (child_prints "  two  words ") "hi" None None None None false
                  sys_no_file)); reflexivity.
Defined.

(** Standard output wrapped in no-break spaces and ended by a line
    separator. *)
Example runCodex_trims_unicode_white_space :
  fst (Codex.runCodex t0 (t0 + 5)
         (child_prints (utf8 160 ++ "hi" ++ utf8 160 ++ utf8 8232 ++ nl))
         "hi" None None None sys_no_file)
  = Ok (ok_true "hi").
Proof. reflexivity. Qed.

Example runCodex_success_run :
  Codex.runCodex t0 (t0 + 5) (child_prints "  two  words ") "hi" None None None sys_no_file
  = (Ok (ok_true "two  words"),
     mkSys (Some (Encoded (mkState [] (t0 + 5)))) true true
           [ExecFile "codex" ["exec"; "hi"]]).
Proof. reflexivity. Qed.

(** C9, as stated, fails for [runGemini]: a successful invocation returns
    the trimmed output and leaves the three stored failures in place,
    where [recordSuccess] would have emptied the list. *)
Lemma runGemini_success_records_nothing :
  fst (Gemini.runGemini (child_prints " ok ") "hi" None false None sys_three_failures)
  = Ok (ok_true "ok") /\
  content (snd (Gemini.runGemini (child_prints " ok ") "hi" None false None
                  sys_three_failures))
  = Some (Encoded (mkState [t0; t0 + 60000; t0 + 120000] t0)) /\
  content (snd (recordSuccess (t0 + 130000) sys_three_failures))
  = Some (Encoded (mkState [] (t0 + 130000))).
Proof. repeat split; reflexivity. Qed.

(* ================================================================== *)
(** ** Exit codes *)
(* ================================================================== *)

Lemma callback_returns (done : Z) (r : ChildResult) (s : Sys) :
  exists res s', Codex.callback done r s = (Ok res, s').
Proof.
  destruct (child_error r) as [err |] eqn:E.
  - destruct (callback_failure done r err s E) as [m Hm]. eexists _, _. exact Hm.
  - eexists _, _. apply callback_success, E.
Qed.

Lemma runCodex_returns (now done : Z) (child : list string -> ChildResult)
      (p : string) (model sandbox approvalPolicy : option string) (s : Sys) :
  exists res s',
    Codex.runCodex now done child p model sandbox approvalPolicy s = (Ok res, s').
Proof.
  unfold Codex.runCodex, bind. rewrite isCircuitBreakerOpen_eq.
  destruct (circuit_view now (loaded now s)); [eexists _, _; reflexivity |].
  apply callback_returns.
Qed.

(** X22.  openai-cli-improved: the script exits with 0 exactly when it
    printed a success response; every other run exits with 1. *)
Lemma codex_exit_zero_iff_success
      (now done : Z) (child : list string -> ChildResult)
      (totalSize : Z) (input : Stdin) (s : Sys) :
  exists e s',
    CodexMain.main now done child totalSize input s = (Ok e, s') /\
    (exit_code e = 0 \/ exit_code e = 1) /\
    (exit_code e = 0 <-> exists out, printed e = Some (resp_success "codex" out)).
Proof.
  unfold CodexMain.main, CodexMain.body, try_catch, bind.
  destruct (CodexMain.MAX_INPUT_SIZE <? totalSize).
  { eexists _, _. split; [reflexivity |]. simpl. split; [now right |].
    split; [discriminate | intros [? ?]; discriminate]. }
  assert (Hfail : forall s0 : Sys,
            exists e s', (Ok (mkExit 1 None), s0) = (Ok e, s') /\
                         (exit_code e = 0 \/ exit_code e = 1) /\
                         (exit_code e = 0 <->
                          exists out, printed e = Some (resp_success "codex" out))).
  { intros s0. eexists _, _. split; [reflexivity |]. simpl. split; [now right |].
    split; [discriminate | intros [? ?]; discriminate]. }
  destruct input as [| raw | | pl]; simpl; try apply Hfail.
  destruct (prompt pl) as [| p | b txt]; try apply Hfail.
  destruct (JS.truthy p); try apply Hfail.
  destruct (runCodex_returns now done child p (model pl) (sandbox pl)
              (approval_policy pl) s) as (res & s' & Hrun).
  rewrite Hrun. destruct res as [out | t rt m]; eexists _, _;
    (split; [reflexivity |]); simpl.
  - split; [now left |]. split; [intros _; now exists out | reflexivity].
  - split; [now right |]. split; [discriminate | intros [? ?]; discriminate].
Qed.

(** C2.  qwen-cli exits with code 0 after printing a failure: on input
    that is not JSON, on a payload without a prompt, and when the [qwen]
    process fails. *)
Theorem qwen_exits_zero_on_failure :
  Qwen.main (child_prints "unused") (Malformed "not json") sys_no_file
  = (Ok (mkExit 0 (Some (resp_failure "qwen" error None Qwen.invalid_json_message))),
     sys_no_file) /\
  Qwen.main (child_prints "unused")
            (Object (mkPayload JUndefined None None None None false)) sys_no_file
  = (Ok (mkExit 0 (Some (resp_failure "qwen" error None
                           "Missing required 'prompt' field in JSON input."))),
     sys_no_file) /\
  fst (Qwen.main (child_fails "quota exceeded") (Object (payload_of "hi")) sys_no_file)
  = Ok (mkExit 0 (Some (resp_failure "qwen" limit None Qwen.limit_message))).
Proof. repeat split; reflexivity. Qed.

(** Every run of qwen-cli that ends normally ends with exit code 0,
    whatever it printed. *)
Lemma qwen_always_exits_zero
      (child : list string -> ChildResult) (input : Stdin) (s s' : Sys) (e : Exit) :
  Qwen.main child input s = (Ok e, s') -> exit_code e = 0.
Proof.
  unfold Qwen.main, bind.
  destruct input as [| raw | | params]; try discriminate;
    try (intros H; injection H as <- _; reflexivity).
  destruct (negb (js_truthy (prompt params)));
    [intros H; injection H as <- _; reflexivity |].
  destruct (Qwen.runQwen child (Qwen.arg_text (prompt params)) (model params)
              (yolo params) (approval_mode params) s) as [[res | ex] s1];
    [| discriminate].
  destruct res; intros H; injection H as <- _; reflexivity.
Qed.

(** The same three inputs make openai-cli-improved exit with 1. *)
Example codex_exits_one_on_failure :
  fst (CodexMain.main t0 t0 (child_prints "unused") 8 (Malformed "not json") sys_no_file)
  = Ok (mkExit 1 None) /\
  fst (CodexMain.main t0 t0 (child_prints "unused") 2
         (Object (mkPayload JUndefined None None None None false)) sys_no_file)
  = Ok (mkExit 1 None) /\
  fst (CodexMain.main t0 t0 (child_fails "quota exceeded") 15
         (Object (payload_of "hi")) sys_no_file)
  = Ok (mkExit 1 (Some (resp_failure "codex" limit (Some false)
          "Codex/OpenAI rate limit reached. DO NOT RETRY automatically. Wait before manual retry."))).
Proof. repeat split; reflexivity. Qed.

(* ================================================================== *)
(** ** Circuit breaker: sequences of operations *)
(* ================================================================== *)

Lemma failures_loaded (a b : Z) (s : Sys) :
  failures (loaded a s) = failures (loaded b s).
Proof.
  unfold loaded. destruct (content s) as [[raw | st] | ]; try reflexivity.
  destruct (readable s); reflexivity.
Qed.

Lemma stored_saved (st : State) (s : Sys) :
  writable s = true ->
  stored (saved st s) = if readable s then failures st else [].
Proof.
  intros Hw. unfold stored, loaded, saved. rewrite Hw. simpl.
  destruct (readable s); reflexivity.
Qed.

Lemma stored_unreadable (s : Sys) : readable s = false -> stored s = [].
Proof.
  intros Hr. unfold stored, loaded. rewrite Hr.
  destruct (content s) as [[raw | st] | ]; reflexivity.
Qed.

Lemma saved_unwritable (st : State) (s : Sys) : writable s = false -> saved st s = s.
Proof. intros Hw. unfold saved. now rewrite Hw. Qed.

Lemma saved_readable (st : State) (s : Sys) : readable (saved st s) = readable s.
Proof. unfold saved. destruct (writable s); reflexivity. Qed.

Lemma stored_recordFailure (t : Z) (s : Sys) :
  writable s = true -> readable s = true ->
  stored (snd (recordFailure t s)) = (stored s ++ [t])%list.
Proof.
  intros Hw Hr. rewrite recordFailure_eq. simpl snd.
  rewrite (stored_saved _ _ Hw), Hr. simpl.
  unfold stored. now rewrite (failures_loaded t 0).
Qed.

Lemma recordFailure_flags (t : Z) (s : Sys) :
  writable (snd (recordFailure t s)) = writable s /\
  readable (snd (recordFailure t s)) = readable s.
Proof.
  rewrite recordFailure_eq. simpl. split; [apply saved_writable | apply saved_readable].
Qed.

Lemma recent_length_le (now : Z) (st : State) :
  (List.length (recent now st) <= List.length (failures st))%nat.
Proof. unfold recent. apply filter_length_le. Qed.

Lemma isCircuitBreakerOpen_stored (now : Z) (s : Sys) :
  isCircuitBreakerOpen now s
  = (Ok (circuit_view now (mkState (stored s) 0)), s).
Proof.
  rewrite isCircuitBreakerOpen_eq. f_equal. f_equal.
  unfold circuit_view, recent, stored. cbn [failures].
  rewrite (failures_loaded now 0). reflexivity.
Qed.

(** X1.  Three failures recorded one after the other on a state file
    that can be read and written open the breaker at every instant at
    which the three are still inside the window. *)
Theorem three_failures_open_breaker (s : Sys) (t1 t2 t3 now : Z) :
  writable s = true -> readable s = true ->
  now - t1 < CIRCUIT_BREAKER_WINDOW ->
  now - t2 < CIRCUIT_BREAKER_WINDOW ->
  now - t3 < CIRCUIT_BREAKER_WINDOW ->
  exists m,
    fst (isCircuitBreakerOpen now
           (run_ops [OpRecordFailure t1; OpRecordFailure t2; OpRecordFailure t3] s))
    = Ok (Open m).
Proof.
  intros Hw Hr H1 H2 H3.
  unfold run_ops. simpl fold_left.
  destruct (recordFailure_flags t1 s) as [Hw1 Hr1].
  destruct (recordFailure_flags t2 (snd (recordFailure t1 s))) as [Hw2 Hr2].
  rewrite Hw1, Hw in Hw2. rewrite Hr1, Hr in Hr2.
  rewrite Hw in Hw1. rewrite Hr in Hr1.
  rewrite isCircuitBreakerOpen_stored. cbn [fst].
  rewrite (stored_recordFailure t3 _ Hw2 Hr2).
  rewrite (stored_recordFailure t2 _ Hw1 Hr1).
  rewrite (stored_recordFailure t1 _ Hw Hr).
  unfold circuit_view, recent. cbn [failures].
  rewrite !filter_app. cbn [filter].
  unfold in_window at 2 3 4.
  apply Z.ltb_lt in H1, H2, H3. rewrite H1, H2, H3.
  rewrite !length_app. cbn [List.length].
  destruct (Z.leb_spec CIRCUIT_BREAKER_THRESHOLD
              (Z.of_nat (List.length (filter (in_window now) (stored s)) + 1 + 1 + 1)))
    as [_ | Hlt].
  - eexists. reflexivity.
  - unfold CIRCUIT_BREAKER_THRESHOLD in Hlt. lia.
Qed.

(** Three failures, a second apart, on a system without a state file. *)
Lemma three_failures_open_breaker_witness :
  writable sys_no_file = true /\ readable sys_no_file = true /\
  t0 + 3000 - t0 < CIRCUIT_BREAKER_WINDOW /\
  exists m,
    fst (isCircuitBreakerOpen (t0 + 3000)
           (run_ops [OpRecordFailure t0; OpRecordFailure (t0 + 1000);
                     OpRecordFailure (t0 + 2000)] sys_no_file))
    = Ok (Open m).
Proof.
  split; [reflexivity |]. split; [reflexivity |]. split; [reflexivity |].
  apply (three_failures_open_breaker sys_no_file t0 (t0 + 1000) (t0 + 2000) (t0 + 3000));
    reflexivity.
Defined.

Lemma closed_when_all_old (s : Sys) (now : Z) :
  Forall (fun ts => CIRCUIT_BREAKER_WINDOW <= now - ts) (stored s) ->
  isCircuitBreakerOpen now s = (Ok Closed, s).
Proof.
  intros Hold. rewrite isCircuitBreakerOpen_stored. f_equal. f_equal.
  unfold circuit_view, recent. cbn [failures].
  assert (Hnil : filter (in_window now) (stored s) = []).
  { induction Hold as [| ts l Hts _ IH]; [reflexivity |].
    cbn [filter]. unfold in_window at 1.
    apply Z.ltb_ge in Hts. now rewrite Hts. }
  rewrite Hnil. reflexivity.
Qed.

(** X2.  When every stored failure is at least a window (5 minutes) old,
    the breaker is closed, however many failures are stored; the state
    file is left as it is. *)
Theorem no_recent_failure_closed (s : Sys) (now : Z) :
  Forall (fun ts => CIRCUIT_BREAKER_WINDOW <= now - ts) (stored s) ->
  isCircuitBreakerOpen now s = (Ok Closed, s).
Proof.
  intros Hold. apply closed_when_all_old. exact Hold.
Qed.

(** The scenario's file at minute 7. *)
Lemma no_recent_failure_closed_witness :
  Forall (fun ts => CIRCUIT_BREAKER_WINDOW <= t0 + 420000 - ts) (stored sys_three_failures) /\
  isCircuitBreakerOpen (t0 + 420000) sys_three_failures = (Ok Closed, sys_three_failures).
Proof.
  assert (H : Forall (fun ts => CIRCUIT_BREAKER_WINDOW <= t0 + 420000 - ts)
                     (stored sys_three_failures)).
  { repeat constructor; discriminate. }
  split; [exact H |].
  apply (no_recent_failure_closed sys_three_failures (t0 + 420000) H).
Defined.

(** X3.  Whenever the breaker is open and no stored failure is stamped
    later than the current instant, it announces between 6 and 10
    minutes; and with the state file unchanged it is closed at every
    instant five minutes later or more. *)
Theorem open_announces_more_than_it_waits (s : Sys) (now now' m : Z) :
  fst (isCircuitBreakerOpen now s) = Ok (Open m) ->
  Forall (fun ts => ts <= now) (stored s) ->
  now + CIRCUIT_BREAKER_WINDOW <= now' ->
  6 <= m <= 10 /\ isCircuitBreakerOpen now' s = (Ok Closed, s).
Proof.
  intros Hopen Hpast Hlater. split.
  - rewrite isCircuitBreakerOpen_stored in Hopen. cbn [fst] in Hopen.
    unfold circuit_view in Hopen.
    destruct (Z.leb_spec CIRCUIT_BREAKER_THRESHOLD
                (Z.of_nat (List.length (recent now (mkState (stored s) 0)))))
      as [Hlen | Hlen]; [| discriminate].
    apply (f_equal (fun r => match r with
                             | Ok (Open k) => k
                             | _ => 0
                             end)) in Hopen.
    cbv beta iota in Hopen.
    destruct (Math_min_oldest _ (threshold_nonempty _ Hlen)) as [Hin _].
    pose proof (recent_in_window _ _ _ Hin) as Hw.
    assert (Hle : JS.Math_min (recent now (mkState (stored s) 0)) <= now).
    { unfold recent in Hin. apply filter_In in Hin. destruct Hin as [Hin _].
      rewrite Forall_forall in Hpast. apply Hpast, Hin. }
    pose proof (ceil_div_rounds_up
                  (CIRCUIT_BREAKER_COOLDOWN
                   - (now - JS.Math_min (recent now (mkState (stored s) 0))))
                  60000 eq_refl) as Hceil.
    rewrite Hopen in Hceil.
    unfold CIRCUIT_BREAKER_COOLDOWN, CIRCUIT_BREAKER_WINDOW in *. lia.
  - apply closed_when_all_old.
    rewrite Forall_forall in *. intros ts Hts. specialize (Hpast ts Hts).
    cbv beta in Hpast. lia.
Qed.

Lemma open_announces_more_than_it_waits_witness :
  fst (isCircuitBreakerOpen (t0 + 120000) sys_three_failures) = Ok (Open 8) /\
  Forall (fun ts => ts <= t0 + 120000) (stored sys_three_failures) /\
  6 <= 8 <= 10 /\
  isCircuitBreakerOpen (t0 + 420000) sys_three_failures = (Ok Closed, sys_three_failures).
Proof.
  assert (H : Forall (fun ts => ts <= t0 + 120000) (stored sys_three_failures)).
  { repeat constructor; discriminate. }
  split; [reflexivity |]. split; [exact H |].
  apply (open_announces_more_than_it_waits sys_three_failures
           (t0 + 120000) (t0 + 420000) 8 eq_refl H).
  discriminate.
Defined.

Lemma list_prefix_refl (l : list Z) : list_prefix l l.
Proof. exists []. now rewrite app_nil_r. Qed.

Lemma list_prefix_trans (a b c : list Z) :
  list_prefix a b -> list_prefix b c -> list_prefix a c.
Proof.
  intros [x ->] [y ->]. exists (x ++ y)%list. now rewrite app_assoc.
Qed.

Lemma run_ops_cons (o : Op) (ops : list Op) (s : Sys) :
  run_ops (o :: ops) s = run_ops ops (run_op o s).
Proof. reflexivity. Qed.

Lemma stored_run_op_prefix (o : Op) (s : Sys) :
  is_record_success o = false -> list_prefix (stored s) (stored (run_op o s)).
Proof.
  destruct o as [t | t | t]; cbn [is_record_success run_op]; intros Hs;
    [| | discriminate].
  - rewrite isCircuitBreakerOpen_keeps_file. apply list_prefix_refl.
  - destruct (writable s) eqn:Hw.
    + destruct (readable s) eqn:Hr.
      * rewrite (stored_recordFailure t s Hw Hr). now exists [t].
      * rewrite (stored_unreadable s Hr). now eexists.
    + rewrite recordFailure_eq. cbn [snd]. rewrite (saved_unwritable _ _ Hw).
      apply list_prefix_refl.
Qed.

(** X4.  As long as no success is recorded, the failure list in the
    state file only grows at its end: checks of the breaker and recorded
    failures never remove or reorder a stored timestamp, also not one
    that has left the window. *)
Theorem stored_failures_only_grow (ops : list Op) (s : Sys) :
  forallb (fun o => negb (is_record_success o)) ops = true ->
  list_prefix (stored s) (stored (run_ops ops s)).
Proof.
  revert s. induction ops as [| o ops IH]; intros s Hops.
  - apply list_prefix_refl.
  - cbn [forallb] in Hops. apply andb_true_iff in Hops. destruct Hops as [Ho Hops].
    apply negb_true_iff in Ho.
    rewrite run_ops_cons.
    eapply list_prefix_trans; [apply stored_run_op_prefix, Ho | apply IH, Hops].
Qed.

(** A check at minute 11 and a fourth failure on the scenario's file. *)
Lemma stored_failures_only_grow_witness :
  forallb (fun o => negb (is_record_success o))
          [OpIsOpen (t0 + 660000); OpRecordFailure (t0 + 661000)] = true /\
  list_prefix (stored sys_three_failures)
    (stored (run_ops [OpIsOpen (t0 + 660000); OpRecordFailure (t0 + 661000)]
                     sys_three_failures)).
Proof.
  split; [reflexivity |].
  apply (stored_failures_only_grow
           [OpIsOpen (t0 + 660000); OpRecordFailure (t0 + 661000)]
           sys_three_failures).
  reflexivity.
Defined.

Example old_failures_stay_in_the_file :
  stored (run_ops [OpIsOpen (t0 + 660000); OpRecordFailure (t0 + 661000)]
                  sys_three_failures)
  = [t0; t0 + 60000; t0 + 120000; t0 + 661000].
Proof. reflexivity. Qed.

Lemma stored_run_op_length (o : Op) (s : Sys) :
  (List.length (stored (run_op o s))
   <= List.length (stored s) + (if is_record_failure o then 1 else 0))%nat.
Proof.
  destruct o as [t | t | t]; cbn [is_record_failure run_op].
  - rewrite isCircuitBreakerOpen_keeps_file. lia.
  - destruct (writable s) eqn:Hw.
    + destruct (readable s) eqn:Hr.
      * rewrite (stored_recordFailure t s Hw Hr), length_app. simpl. lia.
      * rewrite recordFailure_eq. cbn [snd].
        rewrite stored_unreadable; [simpl; lia |].
        now rewrite saved_readable.
    + rewrite recordFailure_eq. cbn [snd]. rewrite (saved_unwritable _ _ Hw). lia.
  - rewrite recordSuccess_eq. cbn [snd].
    destruct (writable s) eqn:Hw.
    + rewrite (stored_saved _ _ Hw). destruct (readable s); simpl; lia.
    + rewrite (saved_unwritable _ _ Hw). lia.
Qed.

Lemma stored_run_ops_length (ops : list Op) :
  forall s,
    (List.length (stored (run_ops ops s))
     <= List.length (stored s) + count_failures ops)%nat.
Proof.
  induction ops as [| o ops IH]; intros s.
  - simpl. unfold count_failures. simpl. lia.
  - rewrite run_ops_cons. specialize (IH (run_op o s)).
    pose proof (stored_run_op_length o s) as Ho.
    unfold count_failures in *. cbn [filter].
    destruct (is_record_failure o); cbn [List.length]; lia.
Qed.

(** X5.  After a success recorded on a writable state file, whatever
    operations follow, the breaker stays closed until at least three
    failures have been recorded. *)
Theorem after_success_three_failures_needed
        (ops : list Op) (s : Sys) (t now : Z) :
  writable s = true ->
  (count_failures ops < 3)%nat ->
  fst (isCircuitBreakerOpen now (run_ops ops (snd (recordSuccess t s)))) = Ok Closed.
Proof.
  intros Hw Hcount.
  rewrite isCircuitBreakerOpen_stored. cbn [fst]. f_equal.
  pose proof (stored_run_ops_length ops (snd (recordSuccess t s))) as Hlen.
  assert (Hempty : stored (snd (recordSuccess t s)) = []).
  { rewrite recordSuccess_eq. cbn [snd]. rewrite (stored_saved _ _ Hw).
    destruct (readable s); reflexivity. }
  rewrite Hempty in Hlen. cbn [List.length] in Hlen.
  unfold circuit_view.
  pose proof (recent_length_le now
                (mkState (stored (run_ops ops (snd (recordSuccess t s)))) 0)) as Hrec.
  cbn [failures] in Hrec.
  destruct (Z.leb_spec CIRCUIT_BREAKER_THRESHOLD
              (Z.of_nat (List.length
                 (recent now (mkState (stored (run_ops ops (snd (recordSuccess t s)))) 0)))))
    as [Hge | _]; [| reflexivity].
  unfold CIRCUIT_BREAKER_THRESHOLD in Hge. lia.
Qed.

(** Two failures and two checks after a success on the scenario's file. *)
Lemma after_success_three_failures_needed_witness :
  writable sys_three_failures = true /\
  (count_failures [OpRecordFailure (t0 + 131000); OpIsOpen (t0 + 132000);
                   OpRecordFailure (t0 + 133000)] < 3)%nat /\
  fst (isCircuitBreakerOpen (t0 + 134000)
         (run_ops [OpRecordFailure (t0 + 131000); OpIsOpen (t0 + 132000);
                   OpRecordFailure (t0 + 133000)]
                  (snd (recordSuccess (t0 + 130000) sys_three_failures))))
  = Ok Closed.
Proof.
  split; [reflexivity |]. split; [unfold count_failures; simpl; lia |].
  apply (after_success_three_failures_needed
           [OpRecordFailure (t0 + 131000); OpIsOpen (t0 + 132000);
            OpRecordFailure (t0 + 133000)]
           sys_three_failures (t0 + 130000) (t0 + 134000)).
  - reflexivity.
  - unfold count_failures; simpl; lia.
Defined.

(* ================================================================== *)
(** ** Cues: substrings and the order of the tests *)
(* ================================================================== *)

Lemma startsWith_split (s p : string) :
  JS.startsWith s p = true -> exists b, s = (p ++ b)%string.
Proof.
  revert s. induction p as [| c p IH]; intros s H.
  - now exists s.
  - destruct s as [| d s]; [discriminate |].
    cbn [JS.startsWith] in H. apply andb_true_iff in H. destruct H as [Hc Hp].
    apply Ascii.eqb_eq in Hc. subst d.
    destruct (IH s Hp) as [b ->]. now exists b.
Qed.

(** [includes] is the substring test. *)
Lemma includes_iff (s t : string) :
  JS.includes s t = true <-> exists a b, s = (a ++ t ++ b)%string.
Proof.
  split.
  - induction s as [| c s IH]; cbn [JS.includes]; intros H.
    + rewrite orb_false_r in H. destruct (startsWith_split _ _ H) as [b Hb].
      now exists EmptyString, b.
    + apply orb_true_iff in H. destruct H as [H | H].
      * destruct (startsWith_split _ _ H) as [b Hb]. now exists EmptyString, b.
      * destruct (IH H) as (a & b & ->). now exists (String c a), b.
  - intros (a & b & ->). apply StringFacts.includes_app.
Qed.

Lemma includes_trans (s t u : string) :
  JS.includes s t = true -> JS.includes t u = true -> JS.includes s u = true.
Proof.
  rewrite !includes_iff. intros (a & b & ->) (c & d & ->).
  exists (a ++ c)%string, (d ++ b)%string.
  now rewrite !StringFacts.app_assoc.
Qed.

Lemma has_cue_lowered (text cue : string) :
  has_cue text cue -> JS.includes (JS.toLowerCase text) cue = true.
Proof. apply StringFacts.has_cue_includes. Qed.

(** X6.  A failed [codex] run whose diagnostic has an authentication cue
    (in any letter case) and no rate-limit cue is reported as [auth] with
    [retryable: false], and the breaker is not charged: the system is
    left as it was. *)
Theorem auth_cue_without_rate_cue_gives_auth
        (done : Z) (r : ChildResult) (err : ExecError) (s : Sys) :
  child_error r = Some err ->
  Codex.isRateLimitError (stderr r) = false ->
  (exists cue, In cue auth_cues /\ has_cue (stderr r) cue) \/
  (has_cue (stderr r) "please run" /\ has_cue (stderr r) "codex login") ->
  exists m, Codex.callback done r s = (Ok (ok_false auth (Some false) m), s).
Proof.
  intros Herr Hrl Hcue.
  assert (Hauth : Codex.isAuthError (stderr r) = true).
  { unfold Codex.isAuthError. cbv zeta.
    destruct Hcue as [(cue & Hin & Hc) | [H1 H2]].
    - apply has_cue_lowered in Hc. unfold auth_cues in Hin. simpl in Hin.
      destruct Hin as [<- | [<- | [<- | [<- | []]]]]; rewrite Hc;
        rewrite ?orb_true_r; reflexivity.
    - apply has_cue_lowered in H1, H2. rewrite H1, H2.
      rewrite ?orb_true_r; reflexivity. }
  destruct (callback_failure done r err s Herr) as [m Hm].
  unfold source_order, first_match in Hm. rewrite Hrl, Hauth in Hm.
  exists m. exact Hm.
Qed.

(** The two-part cue, in capitals. *)
Lemma auth_cue_without_rate_cue_gives_auth_witness :
  child_error (child_fails "PLEASE RUN `codex login` first" []) = Some exit_1 /\
  Codex.isRateLimitError (stderr (child_fails "PLEASE RUN `codex login` first" [])) = false /\
  exists m,
    Codex.callback t0 (child_fails "PLEASE RUN `codex login` first" []) sys_two_failures
    = (Ok (ok_false auth (Some false) m), sys_two_failures).
Proof.
  split; [reflexivity |]. split; [reflexivity |].
  apply (auth_cue_without_rate_cue_gives_auth t0
           (child_fails "PLEASE RUN `codex login` first" []) exit_1
           sys_two_failures eq_refl eq_refl).
  right. split.
  - exists "", "PLEASE RUN", " `codex login` first". split; reflexivity.
  - exists "PLEASE RUN `", "codex login", "` first". split; reflexivity.
Defined.

(** X7.  A failed [codex] run whose diagnostic has a server cue, for
    instance the digits 500 anywhere in it, and neither a rate-limit nor
    an authentication cue is reported as [server_error], and a failure is
    recorded. *)
Theorem server_cue_gives_server_error
        (done : Z) (r : ChildResult) (err : ExecError) (cue : string) (s : Sys) :
  child_error r = Some err ->
  Codex.isRateLimitError (stderr r) = false ->
  Codex.isAuthError (stderr r) = false ->
  In cue server_cues ->
  has_cue (stderr r) cue ->
  exists m,
    Codex.callback done r s
    = (Ok (ok_false server_error (Some false) m), snd (recordFailure done s)).
Proof.
  intros Herr Hrl Hauth Hin Hcue.
  assert (Hsrv : Codex.isServerError (stderr r) = true).
  { apply has_cue_lowered in Hcue. unfold Codex.isServerError. cbv zeta.
    unfold server_cues in Hin. simpl in Hin.
    destruct Hin as [<- | [<- | [<- | [<- | [<- | [<- | [<- | []]]]]]]];
      rewrite Hcue; rewrite ?orb_true_r; reflexivity. }
  destruct (callback_failure done r err s Herr) as [m Hm].
  unfold source_order, first_match in Hm. rewrite Hrl, Hauth, Hsrv in Hm.
  exists m. exact Hm.
Qed.

(** A diagnostic that mentions 15000 tokens. *)
Lemma server_cue_gives_server_error_witness :
  child_error (child_fails "context of 15000 tokens exceeded" []) = Some exit_1 /\
  In "500" server_cues /\
  has_cue (stderr (child_fails "context of 15000 tokens exceeded" [])) "500" /\
  exists m,
    Codex.callback t0 (child_fails "context of 15000 tokens exceeded" []) sys_no_file
    = (Ok (ok_false server_error (Some false) m), snd (recordFailure t0 sys_no_file)).
Proof.
  assert (Hcue : has_cue (stderr (child_fails "context of 15000 tokens exceeded" [])) "500").
  { exists "context of 1", "500", "0 tokens exceeded". split; reflexivity. }
  split; [reflexivity |]. split; [simpl; tauto |]. split; [exact Hcue |].
  apply (server_cue_gives_server_error t0
           (child_fails "context of 15000 tokens exceeded" []) exit_1 "500"
           sys_no_file eq_refl eq_refl eq_refl).
  - simpl; tauto.
  - exact Hcue.
Defined.

(** X8.  The rate-limit tests of the three scripts are nested: what
    gemini-cli takes for a rate limit, openai-cli-improved does too, and
    what openai-cli-improved takes for one, qwen-cli does too.  In
    openai-cli-improved the cue [insufficient_quota] never decides: the
    test is the same without it. *)
Theorem rate_limit_tests_are_nested (text : string) :
  (Gemini.isRateLimitError text = true -> Codex.isRateLimitError text = true) /\
  (Codex.isRateLimitError text = true -> Qwen.isRateLimitError text = true) /\
  Codex.isRateLimitError text
  = (JS.includes (JS.toLowerCase text) "rate limit" ||
     JS.includes (JS.toLowerCase text) "quota" ||
     JS.includes (JS.toLowerCase text) "billing hard limit" ||
     JS.includes (JS.toLowerCase text) "too many requests")%bool.
Proof.
  unfold Gemini.isRateLimitError, Codex.isRateLimitError, Qwen.isRateLimitError.
  cbv zeta. set (msg := JS.toLowerCase text).
  assert (Hq : JS.includes msg "insufficient_quota" = true ->
               JS.includes msg "quota" = true).
  { intros H. apply (includes_trans _ _ _ H). reflexivity. }
  assert (Hb : JS.includes msg "billing hard limit" = true ->
               JS.includes msg "billing" = true).
  { intros H. apply (includes_trans _ _ _ H). reflexivity. }
  destruct (JS.includes msg "rate limit"),
           (JS.includes msg "quota") eqn:Equota,
           (JS.includes msg "billing hard limit") eqn:Ebill,
           (JS.includes msg "insufficient_quota") eqn:Eins,
           (JS.includes msg "too many requests"),
           (JS.includes msg "billing") eqn:Eb;
    try (specialize (Hq eq_refl); discriminate);
    try (specialize (Hb eq_refl); discriminate);
    repeat split; intros; try reflexivity; try discriminate.
Qed.

(** A quota message in capitals. *)
Lemma rate_limit_tests_are_nested_witness :
  Gemini.isRateLimitError "QUOTA exceeded for today" = true /\
  Codex.isRateLimitError "QUOTA exceeded for today" = true /\
  Qwen.isRateLimitError "QUOTA exceeded for today" = true.
Proof.
  pose proof (rate_limit_tests_are_nested "QUOTA exceeded for today") as (H1 & H2 & _).
  split; [reflexivity |].
  split; [exact (H1 eq_refl) | exact (H2 (H1 eq_refl))].
Defined.

(* ================================================================== *)
(** ** Provider processes: how many, and with which arguments *)
(* ================================================================== *)

Lemma recordFailure_calls (t : Z) (s : Sys) : calls (snd (recordFailure t s)) = calls s.
Proof. rewrite recordFailure_eq. apply saved_calls. Qed.

Lemma recordSuccess_calls (t : Z) (s : Sys) : calls (snd (recordSuccess t s)) = calls s.
Proof. rewrite recordSuccess_eq. apply saved_calls. Qed.

Lemma callback_calls (done : Z) (r : ChildResult) (s : Sys) :
  exists res s', Codex.callback done r s = (Ok res, s') /\ calls s' = calls s.
Proof.
  destruct (child_error r) as [err |] eqn:E.
  - destruct (callback_failure done r err s E) as [m Hm].
    eexists _, _. split; [exact Hm |].
    destruct (counted _); [apply recordFailure_calls | reflexivity].
  - eexists _, _. split; [apply callback_success, E | apply recordSuccess_calls].
Qed.

(** X9.  Whatever a call of [runCodex] ends with, it has called
    [execFile] for [codex] at most once: not at all, with the system
    untouched, when the breaker is open, and exactly once when it is
    closed.  The prompt is handed over as the single last argument,
    after [exec] and at most three option pairs. *)
Theorem runCodex_spawns_at_most_once
        (now done : Z) (child : list string -> ChildResult)
        (p : string) (model sandbox approvalPolicy : option string) (s : Sys)
        (out : Outcome RunResult) (s' : Sys) :
  Codex.runCodex now done child p model sandbox approvalPolicy s = (out, s') ->
  (forall m, fst (isCircuitBreakerOpen now s) = Ok (Open m) -> s' = s) /\
  (fst (isCircuitBreakerOpen now s) = Ok Closed ->
   exists opts,
     calls s' = (calls s ++ [ExecFile "codex" (opts ++ ["exec"; p])])%list /\
     (List.length opts <= 6)%nat) /\
  (exists started,
     calls s' = (calls s ++ started)%list /\ (List.length started <= 1)%nat).
Proof.
  intros Hrun.
  assert (Hclosed : fst (isCircuitBreakerOpen now s) = Ok Closed ->
            exists opts,
              calls s' = (calls s ++ [ExecFile "codex" (opts ++ ["exec"; p])])%list /\
              (List.length opts <= 6)%nat).
  { intros Hc. rewrite (runCodex_closed _ _ _ _ _ _ _ _ Hc) in Hrun.
    match type of Hrun with Codex.callback done ?r ?s1 = _ =>
      destruct (callback_calls done r s1) as (res & s2 & Hcb & Hcalls)
    end.
    rewrite Hcb in Hrun. injection Hrun as _ <-.
    exists (push_opt "--sandbox" sandbox ++ push_opt "--ask-for-approval" approvalPolicy
            ++ push_opt "-m" model)%list.
    split.
    + rewrite Hcalls. cbn [execFile snd calls]. unfold Codex.build_args.
      now rewrite <- !app_assoc.
    + rewrite !length_app.
      assert (Hp : forall f v, (List.length (push_opt f v) <= 2)%nat).
      { intros f [v |]; simpl; [destruct (JS.truthy v); simpl; lia | lia]. }
      pose proof (Hp "--sandbox" sandbox). pose proof (Hp "--ask-for-approval" approvalPolicy).
      pose proof (Hp "-m" model). lia. }
  assert (Hopen : forall m, fst (isCircuitBreakerOpen now s) = Ok (Open m) -> s' = s).
  { intros m Ho. rewrite (runCodex_open _ _ _ _ _ _ _ _ _ Ho) in Hrun.
    now injection Hrun as _ <-. }
  split; [exact Hopen |]. split; [exact Hclosed |].
  destruct (fst (isCircuitBreakerOpen now s)) as [[m |] | e] eqn:E.
  - exists []. rewrite (Hopen m eq_refl), app_nil_r. split; [reflexivity | simpl; lia].
  - destruct (Hclosed eq_refl) as (opts & Hc & _).
    eexists. split; [exact Hc | simpl; lia].
  - rewrite isCircuitBreakerOpen_eq in E. discriminate.
Qed.

(** A run on a system without a state file. *)
Lemma runCodex_spawns_at_most_once_witness :
  Codex.runCodex t0 t0 (child_prints "ok") "--help" (Some "o3-mini")
                 (Some "read-only") None sys_no_file
  = (Ok (ok_true "ok"),
     mkSys (Some (Encoded (mkState [] t0))) true true
           [ExecFile "codex" ["--sandbox"; "read-only"; "-m"; "o3-mini"; "exec"; "--help"]]) /\
  exists started,
    calls (mkSys (Some (Encoded (mkState [] t0))) true true
             [ExecFile "codex" ["--sandbox"; "read-only"; "-m"; "o3-mini"; "exec"; "--help"]])
    = (calls sys_no_file ++ started)%list /\
    (List.length started <= 1)%nat.
Proof.
  split; [reflexivity |].
  exact (proj2 (proj2 (runCodex_spawns_at_most_once
                         t0 t0 (child_prints "ok") "--help" (Some "o3-mini")
                         (Some "read-only") None sys_no_file _ _ eq_refl))).
Defined.

Example runCodex_arguments :
  calls (snd (Codex.runCodex t0 t0 (child_prints "ok") "--help" (Some "o3-mini")
                (Some "read-only") None sys_no_file))
  = [ExecFile "codex" ["--sandbox"; "read-only"; "-m"; "o3-mini"; "exec"; "--help"]].
Proof. reflexivity. Qed.

Lemma approval_args_shape (approvalMode : option string) (yolo : bool) :
  Qwen.approval_args approvalMode yolo = [] \/
  exists mode, Qwen.approval_args approvalMode yolo = ["--approval-mode"; mode] /\
               (approvalMode = Some mode \/
                (given approvalMode = false /\ yolo = true /\ mode = "yolo")).
Proof.
  unfold Qwen.approval_args, given, push_opt.
  destruct approvalMode as [m |].
  - destruct (JS.truthy m).
    + right. exists m. split; [reflexivity | now left].
    + destruct yolo; [right; exists "yolo"; split; [reflexivity | now right] | now left].
  - destruct yolo; [right; exists "yolo"; split; [reflexivity | now right] | now left].
Qed.

(** X10.  [runQwen] and [runGemini] start exactly one process each, with
    the prompt as the single last argument after at most one [--model]
    pair and at most one [--approval-mode] pair (an explicit approval
    mode wins over [yolo]); neither reads or writes the breaker state:
    the system differs only by the recorded spawn. *)
Theorem runQwen_runGemini_spawn_once
        (child : list string -> ChildResult)
        (p : string) (model approvalMode : option string) (yolo : bool) (s : Sys) :
  exists mopts aopts,
    (mopts = [] \/ exists m, model = Some m /\ mopts = ["--model"; m]) /\
    (aopts = [] \/
     exists mode, aopts = ["--approval-mode"; mode] /\
                  (approvalMode = Some mode \/
                   (given approvalMode = false /\ yolo = true /\ mode = "yolo"))) /\
    (exists res,
       Qwen.runQwen child p model yolo approvalMode s
       = (Ok res, mkSys (content s) (readable s) (writable s)
                        (calls s ++ [ExecFile "qwen" (mopts ++ aopts ++ [p])])%list)) /\
    (exists res,
       Gemini.runGemini child p model yolo approvalMode s
       = (Ok res, mkSys (content s) (readable s) (writable s)
                        (calls s ++ [ExecFile "gemini" (mopts ++ aopts ++ [p])])%list)).
Proof.
  exists (push_opt "--model" model), (Qwen.approval_args approvalMode yolo).
  split; [| split; [| split]].
  - destruct model as [v |]; simpl; [| now left].
    destruct (JS.truthy v); [right; now exists v | now left].
  - apply approval_args_shape.
  - unfold Qwen.runQwen, Qwen.callback, bind, execFile. cbv beta iota.
    destruct (child_error _) as [err |]; [| eexists; reflexivity].
    destruct (Qwen.isRateLimitError _); [eexists; reflexivity |].
    destruct (Qwen.isAuthError _); [eexists; reflexivity |].
    destruct (Codex.is_ENOENT _); eexists; reflexivity.
  - unfold Gemini.runGemini, Gemini.callback, bind, execFile. cbv beta iota.
    destruct (child_error _) as [err |]; [| eexists; reflexivity].
    destruct (Gemini.isRateLimitError _); [eexists; reflexivity |].
    destruct (Gemini.isAuthError _); [eexists; reflexivity |].
    destruct (Codex.is_ENOENT _); eexists; reflexivity.
Qed.

(* ================================================================== *)
(** ** The scripts' mains: validation and exit codes *)
(* ================================================================== *)

(** X11.  openai-cli-improved, gemini-cli and zai-cli reject an input
    that is too large (where limited), not JSON, or without a non-empty
    string prompt by exiting with 1 and printing no response; the
    breaker state is not read or written and no provider is contacted. *)
Theorem invalid_input_exits_before_any_effect
        (now done : Z) (child : list string -> ChildResult) (http : Zai.HttpOutcome)
        (apiKey : option string) (totalSize : Z) (input : Stdin) (s : Sys) :
  (CodexMain.MAX_INPUT_SIZE <? totalSize) = true \/ valid_prompt input = false ->
  CodexMain.main now done child totalSize input s = (Ok (mkExit 1 None), s) /\
  Zai.main now done http apiKey totalSize input s = (Ok (mkExit 1 None), s) /\
  (valid_prompt input = false ->
   GeminiMain.main child input s = (Ok (mkExit 1 None), s)).
Proof.
  intros H.
  unfold CodexMain.main, CodexMain.body, Zai.main, Zai.body,
         GeminiMain.main, GeminiMain.body, try_catch, bind.
  destruct (CodexMain.MAX_INPUT_SIZE <? totalSize).
  - split; [reflexivity | split; [reflexivity |]].
    intros Hv. destruct input as [| raw | | pl]; try reflexivity.
    cbn [valid_prompt] in Hv. destruct (prompt pl) as [| p | b txt]; try reflexivity.
    now rewrite Hv.
  - destruct H as [H | Hv]; [discriminate |].
    destruct input as [| raw | | pl]; try (repeat split; reflexivity).
    cbn [valid_prompt] in Hv.
    destruct (prompt pl) as [| p | b txt]; try (repeat split; reflexivity).
    rewrite Hv. repeat split; reflexivity.
Qed.

(** A payload whose prompt is a number. *)
Lemma invalid_input_exits_before_any_effect_witness :
  valid_prompt (Object (mkPayload (JOther true "42") None None None None false)) = false /\
  CodexMain.main t0 t0 (child_prints "unused") 14
    (Object (mkPayload (JOther true "42") None None None None false)) sys_three_failures
  = (Ok (mkExit 1 None), sys_three_failures) /\
  Zai.main t0 t0 Zai.RequestTimeout (Some "key") 14
    (Object (mkPayload (JOther true "42") None None None None false)) sys_three_failures
  = (Ok (mkExit 1 None), sys_three_failures).
Proof.
  split; [reflexivity |].
  pose proof (invalid_input_exits_before_any_effect t0 t0 (child_prints "unused")
                Zai.RequestTimeout (Some "key") 14
                (Object (mkPayload (JOther true "42") None None None None false))
                sys_three_failures (or_intror eq_refl)) as H.
  split; [exact (proj1 H) | exact (proj1 (proj2 H))].
Defined.

Lemma on_outcome_returns (done : Z) (o : Zai.HttpOutcome) (s : Sys) :
  exists res s', Zai.on_outcome done o s = (Ok res, s') /\ calls s' = calls s.
Proof.
  unfold Zai.on_outcome, bind.
  destruct o as [code body | msg | ].
  - destruct ((code =? 200) || (code =? 201))%bool.
    + destruct body as [data msg | data blocks].
      * eexists _, _. split; reflexivity.
      * rewrite recordSuccess_eq. eexists _, _. split; [reflexivity | apply saved_calls].
    + destruct (code =? 401); [eexists _, _; split; reflexivity |].
      destruct (code =? 429);
        [rewrite recordFailure_eq; eexists _, _; split; [reflexivity | apply saved_calls] |].
      destruct (500 <=? code);
        rewrite recordFailure_eq; eexists _, _; (split; [reflexivity | apply saved_calls]).
  - rewrite recordFailure_eq. eexists _, _. split; [reflexivity | apply saved_calls].
  - rewrite recordFailure_eq. eexists _, _. split; [reflexivity | apply saved_calls].
Qed.

Lemma makeRequest_returns (now done : Z) (http : Zai.HttpOutcome)
      (p : string) (model apiKey : option string) (s : Sys) :
  exists res s', Zai.makeRequest now done http p model apiKey s = (Ok res, s').
Proof.
  unfold Zai.makeRequest, bind. rewrite isCircuitBreakerOpen_eq.
  destruct (circuit_view now (loaded now s)); [eexists _, _; reflexivity |].
  destruct (negb (given apiKey)); [eexists _, _; reflexivity |].
  unfold Zai.request at 1. cbv beta iota.
  match goal with |- context [Zai.on_outcome done http ?s1] =>
    destruct (on_outcome_returns done http s1) as (res & s' & H & _)
  end.
  eexists _, _. exact H.
Qed.

(** X12.  zai-cli exits with 0 exactly when it printed a success
    response and with 1 otherwise; a failure response is marked
    [retryable: true] exactly for the types [timeout] and
    [server_error]. *)
Theorem zai_exit_code_and_retryable
        (now done : Z) (http : Zai.HttpOutcome) (apiKey : option string)
        (totalSize : Z) (input : Stdin) (s : Sys) :
  exists e s',
    Zai.main now done http apiKey totalSize input s = (Ok e, s') /\
    (exit_code e = 0 \/ exit_code e = 1) /\
    (exit_code e = 0 <-> exists out, printed e = Some (resp_success "zai" out)) /\
    (exit_code e = 1 /\ printed e <> None <->
     exists t m (b : bool),
       printed e = Some (resp_failure "zai" t (Some b) m) /\
       (b = true <-> t = timeout \/ t = server_error)).
Proof.
  assert (Hfail : forall s0 : Sys,
    exists e s',
      (Ok (mkExit 1 None), s0) = (Ok e, s') /\
      (exit_code e = 0 \/ exit_code e = 1) /\
      (exit_code e = 0 <-> exists out, printed e = Some (resp_success "zai" out)) /\
      (exit_code e = 1 /\ printed e <> None <->
       exists t m (b : bool),
         printed e = Some (resp_failure "zai" t (Some b) m) /\
         (b = true <-> t = timeout \/ t = server_error))).
  { intros s0. eexists _, _. split; [reflexivity |]. cbn [exit_code printed].
    split; [now right |]. split.
    - split; [discriminate | intros [? ?]; discriminate].
    - split; [intros [_ H]; now contradiction H | intros (? & ? & ? & ? & _); discriminate]. }
  unfold Zai.main, Zai.body, try_catch, bind.
  destruct (CodexMain.MAX_INPUT_SIZE <? totalSize); [apply Hfail |].
  destruct input as [| raw | | pl]; cbv beta iota; try apply Hfail.
  destruct (prompt pl) as [| p | b txt]; try apply Hfail.
  destruct (JS.truthy p); try apply Hfail.
  destruct (makeRequest_returns now done http p (model pl) apiKey s)
    as (res & s' & Hrun).
  rewrite Hrun. destruct res as [out | t rt m]; eexists _, _;
    (split; [reflexivity |]); cbn [exit_code printed].
  - split; [now left |]. split; [split; [intros _; now exists out | reflexivity] |].
    split; [intros [H _]; discriminate | intros (? & ? & ? & ? & _); discriminate].
  - split; [now right |]. split; [split; [discriminate | intros [? ?]; discriminate] |].
    split; [intros _ | intros _; split; [reflexivity | discriminate]].
    exists t, m, (Zai.is_retryable t). split; [reflexivity |].
    destruct t; cbn [Zai.is_retryable]; split; intros H;
      try discriminate; try reflexivity; try (destruct H; discriminate);
      try (now left); try (now right).
Qed.

Lemma runGemini_returns (child : list string -> ChildResult)
      (p : string) (model approvalMode : option string) (yolo : bool) (s : Sys) :
  exists res s', Gemini.runGemini child p model yolo approvalMode s = (Ok res, s').
Proof.
  unfold Gemini.runGemini, Gemini.callback, bind, execFile. cbv beta iota.
  destruct (child_error _) as [err |]; [| eexists _, _; reflexivity].
  destruct (Gemini.isRateLimitError _); [eexists _, _; reflexivity |].
  destruct (Gemini.isAuthError _); [eexists _, _; reflexivity |].
  destruct (Codex.is_ENOENT _); eexists _, _; reflexivity.
Qed.

(** X13.  gemini-cli exits with 0 exactly when it printed a success
    response, and with 1 on every other run. *)
Theorem gemini_exit_zero_iff_success
        (child : list string -> ChildResult) (input : Stdin) (s : Sys) :
  exists e s',
    GeminiMain.main child input s = (Ok e, s') /\
    (exit_code e = 0 \/ exit_code e = 1) /\
    (exit_code e = 0 <-> exists out, printed e = Some (resp_success "gemini" out)).
Proof.
  assert (Hfail : forall s0 : Sys,
            exists e s', (Ok (mkExit 1 None), s0) = (Ok e, s') /\
                         (exit_code e = 0 \/ exit_code e = 1) /\
                         (exit_code e = 0 <->
                          exists out, printed e = Some (resp_success "gemini" out))).
  { intros s0. eexists _, _. split; [reflexivity |]. cbn [exit_code printed].
    split; [now right |]. split; [discriminate | intros [? ?]; discriminate]. }
  unfold GeminiMain.main, GeminiMain.body, try_catch, bind.
  destruct input as [| raw | | pl]; cbv beta iota; try apply Hfail.
  destruct (prompt pl) as [| p | b txt]; try apply Hfail.
  destruct (JS.truthy p); try apply Hfail.
  destruct (runGemini_returns child p (model pl) (approval_mode pl) (yolo pl) s)
    as (res & s' & Hrun).
  rewrite Hrun. destruct res as [out | t rt m]; eexists _, _;
    (split; [reflexivity |]); cbn [exit_code printed].
  - split; [now left |]. split; [intros _; now exists out | reflexivity].
  - split; [now right |]. split; [discriminate | intros [? ?]; discriminate].
Qed.

(* ================================================================== *)
(** ** zai-cli: the key, the request and the reply *)
(* ================================================================== *)

Lemma from_key_file_truthy (f : ZaiKey.KeyFile) (k : string) :
  ZaiKey.from_key_file f = Some k ->
  JS.truthy k = true /\ exists text, f = ZaiKey.key_file_text text /\ k = JS.trim text.
Proof.
  destruct f as [| | text]; cbn [ZaiKey.from_key_file]; try discriminate.
  destruct (JS.truthy (JS.trim text)) eqn:E; [| discriminate].
  intros H. injection H as <-. split; [exact E | now exists text].
Qed.

Lemma given_some (v : option string) (k : string) :
  v = Some k -> given v = true -> JS.truthy k = true.
Proof. intros -> H. exact H. Qed.

(** X14.  A key returned by [getApiKey] is never the empty string and
    comes from the first source that yields one: the trimmed text of the
    key file; else the variable ZAI_API_KEY; else the variable
    ANTHROPIC_AUTH_TOKEN, which is taken only when it does not start with
    [sk-ant-]; else the token of the settings file, taken only when its
    base URL contains [z.ai]. *)
Theorem getApiKey_sound (e : ZaiKey.KeyEnv) (k : string) :
  ZaiKey.getApiKey e = Some k ->
  JS.truthy k = true /\
  ((exists text, ZaiKey.zai_api_key_file e = ZaiKey.key_file_text text /\
                 k = JS.trim text) \/
   (ZaiKey.from_key_file (ZaiKey.zai_api_key_file e) = None /\
    ZaiKey.ZAI_API_KEY e = Some k) \/
   (ZaiKey.from_key_file (ZaiKey.zai_api_key_file e) = None /\
    given (ZaiKey.ZAI_API_KEY e) = false /\
    ZaiKey.ANTHROPIC_AUTH_TOKEN e = Some k /\
    JS.startsWith k "sk-ant-" = false) \/
   (ZaiKey.from_key_file (ZaiKey.zai_api_key_file e) = None /\
    given (ZaiKey.ZAI_API_KEY e) = false /\
    (given (ZaiKey.ANTHROPIC_AUTH_TOKEN e) = false \/
     JS.startsWith (ZaiKey.or_empty (ZaiKey.ANTHROPIC_AUTH_TOKEN e)) "sk-ant-" = true) /\
    exists url,
      ZaiKey.claude_settings e = ZaiKey.settings (Some url) (Some k) /\
      JS.includes url "z.ai" = true)).
Proof.
  unfold ZaiKey.getApiKey.
  destruct (ZaiKey.from_key_file (ZaiKey.zai_api_key_file e)) as [key |] eqn:Hfile.
  - intros H. injection H as <-.
    destruct (from_key_file_truthy _ _ Hfile) as [Ht Hsrc].
    split; [exact Ht | now left].
  - destruct (given (ZaiKey.ZAI_API_KEY e)) eqn:Hz.
    + intros H. split; [exact (given_some _ _ H Hz) |]. right; left. now split.
    + destruct (given (ZaiKey.ANTHROPIC_AUTH_TOKEN e)) eqn:Ha; cbn [andb].
      * destruct (JS.startsWith (ZaiKey.or_empty (ZaiKey.ANTHROPIC_AUTH_TOKEN e)) "sk-ant-")
          eqn:Hs; cbn [negb].
        -- intros H. unfold ZaiKey.from_settings in H.
           destruct (ZaiKey.claude_settings e) as [| | url tok] eqn:Hset; try discriminate.
           destruct (JS.includes (ZaiKey.or_empty url) "z.ai") eqn:Hu; [| discriminate].
           destruct (given tok) eqn:Hg; [| discriminate]. cbn [andb] in H.
           split; [exact (given_some _ _ H Hg) |]. right; right; right.
           repeat split; try reflexivity; [now right |].
           destruct url as [u |]; [| discriminate]. subst tok. now exists u.
        -- intros H. split; [exact (given_some _ _ H Ha) |]. right; right; left.
           repeat split; try reflexivity; try assumption.
           rewrite H in Hs. exact Hs.
      * intros H. unfold ZaiKey.from_settings in H.
        destruct (ZaiKey.claude_settings e) as [| | url tok] eqn:Hset; try discriminate.
        destruct (JS.includes (ZaiKey.or_empty url) "z.ai") eqn:Hu; [| discriminate].
        destruct (given tok) eqn:Hg; [| discriminate]. cbn [andb] in H.
        split; [exact (given_some _ _ H Hg) |]. right; right; right.
        repeat split; try reflexivity; [now left |].
        destruct url as [u |]; [| discriminate]. subst tok. now exists u.
Qed.

(** A key file with surrounding white space, next to an Anthropic token. *)
Lemma getApiKey_sound_witness :
  ZaiKey.getApiKey key_env_file_only = Some "zk-123" /\
  JS.truthy "zk-123" = true.
Proof.
  split; [reflexivity |].
  exact (proj1 (getApiKey_sound key_env_file_only "zk-123" eq_refl)).
Defined.

Example anthropic_token_is_not_used :
  ZaiKey.getApiKey (ZaiKey.mkKeyEnv ZaiKey.no_key_file None (Some "sk-ant-abc")
                                    ZaiKey.settings_throw) = None /\
  ZaiKey.getApiKey (ZaiKey.mkKeyEnv (ZaiKey.key_file_text "  ") (Some "")
                                    (Some "glm-token") ZaiKey.no_settings)
  = Some "glm-token".
Proof. split; reflexivity. Qed.

(** A key file that holds nothing but a no-break space and a line break
    yields no key; the variable [ZAI_API_KEY] is used. *)
Example getApiKey_skips_a_blank_key_file :
  ZaiKey.getApiKey (ZaiKey.mkKeyEnv (ZaiKey.key_file_text (utf8 160 ++ nl))
                                    (Some "zk-env") None ZaiKey.no_settings)
  = Some "zk-env".
Proof. reflexivity. Qed.

(** X15.  Without an API key [makeRequest] sends no request and does not
    change the breaker state: when the breaker is open it resolves with
    the [circuit_breaker] failure and the remaining minutes, and when
    the breaker is closed with an [auth] failure that tells how to
    configure a key. *)
Theorem makeRequest_without_key
        (now done : Z) (http : Zai.HttpOutcome) (p : string)
        (model apiKey : option string) (s : Sys) :
  given apiKey = false ->
  (forall m, fst (isCircuitBreakerOpen now s) = Ok (Open m) ->
     Zai.makeRequest now done http p model apiKey s
     = (Ok (ok_false circuit_breaker None (Zai.open_message m)), s)) /\
  (fst (isCircuitBreakerOpen now s) = Ok Closed ->
     Zai.makeRequest now done http p model apiKey s
     = (Ok (ok_false auth None Zai.no_key_message), s)).
Proof.
  intros Hk. split.
  - intros m Ho. now apply makeRequest_open.
  - intros Hc. apply open_view in Hc.
    unfold Zai.makeRequest, bind. rewrite isCircuitBreakerOpen_eq, Hc, Hk.
    reflexivity.
Qed.

(** No key file, no [ZAI_API_KEY], an Anthropic token and unreadable
    settings, with the breaker closed and then with the breaker open. *)
Lemma makeRequest_without_key_witness :
  given (ZaiKey.getApiKey (ZaiKey.mkKeyEnv ZaiKey.no_key_file None (Some "sk-ant-abc")
                                           ZaiKey.settings_throw)) = false /\
  Zai.makeRequest t0 t0 (Zai.Responded 200 (Zai.Json "{}" None)) "hi" None
    (ZaiKey.getApiKey (ZaiKey.mkKeyEnv ZaiKey.no_key_file None (Some "sk-ant-abc")
                                       ZaiKey.settings_throw))
    sys_two_failures
  = (Ok (ok_false auth None Zai.no_key_message), sys_two_failures).
Proof.
  split; [reflexivity |].
  apply (makeRequest_without_key t0 t0 (Zai.Responded 200 (Zai.Json "{}" None))
           "hi" None _ sys_two_failures); reflexivity.
Defined.

Example makeRequest_without_key_open_breaker :
  Zai.makeRequest (t0 + 120000) (t0 + 120000) (Zai.Responded 200 (Zai.Json "{}" None))
                  "hi" None None sys_three_failures
  = (Ok (ok_false circuit_breaker None (Zai.open_message 8)), sys_three_failures).
Proof. reflexivity. Qed.

Lemma extract_truthy (data : string) (content : option (list Zai.Block)) :
  JS.truthy data = true -> JS.truthy (Zai.extract data content) = true.
Proof.
  intros Hd. unfold Zai.extract. destruct content as [blocks |]; [| exact Hd].
  cbv zeta.
  destruct (JS.truthy (String.concat nl _)) eqn:E; [exact E | exact Hd].
Qed.

(** X16.  With the breaker closed and a key at hand, a reply with status
    200 or 201 and a JSON body makes [makeRequest] send one request,
    call [recordSuccess] and resolve with the text blocks of the reply
    joined by line feeds, or with the raw body when they give no text;
    the output is empty only if the body is. *)
Theorem makeRequest_success
        (now done : Z) (code : Z) (data : string) (blocks : option (list Zai.Block))
        (p : string) (model apiKey : option string) (s : Sys) :
  fst (isCircuitBreakerOpen now s) = Ok Closed ->
  given apiKey = true ->
  code = 200 \/ code = 201 ->
  Zai.makeRequest now done (Zai.Responded code (Zai.Json data blocks)) p model apiKey s
  = (Ok (ok_true (Zai.extract data blocks)),
     snd (recordSuccess done (snd (Zai.request (Zai.or_default model) p s)))) /\
  (exists body,
     calls (snd (Zai.request (Zai.or_default model) p s))
     = (calls s ++ [HttpsRequest Zai.ZAI_BASE_URL Zai.ZAI_API_PATH body])%list) /\
  (JS.truthy data = true -> JS.truthy (Zai.extract data blocks) = true).
Proof.
  intros Hc Hk Hcode. apply open_view in Hc.
  split; [| split; [eexists; reflexivity | apply extract_truthy]].
  unfold Zai.makeRequest, bind. rewrite isCircuitBreakerOpen_eq, Hc, Hk.
  cbn [negb]. unfold Zai.request at 1. cbv beta iota.
  unfold Zai.on_outcome, bind.
  assert (Hb : ((code =? 200) || (code =? 201))%bool = true).
  { destruct Hcode as [-> | ->]; reflexivity. }
  rewrite Hb, !recordSuccess_eq. reflexivity.
Qed.

(** A reply with a tool block between two text blocks. *)
Lemma makeRequest_success_witness :
  fst (isCircuitBreakerOpen t0 sys_two_failures) = Ok Closed /\
  Zai.makeRequest t0 (t0 + 900)
    (Zai.Responded 200
       (Zai.Json "{...}" (Some [Zai.mkBlock "text" "one"; Zai.mkBlock "tool_use" "x";
                                Zai.mkBlock "text" "two"])))
    "hi" None (Some "key") sys_two_failures
  = (Ok (ok_true ("one" ++ nl ++ "two")%string),
     snd (recordSuccess (t0 + 900)
            (snd (Zai.request (Zai.or_default None) "hi" sys_two_failures)))).
Proof.
  split; [reflexivity |].
  apply (proj1 (makeRequest_success t0 (t0 + 900) 200 "{...}"
                  (Some [Zai.mkBlock "text" "one"; Zai.mkBlock "tool_use" "x";
                         Zai.mkBlock "text" "two"])
                  "hi" None (Some "key") sys_two_failures
                  eq_refl eq_refl (or_introl eq_refl))).
Defined.

(** A failed [codex] run with a quota message, breaker closed. *)
Lemma runCodex_failure_policy_witness :
  fst (isCircuitBreakerOpen t0 sys_two_failures) = Ok Closed /\
  child_error (child_fails "quota exceeded" (Codex.build_args "hi" None None None))
  = Some exit_1 /\
  exists t m s',
    Codex.runCodex t0 (t0 + 5) (child_fails "quota exceeded") "hi" None None None
                   sys_two_failures
    = (Ok (ok_false t (Some false) m), s').
Proof.
  split; [reflexivity |]. split; [reflexivity |].
  destruct (runCodex_failure_policy t0 (t0 + 5) (child_fails "quota exceeded")
              "hi" None None None sys_two_failures exit_1 eq_refl eq_refl)
    as (t & m & s' & H & _).
  exists t, m, s'. exact H.
Defined.

(** A reply with status 503. *)
Lemma on_outcome_policy_witness :
  Zai.on_outcome (t0 + 5) (Zai.Responded 503 (Zai.NotJson "busy" "Unexpected token b"))
                 sys_two_failures
  = (Ok (ok_false server_error None
           "Z.ai server error: HTTP 503. Service may be temporarily unavailable."),
     snd (recordFailure (t0 + 5) sys_two_failures)) /\
  snd (recordFailure (t0 + 5) sys_two_failures)
  = (if counted server_error then snd (recordFailure (t0 + 5) sys_two_failures)
     else sys_two_failures).
Proof.
  split; [reflexivity |].
  apply (on_outcome_policy (t0 + 5)
           (Zai.Responded 503 (Zai.NotJson "busy" "Unexpected token b"))
           sys_two_failures server_error
           "Z.ai server error: HTTP 503. Service may be temporarily unavailable."
           (snd (recordFailure (t0 + 5) sys_two_failures)) eq_refl).
  intros code data msg H. injection H as <- _ _. split; discriminate.
Defined.

(* ================================================================== *)
(** ** gemini-accounts: rotation *)
(* ================================================================== *)

Module AccountFacts.
Import Accounts.

Lemma at_index_in_range (l : list Account) (i : Z) :
  0 <= i < Z.of_nat (List.length l) -> exists a, at_index l i = Some a.
Proof.
  intros [Hlo Hhi]. unfold at_index.
  destruct (Z.ltb_spec i 0); [lia |].
  destruct (nth_error l (Z.to_nat i)) as [a |] eqn:E; [now exists a |].
  apply nth_error_None in E. lia.
Qed.

Lemma at_index_some (l : list Account) (i : Z) (a : Account) :
  at_index l i = Some a -> 0 <= i < Z.of_nat (List.length l) /\ In a l.
Proof.
  unfold at_index. destruct (Z.ltb_spec i 0); [discriminate |].
  intros E. split.
  - assert (Z.to_nat i < List.length l)%nat by (apply nth_error_Some; congruence). lia.
  - eapply nth_error_In, E.
Qed.

Lemma mod_succ (a n : Z) : 0 < n -> ((a mod n) + 1) mod n = (a + 1) mod n.
Proof. intros Hn. now rewrite Z.add_mod_idemp_l by lia. Qed.

Lemma step_mod (cur start att n : Z) :
  0 < n -> 0 <= cur ->
  cur mod n = (start + att) mod n ->
  Z.rem (cur + 1) n = (start + (att + 1)) mod n.
Proof.
  intros Hn Hc Hmod.
  rewrite Z.rem_mod_nonneg by lia.
  rewrite <- (mod_succ cur n Hn), Hmod, (mod_succ _ n Hn).
  f_equal. lia.
Qed.

Lemma no_early_return (start k n : Z) :
  0 < n -> 0 <= start -> 0 < k < n -> (start + k) mod n <> start.
Proof.
  intros Hn Hs Hk Heq.
  pose proof (Z.mod_pos_bound (start + k) n Hn) as Hb.
  assert (Hsm : start mod n = start) by (apply Z.mod_small; lia).
  assert (Hd : (start + k - start) mod n = 0).
  { rewrite Zminus_mod, Heq, Hsm, Z.sub_diag. apply Z.mod_0_l. lia. }
  replace (start + k - start) with k in Hd by lia.
  rewrite Z.mod_small in Hd by lia. lia.
Qed.

(** [inactive_at l i]: the account at index [i] exists and is inactive. *)
Lemma rotate_loop_spec (accs : list Account) (start : Z) :
  let n := Z.of_nat (List.length accs) in
  0 <= start ->
  forall fuel cur att,
    0 <= cur -> 0 <= att < n ->
    Z.of_nat fuel = n - att ->
    cur mod n = (start + att) mod n ->
    (forall j, 1 <= j <= att ->
               exists b, at_index accs ((start + j) mod n) = Some b /\ active b = false) ->
    (exists k a,
       att < k <= n /\
       rotate_loop fuel accs (whole start) (whole cur) att
       = (rotated ((start + k) mod n) a, whole ((start + k) mod n)) /\
       at_index accs ((start + k) mod n) = Some a /\ active a = true /\
       forall j, 1 <= j < k ->
                 exists b, at_index accs ((start + j) mod n) = Some b /\ active b = false) \/
    (exists c, rotate_loop fuel accs (whole start) (whole cur) att
               = (no_active_accounts, c) /\
     forall j, 1 <= j <= n ->
               exists b, at_index accs ((start + j) mod n) = Some b /\ active b = false).
Proof.
  intros n Hstart. induction fuel as [| f IH]; intros cur att Hcur Hatt Hfuel Hmod Hseen.
  - simpl in Hfuel. lia.
  - assert (Hn : 0 < n) by lia.
    cbn [rotate_loop succ_rem differs]. fold n.
    rewrite (step_mod cur start att n Hn Hcur Hmod).
    pose proof (Z.mod_pos_bound (start + (att + 1)) n Hn) as Hrange.
    destruct (at_index_in_range accs _ Hrange) as [a Ha]. rewrite Ha.
    destruct (active a) eqn:Hact.
    + left. exists (att + 1), a. repeat split; try lia; try assumption.
      intros j Hj. apply Hseen. lia.
    + assert (Hseen' : forall j, 1 <= j <= att + 1 ->
                exists b, at_index accs ((start + j) mod n) = Some b /\ active b = false).
      { intros j Hj. destruct (Z.eq_dec j (att + 1)) as [-> | Hne].
        - now exists a.
        - apply Hseen. lia. }
      destruct (Z.ltb_spec (att + 1) n) as [Hlt | Hge].
      * destruct (Z.eqb_spec ((start + (att + 1)) mod n) start) as [Heq | Hne].
        -- exfalso.
           exact (no_early_return start (att + 1) n Hn Hstart ltac:(lia) Heq).
        -- cbn [negb andb].
           assert (Hmod' : ((start + (att + 1)) mod n) mod n = (start + (att + 1)) mod n)
             by (apply Z.mod_mod; lia).
           destruct (IH ((start + (att + 1)) mod n) (att + 1)
                        ltac:(lia) ltac:(lia) ltac:(lia) Hmod' Hseen')
             as [(k & a' & Hk & Hloop & Ha' & Hact' & Hbefore) | (c & Hloop & Hall)].
           ++ left. exists k, a'. repeat split; try lia; assumption.
           ++ right. exists c. split; assumption.
      * rewrite andb_false_r. right. eexists. split; [reflexivity |].
        intros j Hj. apply Hseen'. lia.
Qed.

Lemma all_inactive (accs : list Account) (start : Z) :
  let n := Z.of_nat (List.length accs) in
  (forall j, 1 <= j <= n ->
             exists b, at_index accs ((start + j) mod n) = Some b /\ active b = false) ->
  Forall inactive accs.
Proof.
  intros n Hall. apply Forall_forall. intros a Hin.
  apply In_nth_error in Hin. destruct Hin as [i Hi].
  assert (Hlt : (i < List.length accs)%nat) by (apply nth_error_Some; congruence).
  assert (Hn : 0 < n) by lia.
  set (j := (Z.of_nat i - start) mod n).
  pose proof (Z.mod_pos_bound (Z.of_nat i - start) n Hn) as Hj.
  assert (Hidx : (start + j) mod n = Z.of_nat i).
  { unfold j. rewrite Z.add_mod_idemp_r by lia.
    replace (start + (Z.of_nat i - start)) with (Z.of_nat i) by lia.
    apply Z.mod_small. lia. }
  assert (Hex : exists j', 1 <= j' <= n /\ (start + j') mod n = Z.of_nat i).
  { destruct (Z.eq_dec j 0) as [E | NE].
    - exists n. split; [lia |].
      rewrite <- Hidx, E, Z.add_0_r.
      rewrite <- Z.add_mod_idemp_r by lia.
      rewrite Z.mod_same by lia. now rewrite Z.add_0_r.
    - exists j. split; [fold j in Hj; lia | exact Hidx]. }
  destruct Hex as (j' & Hj' & Hidx').
  destruct (Hall j' Hj') as (b & Hb & Hinact).
  rewrite Hidx' in Hb. unfold at_index in Hb.
  destruct (Z.ltb_spec (Z.of_nat i) 0); [lia |].
  rewrite Nat2Z.id, Hi in Hb. injection Hb as ->. exact Hinact.
Qed.

Lemma rotateToNext_spec (config : Config) (cur : Z) :
  let n := Z.of_nat (List.length (accounts config)) in
  current_index config = whole cur ->
  0 <= cur -> accounts config <> [] ->
  (exists k a,
     1 <= k <= n /\
     rotateToNext config
     = mkStep (rotated ((cur + k) mod n) a)
              (mkConfig (accounts config) (whole ((cur + k) mod n)) (strategy config))
              true /\
     at_index (accounts config) ((cur + k) mod n) = Some a /\ active a = true /\
     forall j, 1 <= j < k ->
               exists b, at_index (accounts config) ((cur + j) mod n) = Some b /\
                         active b = false) \/
  (reply (rotateToNext config) = no_active_accounts /\
   saved (rotateToNext config) = false /\
   Forall inactive (accounts config)).
Proof.
  intros n Hidx Hcur Hne.
  assert (Hn : 0 < n).
  { unfold n. destruct (accounts config); [congruence | simpl; lia]. }
  assert (Hunfold :
    rotateToNext config
    = let '(r, c) := rotate_loop (List.length (accounts config)) (accounts config)
                                 (whole cur) (whole cur) 0 in
      mkStep r (mkConfig (accounts config) c (strategy config))
             (match r with rotated _ _ => true | _ => false end)).
  { unfold rotateToNext. rewrite Hidx.
    destruct (accounts config); [congruence | reflexivity]. }
  rewrite Hunfold.
  pose proof (rotate_loop_spec (accounts config) cur) as H.
  cbv zeta in H. fold n in H.
  specialize (H Hcur (List.length (accounts config)) cur 0 Hcur).
  assert (H0 : 0 <= 0 < n) by lia.
  assert (H1 : Z.of_nat (List.length (accounts config)) = n - 0) by (unfold n; lia).
  assert (H2 : cur mod n = (cur + 0) mod n) by (now rewrite Z.add_0_r).
  assert (H3 : forall j, 1 <= j <= 0 ->
                 exists b, at_index (accounts config) ((cur + j) mod n) = Some b /\
                           active b = false) by (intros j Hj; lia).
  destruct (H H0 H1 H2 H3) as
    [(k & a & Hk & Hloop & Ha & Hact & Hbefore) | (c & Hloop & Hall)].
  - left. exists k, a. rewrite Hloop.
    repeat split; try lia; assumption.
  - right. rewrite Hloop. cbn [reply saved].
    repeat split. apply (all_inactive (accounts config) cur). exact Hall.
Qed.

(** A current index that is no integer, and stays none when 1 is added:
    the first round of the loop throws and nothing is saved. *)
Lemma rotateToNext_fraction (config : Config) (b : Z) :
  current_index config = fraction b None -> accounts config <> [] ->
  reply (rotateToNext config) = threw /\ saved (rotateToNext config) = false.
Proof.
  intros Hidx Hne. unfold rotateToNext. rewrite Hidx.
  destruct (accounts config) as [| a l]; [congruence |].
  split; reflexivity.
Qed.

End AccountFacts.

(** X17.  With a current index that is a non-negative integer and at
    least one account, [rotateToNext] ends without an exception and
    within its loop bound.  It makes current, and saves, the first
    active account that follows the current position in cyclic order
    (possibly the current account itself, after a full round); only when
    every account is inactive does it answer [no_active_accounts],
    saving nothing. *)
Theorem rotateToNext_finds_next_active (config : Accounts.Config) (cur : Z) :
  Accounts.current_index config = Accounts.whole cur ->
  0 <= cur ->
  Accounts.accounts config <> [] ->
  (exists k a,
     1 <= k <= Z.of_nat (List.length (Accounts.accounts config)) /\
     Accounts.rotateToNext config
     = Accounts.mkStep
         (Accounts.rotated
            ((cur + k) mod Z.of_nat (List.length (Accounts.accounts config))) a)
         (Accounts.mkConfig (Accounts.accounts config)
            (Accounts.whole
               ((cur + k) mod Z.of_nat (List.length (Accounts.accounts config))))
            (Accounts.strategy config))
         true /\
     Accounts.at_index (Accounts.accounts config)
       ((cur + k) mod Z.of_nat (List.length (Accounts.accounts config))) = Some a /\
     Accounts.active a = true /\
     forall j, 1 <= j < k ->
       exists b,
         Accounts.at_index (Accounts.accounts config)
           ((cur + j) mod Z.of_nat (List.length (Accounts.accounts config))) = Some b /\
         Accounts.active b = false) \/
  (Accounts.reply (Accounts.rotateToNext config) = Accounts.no_active_accounts /\
   Accounts.saved (Accounts.rotateToNext config) = false /\
   Forall Accounts.inactive (Accounts.accounts config)).
Proof.
  intros Hidx Hcur Hne. exact (AccountFacts.rotateToNext_spec config cur Hidx Hcur Hne).
Qed.

Example rotate_skips_inactive :
  Accounts.rotateToNext three_accounts
  = Accounts.mkStep (Accounts.rotated 2 (acct "c" true))
      (Accounts.mkConfig [acct "a" true; acct "b" false; acct "c" true]
                         (Accounts.whole 2) "free_first")
      true.
Proof. reflexivity. Qed.

(** The integer index is needed: on the index one half, which [set]
    accepts and saves, [rotateToNext] throws. *)
Example rotate_throws_on_a_fractional_index :
  Accounts.rotateToNext
    (Accounts.mkConfig [acct "a" true; acct "b" false; acct "c" true]
                       one_half "free_first")
  = Accounts.mkStep Accounts.threw
      (Accounts.mkConfig [acct "a" true; acct "b" false; acct "c" true]
                         one_half "free_first")
      false.
Proof. reflexivity. Qed.

Lemma rotateToNext_finds_next_active_witness :
  Accounts.current_index three_accounts = Accounts.whole 0 /\
  Accounts.accounts three_accounts <> [] /\
  ((exists k a,
      1 <= k <= Z.of_nat (List.length (Accounts.accounts three_accounts)) /\
      Accounts.rotateToNext three_accounts
      = Accounts.mkStep
          (Accounts.rotated
             ((0 + k) mod Z.of_nat (List.length (Accounts.accounts three_accounts))) a)
          (Accounts.mkConfig (Accounts.accounts three_accounts)
             (Accounts.whole
                ((0 + k) mod Z.of_nat (List.length (Accounts.accounts three_accounts))))
             (Accounts.strategy three_accounts))
          true /\
      Accounts.at_index (Accounts.accounts three_accounts)
        ((0 + k) mod Z.of_nat (List.length (Accounts.accounts three_accounts))) = Some a /\
      Accounts.active a = true /\
      forall j, 1 <= j < k ->
        exists b,
          Accounts.at_index (Accounts.accounts three_accounts)
            ((0 + j) mod Z.of_nat (List.length (Accounts.accounts three_accounts))) = Some b /\
          Accounts.active b = false) \/
   (Accounts.reply (Accounts.rotateToNext three_accounts) = Accounts.no_active_accounts /\
    Accounts.saved (Accounts.rotateToNext three_accounts) = false /\
    Forall Accounts.inactive (Accounts.accounts three_accounts))).
Proof.
  split; [reflexivity |]. split; [discriminate |].
  apply (rotateToNext_finds_next_active three_accounts 0);
    [reflexivity | discriminate | discriminate].
Defined.

(* ================================================================== *)
(** ** gemini-accounts: removing, selecting, masking *)
(* ================================================================== *)

Module AccountListFacts.
Import Accounts.

Lemma findIndex_first (nm : string) (l1 : list Account) (a : Account) (l2 : list Account) :
  name a = nm -> Forall (fun b => name b <> nm) l1 ->
  findIndex nm (l1 ++ a :: l2) = Some (List.length l1) /\
  splice1 (List.length l1) (l1 ++ a :: l2) = (l1 ++ l2)%list.
Proof.
  intros Ha Hl1. induction Hl1 as [| b l1 Hb _ [IHf IHs]]; cbn [app findIndex splice1 List.length].
  - apply String.eqb_eq in Ha. rewrite Ha. split; reflexivity.
  - apply String.eqb_neq in Hb. rewrite Hb, IHf, IHs. split; reflexivity.
Qed.

Lemma findIndex_none (nm : string) (l : list Account) :
  Forall (fun b => name b <> nm) l -> findIndex nm l = None.
Proof.
  induction 1 as [| b l Hb _ IH]; cbn [findIndex]; [reflexivity |].
  apply String.eqb_neq in Hb. now rewrite Hb, IH.
Qed.

Lemma findIndex_bound (nm : string) (l : list Account) (i : nat) :
  findIndex nm l = Some i -> (i < List.length l)%nat.
Proof.
  revert i. induction l as [| a l IH]; cbn [findIndex]; intros i; [discriminate |].
  destruct (String.eqb (name a) nm).
  - intros H. injection H as <-. simpl. lia.
  - destruct (findIndex nm l) as [k |]; [| discriminate].
    intros H. injection H as <-. specialize (IH k eq_refl). simpl. lia.
Qed.

Lemma splice1_length (i : nat) (l : list Account) :
  (i < List.length l)%nat -> List.length (splice1 i l) = (List.length l - 1)%nat.
Proof.
  revert i. induction l as [| a l IH]; intros i Hi; [simpl in Hi; lia |].
  destruct i as [| i]; cbn [splice1 List.length]; [lia |].
  simpl in Hi. rewrite IH by lia. lia.
Qed.

Lemma flip_first_length (nm : string) (l : list Account) (b : bool) (l' : list Account) :
  flip_first nm l = Some (b, l') -> List.length l' = List.length l.
Proof.
  revert b l'. induction l as [| a l IH]; cbn [flip_first]; intros b l'; [discriminate |].
  destruct (String.eqb (name a) nm).
  - intros H. injection H as _ <-. reflexivity.
  - destruct (flip_first nm l) as [[b0 r] |]; [| discriminate].
    intros H. injection H as _ <-. simpl. now rewrite (IH b0 r eq_refl).
Qed.

Lemma removeAccount_valid (config : Config) (nm : string) (z : Z) :
  current_index config = whole z -> 0 <= z ->
  valid_index (file_after (removeAccount config nm) config) \/
  file_after (removeAccount config nm) config = config.
Proof.
  intros Hidx Hcur. unfold removeAccount.
  destruct (findIndex nm (accounts config)) as [i |]; [| now right].
  left. unfold file_after, valid_index. cbn [saved config_after accounts current_index].
  rewrite Hidx. unfold num_ge. cbn [floor].
  destruct (Z.leb_spec (Z.of_nat (List.length (splice1 i (accounts config)))) z);
    eexists; (split; [reflexivity | lia]).
Qed.

Lemma run_action_valid (a : Action) (config : Config) :
  integer_index a = true ->
  valid_index config -> valid_index (file_after (run_action a config) config).
Proof.
  intros Hint Hv.
  assert (Hset_name : forall nm, valid_index (file_after (set_by_name config nm) config)).
  { intros nm. unfold set_by_name.
    destruct (findIndex nm (accounts config)) as [i |] eqn:Hf; [| exact Hv].
    apply findIndex_bound in Hf.
    unfold file_after, valid_index. cbn [saved config_after accounts current_index].
    eexists. split; [reflexivity | lia]. }
  assert (Hset_index : forall i, valid_index (file_after (set_by_index config (whole i)) config)).
  { intros i. unfold set_by_index, num_lt, num_ge. cbn [floor at_number].
    destruct (Z.ltb_spec i 0); cbn [orb]; [exact Hv |].
    destruct (Z.leb_spec (Z.of_nat (List.length (accounts config))) i); [exact Hv |].
    destruct (at_index (accounts config) i);
      unfold file_after, valid_index; cbn [saved config_after accounts current_index];
      eexists; (split; [reflexivity | lia]). }
  destruct Hv as (z & Hidx & Hz).
  assert (Hv : valid_index config) by (exists z; split; assumption).
  destruct a as [nm | | nm [[i | b p1] |] | nm]; cbn [run_action];
    try (destruct (JS.truthy nm) eqn:Hnm; [| try exact Hv]);
    try apply Hset_name; try apply Hset_index; try exact Hv.
  - destruct (removeAccount_valid config nm z Hidx (proj1 Hz)) as [H | ->];
      [exact H | exact Hv].
  - destruct (accounts config) as [| a0 rest] eqn:Hacc.
    + unfold rotateToNext. rewrite Hacc. exact Hv.
    + assert (Hne : accounts config <> []) by congruence.
      destruct (AccountFacts.rotateToNext_spec config z Hidx (proj1 Hz) Hne)
        as [(k & a & Hk & Hrot & Ha & _) | (_ & Hs & _)].
      * rewrite Hrot. unfold file_after, valid_index.
        cbn [saved config_after accounts current_index].
        apply AccountFacts.at_index_some in Ha.
        eexists. split; [reflexivity | lia].
      * unfold file_after. rewrite Hs. exact Hv.
  - cbn [integer_index] in Hint. congruence.
  - unfold toggle.
    destruct (flip_first nm (accounts config)) as [[b l'] |] eqn:Hf; [| exact Hv].
    apply flip_first_length in Hf.
    unfold file_after, valid_index. cbn [saved config_after accounts current_index].
    rewrite Hf. exists z. split; assumption.
Qed.

Lemma take_drop (n : nat) (s : string) : (take n s ++ drop n s)%string = s.
Proof.
  revert s. induction n as [| n IH]; intros s; [reflexivity |].
  destruct s as [| c s]; [reflexivity |]. cbn [take drop append]. now rewrite IH.
Qed.

Lemma take_length (n : nat) (s : string) :
  (n <= String.length s)%nat -> String.length (take n s) = n.
Proof.
  revert s. induction n as [| n IH]; intros s Hn; [reflexivity |].
  destruct s as [| c s]; [simpl in Hn; lia |].
  cbn [take String.length]. rewrite IH; [reflexivity | simpl in Hn; lia].
Qed.

Lemma drop_length (n : nat) (s : string) :
  String.length (drop n s) = (String.length s - n)%nat.
Proof.
  revert s. induction n as [| n IH]; intros s; [simpl; lia |].
  destruct s as [| c s]; [reflexivity |]. cbn [drop String.length]. apply IH.
Qed.

Lemma drop_drop (n m : nat) (s : string) : drop n (drop m s) = drop (m + n) s.
Proof.
  revert s. induction m as [| m IH]; intros s; [reflexivity |].
  destruct s as [| c s]; [destruct n; reflexivity |]. cbn [drop Nat.add]. apply IH.
Qed.

Lemma append_length (a b : string) :
  String.length (a ++ b) = (String.length a + String.length b)%nat.
Proof. induction a as [| c a IH]; simpl; [reflexivity | now rewrite IH]. Qed.

End AccountListFacts.

(** X18.  [removeAccount] answers [not_found] and changes nothing when no
    account has the name.  Otherwise it removes the first account of that
    name and no other, keeps the order of the rest and saves.  The
    current index is reset to the last position of the shortened list
    (0 when it is empty) if it is not below the new length, and is kept
    otherwise; so an index that was a non-negative integer points into
    the shortened list afterwards, or is 0 when the list is empty. *)
Theorem removeAccount_removes_first_match (config : Accounts.Config) (nm : string) :
  (Forall (fun b => Accounts.name b <> nm) (Accounts.accounts config) ->
   Accounts.removeAccount config nm = Accounts.mkStep Accounts.not_found config false) /\
  (forall l1 a l2,
     Accounts.accounts config = (l1 ++ a :: l2)%list ->
     Accounts.name a = nm ->
     Forall (fun b => Accounts.name b <> nm) l1 ->
     exists cur',
       Accounts.removeAccount config nm
       = Accounts.mkStep (Accounts.removed (List.length (l1 ++ l2)))
           (Accounts.mkConfig (l1 ++ l2) cur' (Accounts.strategy config)) true /\
       (Z.of_nat (List.length (l1 ++ l2)) <= Accounts.floor (Accounts.current_index config) ->
        cur' = Accounts.whole (Z.max 0 (Z.of_nat (List.length (l1 ++ l2)) - 1))) /\
       (Accounts.floor (Accounts.current_index config) < Z.of_nat (List.length (l1 ++ l2)) ->
        cur' = Accounts.current_index config) /\
       (forall z, Accounts.current_index config = Accounts.whole z -> 0 <= z ->
        Accounts.valid_index
          (Accounts.mkConfig (l1 ++ l2) cur' (Accounts.strategy config)))).
Proof.
  split.
  - intros Hno. unfold Accounts.removeAccount.
    now rewrite (AccountListFacts.findIndex_none nm _ Hno).
  - intros l1 a l2 Hacc Ha Hl1.
    destruct (AccountListFacts.findIndex_first nm l1 a l2 Ha Hl1) as [Hf Hs].
    unfold Accounts.removeAccount. rewrite Hacc, Hf, Hs.
    eexists. split; [reflexivity |].
    unfold Accounts.num_ge.
    destruct (Z.leb_spec (Z.of_nat (List.length (l1 ++ l2)))
                         (Accounts.floor (Accounts.current_index config))) as [Hle | Hlt].
    + split; [reflexivity |]. split; [lia |].
      intros z Hz Hpos. unfold Accounts.valid_index.
      cbn [Accounts.accounts Accounts.current_index].
      eexists. split; [reflexivity | lia].
    + split; [lia |]. split; [reflexivity |].
      intros z Hz Hpos. unfold Accounts.valid_index.
      cbn [Accounts.accounts Accounts.current_index].
      rewrite Hz in Hlt. cbn [Accounts.floor] in Hlt.
      exists z. split; [exact Hz | lia].
Qed.

(** Removing the inactive account of the three. *)
Lemma removeAccount_removes_first_match_witness :
  Accounts.accounts three_accounts = ([acct "a" true] ++ acct "b" false :: [acct "c" true])%list /\
  exists cur',
    Accounts.removeAccount three_accounts "b"
    = Accounts.mkStep (Accounts.removed 2)
        (Accounts.mkConfig [acct "a" true; acct "c" true] cur' "free_first") true /\
    Accounts.valid_index (Accounts.mkConfig [acct "a" true; acct "c" true] cur' "free_first").
Proof.
  split; [reflexivity |].
  destruct (proj2 (removeAccount_removes_first_match three_accounts "b")
              [acct "a" true] (acct "b" false) [acct "c" true] eq_refl eq_refl)
    as (cur' & H & _ & _ & Hv).
  - repeat constructor. discriminate.
  - exists cur'. split; [exact H |]. apply (Hv 0); [reflexivity | discriminate].
Defined.

(** A removal keeps an index that is no integer when it is below the new
    length: one and a half on three accounts is no position of the two
    that are left. *)
Example removeAccount_keeps_a_fractional_index :
  Accounts.removeAccount
    (Accounts.mkConfig [acct "a" true; acct "b" false; acct "c" true]
                       (Accounts.fraction 1 None) "free_first") "a"
  = Accounts.mkStep (Accounts.removed 2)
      (Accounts.mkConfig [acct "b" false; acct "c" true]
                         (Accounts.fraction 1 None) "free_first") true.
Proof. reflexivity. Qed.

(** X19.  When the current index is not negative and below the last
    position, removing an account leaves the index as it is.  So, for an
    integer index, if the removed account stood at or before the current
    position, the account that followed the current one becomes current;
    if it stood after, the current account stays. *)
Theorem removeAccount_shifts_current
        (config : Accounts.Config) (nm : string)
        (l1 : list Accounts.Account) (a : Accounts.Account) (l2 : list Accounts.Account) :
  Accounts.accounts config = (l1 ++ a :: l2)%list ->
  Accounts.name a = nm ->
  Forall (fun b => Accounts.name b <> nm) l1 ->
  0 <= Accounts.floor (Accounts.current_index config)
    < Z.of_nat (List.length (Accounts.accounts config)) - 1 ->
  let after := Accounts.config_after (Accounts.removeAccount config nm) in
  Accounts.current_index after = Accounts.current_index config /\
  (forall z, Accounts.current_index config = Accounts.whole z ->
     (Z.of_nat (List.length l1) <= z ->
      Accounts.at_number (Accounts.accounts after) (Accounts.current_index after)
      = Accounts.at_number (Accounts.accounts config) (Accounts.whole (z + 1))) /\
     (z < Z.of_nat (List.length l1) ->
      Accounts.at_number (Accounts.accounts after) (Accounts.current_index after)
      = Accounts.at_number (Accounts.accounts config) (Accounts.current_index config))).
Proof.
  intros Hacc Ha Hl1 Hcur after.
  destruct (AccountListFacts.findIndex_first nm l1 a l2 Ha Hl1) as [Hf Hs].
  assert (Hafter : after = Accounts.mkConfig (l1 ++ l2) (Accounts.current_index config)
                                             (Accounts.strategy config)).
  { unfold after, Accounts.removeAccount. rewrite Hacc, Hf, Hs.
    cbn [Accounts.config_after]. f_equal.
    rewrite Hacc in Hcur. rewrite length_app in Hcur. cbn [List.length] in Hcur.
    unfold Accounts.num_ge.
    destruct (Z.leb_spec (Z.of_nat (List.length (l1 ++ l2)))
                         (Accounts.floor (Accounts.current_index config)))
      as [Hle | _]; [| reflexivity].
    rewrite length_app in Hle. lia. }
  rewrite Hafter. cbn [Accounts.accounts Accounts.current_index]. rewrite Hacc.
  split; [reflexivity |].
  intros z Hz. rewrite Hz in Hcur |- *. cbn [Accounts.floor] in Hcur.
  cbn [Accounts.at_number]. unfold Accounts.at_index.
  destruct (Z.ltb_spec z 0); [lia |].
  destruct (Z.ltb_spec (z + 1) 0); [lia |].
  split; intros Hpos.
  - rewrite !nth_error_app2 by lia.
    replace (Z.to_nat (z + 1) - List.length l1)%nat
      with (S (Z.to_nat z - List.length l1)) by lia.
    reflexivity.
  - rewrite !nth_error_app1 by lia. reflexivity.
Qed.

(** Account [a] removed while [b] is current: [c] becomes current. *)
Lemma removeAccount_shifts_current_witness :
  Accounts.at_number
    (Accounts.accounts
       (Accounts.config_after
          (Accounts.removeAccount
             (Accounts.mkConfig [acct "a" true; acct "b" false; acct "c" true]
                                (Accounts.whole 1) "free_first")
             "a")))
    (Accounts.current_index
       (Accounts.config_after
          (Accounts.removeAccount
             (Accounts.mkConfig [acct "a" true; acct "b" false; acct "c" true]
                                (Accounts.whole 1) "free_first")
             "a")))
  = Accounts.at_number [acct "a" true; acct "b" false; acct "c" true]
                       (Accounts.whole (1 + 1)).
Proof.
  apply (proj1 (proj2 (removeAccount_shifts_current
           (Accounts.mkConfig [acct "a" true; acct "b" false; acct "c" true]
                              (Accounts.whole 1) "free_first")
           "a" [] (acct "a" true) [acct "b" false; acct "c" true]
           eq_refl eq_refl (Forall_nil _) ltac:(split; [discriminate | reflexivity]))
         1 eq_refl)).
  discriminate.
Defined.

(** X20.  When the configuration file holds a valid current index (an
    integer between 0 and the last position, 0 on an empty list) and no
    [set] command is given an index that is not an integer, the commands
    remove, rotate, set and toggle keep the index valid, so that on a
    non-empty list the current account exists. *)
Theorem commands_keep_index_valid (l : list Accounts.Action) (config : Accounts.Config) :
  Accounts.valid_index config ->
  forallb Accounts.integer_index l = true ->
  Accounts.valid_index (Accounts.run_actions l config) /\
  (Accounts.accounts (Accounts.run_actions l config) <> [] ->
   exists a,
     Accounts.at_number (Accounts.accounts (Accounts.run_actions l config))
                        (Accounts.current_index (Accounts.run_actions l config)) = Some a).
Proof.
  intros Hv Hint.
  assert (Hvalid : Accounts.valid_index (Accounts.run_actions l config)).
  { revert config Hv Hint. unfold Accounts.run_actions.
    induction l as [| a l IH]; intros config Hv Hint; [exact Hv |].
    cbn [fold_left]. cbn [forallb] in Hint. apply andb_prop in Hint as [Ha Hl].
    apply IH; [| exact Hl]. now apply AccountListFacts.run_action_valid. }
  split; [exact Hvalid |].
  intros Hne. destruct Hvalid as (z & Hz & Hrange). rewrite Hz.
  cbn [Accounts.at_number]. apply AccountFacts.at_index_in_range.
  destruct (Accounts.accounts (Accounts.run_actions l config)); [congruence |].
  cbn [List.length] in *. lia.
Qed.

(** Five commands on the three accounts. *)
Lemma commands_keep_index_valid_witness :
  Accounts.valid_index three_accounts /\
  Accounts.valid_index
    (Accounts.run_actions
       [Accounts.a_rotate; Accounts.a_remove "c"; Accounts.a_toggle "a";
        Accounts.a_set "" (Some (Accounts.whole 5)); Accounts.a_rotate] three_accounts).
Proof.
  assert (H : Accounts.valid_index three_accounts).
  { exists 0. split; [reflexivity | simpl; lia]. }
  split; [exact H |].
  exact (proj1 (commands_keep_index_valid
                  [Accounts.a_rotate; Accounts.a_remove "c"; Accounts.a_toggle "a";
                   Accounts.a_set "" (Some (Accounts.whole 5)); Accounts.a_rotate]
                  three_accounts H eq_refl)).
Defined.

(** The integer index is needed: [set] accepts the index one half, saves
    it and only then throws, and the file is left with a current index
    that is no position of the list. *)
Example set_saves_a_fractional_index :
  Accounts.run_action (Accounts.a_set "" (Some one_half)) three_accounts
  = Accounts.mkStep Accounts.threw
      (Accounts.mkConfig [acct "a" true; acct "b" false; acct "c" true]
                         one_half "free_first") true /\
  Accounts.at_number
    (Accounts.accounts
       (Accounts.run_actions [Accounts.a_set "" (Some one_half)] three_accounts))
    (Accounts.current_index
       (Accounts.run_actions [Accounts.a_set "" (Some one_half)] three_accounts))
  = None.
Proof. split; reflexivity. Qed.

(** X21.  [maskApiKey] shows at most ten characters of a key: a key of
    fewer than 12 characters is replaced by three stars, and a longer
    key by its first six characters, three dots and its last four, so
    that at least two characters stay hidden and the preview has 13
    characters. *)
Theorem maskApiKey_hides_the_middle (key : string) :
  ((String.length key < 12)%nat -> Accounts.maskApiKey key = "***") /\
  ((12 <= String.length key)%nat ->
   exists first middle last,
     key = (first ++ middle ++ last)%string /\
     String.length first = 6%nat /\ String.length last = 4%nat /\
     (2 <= String.length middle)%nat /\
     Accounts.maskApiKey key = (first ++ "..." ++ last)%string /\
     String.length (Accounts.maskApiKey key) = 13%nat).
Proof.
  unfold Accounts.maskApiKey. split; intros Hlen.
  - apply Nat.ltb_lt in Hlen. rewrite Hlen. now rewrite orb_true_r.
  - assert (Ht : JS.truthy key = true) by (destruct key; [simpl in Hlen; lia | reflexivity]).
    assert (Hlt : Nat.ltb (String.length key) 12 = false) by (apply Nat.ltb_ge; lia).
    rewrite Ht, Hlt. cbn [negb orb].
    exists (Accounts.take 6 key),
           (Accounts.take (String.length key - 10) (Accounts.drop 6 key)),
           (Accounts.drop (String.length key - 4) key).
    assert (Hlast : Accounts.drop (String.length key - 4) key
                    = Accounts.drop (String.length key - 10) (Accounts.drop 6 key)).
    { rewrite AccountListFacts.drop_drop. f_equal. lia. }
    assert (H6 : String.length (Accounts.take 6 key) = 6%nat)
      by (apply AccountListFacts.take_length; lia).
    assert (H4 : String.length (Accounts.drop (String.length key - 4) key) = 4%nat)
      by (rewrite AccountListFacts.drop_length; lia).
    repeat split.
    + rewrite Hlast, AccountListFacts.take_drop, AccountListFacts.take_drop. reflexivity.
    + exact H6.
    + exact H4.
    + rewrite AccountListFacts.take_length; [lia |].
      rewrite AccountListFacts.drop_length. lia.
    + rewrite !AccountListFacts.append_length, H6, H4. reflexivity.
Qed.

Lemma maskApiKey_hides_the_middle_witness :
  (12 <= String.length "AIzaSy-0123456789")%nat /\
  exists first middle last,
    "AIzaSy-0123456789" = (first ++ middle ++ last)%string /\
    String.length first = 6%nat /\ String.length last = 4%nat /\
    (2 <= String.length middle)%nat /\
    Accounts.maskApiKey "AIzaSy-0123456789" = (first ++ "..." ++ last)%string /\
    String.length (Accounts.maskApiKey "AIzaSy-0123456789") = 13%nat.
Proof.
  split; [simpl; lia |].
  apply (proj2 (maskApiKey_hides_the_middle "AIzaSy-0123456789")).
  simpl; lia.
Defined.

Example maskApiKey_run :
  Accounts.maskApiKey "AIzaSy-0123456789" = "AIzaSy...6789" /\
  Accounts.maskApiKey "short-key" = "***" /\
  Accounts.maskApiKey "" = "***".
Proof. repeat split; reflexivity. Qed.
